(** * Tiling of LinalgExt operations: a shallow embedding of
      iree/compiler/Dialect/LinalgExt/Transforms/Tiling.cpp

    The development follows the source file top to bottom: the IR substrate
    the file builds on (types, attributes, SSA values, operations, the
    builder), then the helpers [getOpFoldResult], [getValue] and
    [isUntiledLoop], the options check [verifySupportedTilingOptions], the
    recursive loop-nest generator [tileLinalgExtOpImpl], the entry point
    [tileLinalgExtOp] and the rewrite patterns.  Source locations are not
    modelled: they are debugging metadata that no decision depends on. *)

From Stdlib Require Import ZArith Lia String List Bool.
From stdpp Require Import base list.
Import ListNotations.

Local Open Scope string_scope.
Local Open Scope list_scope.
Local Open Scope Z_scope.

(** ** Types and attributes *)

(** The MLIR types this file inspects: index and signless integer types for
    scalars, and the two shaped types results may have. *)
Inductive MType : Type :=
| IndexType
| IntegerType (width : N)
| RankedTensorType (rank : nat)
| MemRefType (rank : nat)
| NoneType.

Definition isShapedType (t : MType) : bool :=
  match t with
  | RankedTensorType _ | MemRefType _ => true
  | _ => false
  end.

Definition getRank (t : MType) : nat :=
  match t with
  | RankedTensorType r | MemRefType r => r
  | _ => 0%nat
  end.

(** [llvm::APInt], for the integers this file meets: an integer of
    [BitWidth] bits held in a single word ([isSingleWord]: at most 64
    bits), stored as the unsigned number [U]; every reading reduces [U]
    modulo [2^BitWidth].  Index values, which tile sizes and loop bounds
    are, have 64 bits.  Integers of more than one word, on which
    [getSExtValue] asserts that the value fits in an [int64_t], are not
    modelled. *)
Module APInt.
Record t : Type := make {
  BitWidth : N;
  U : Z;
  isSingleWord : (BitWidth <=? 64)%N = true
}.

Definition getZExtValue (a : t) : Z := U a mod 2 ^ Z.of_N (BitWidth a).

(** [llvm::SignExtend64(X, B)]: the low [B] bits of [X] read as a signed
    number. *)
Definition SignExtend64 (x : Z) (b : Z) : Z :=
  let u := x mod 2 ^ b in
  if (b =? 0) then 0
  else if u <? 2 ^ (b - 1) then u else u - 2 ^ b.

(** [getSExtValue] of a single word: [SignExtend64(U.VAL, BitWidth)]. *)
Definition getSExtValue (a : t) : Z :=
  SignExtend64 (U a) (Z.of_N (BitWidth a)).

(** [operator==(uint64_t)] *)
Definition eqU64 (a : t) (v : Z) : bool := getZExtValue a =? v.

(** The signed number an APInt denotes at its own width. *)
Definition signedValue (a : t) : Z :=
  let w := Z.of_N (BitWidth a) in
  let u := U a mod 2 ^ w in
  if (w =? 0) then 0
  else if u <? 2 ^ (w - 1) then u else u - 2 ^ w.

(** An [int64_t] stored as a 64-bit APInt. *)
Definition ofInt64 (v : Z) : t := make 64 (v mod 2 ^ 64) eq_refl.
End APInt.

Module IntegerAttr.
Record t : Type := get { getType : MType; getValue : APInt.t }.
Definition getInt (a : t) : Z := APInt.getSExtValue (getValue a).
End IntegerAttr.

(** [Builder::getI64IntegerAttr] *)
Definition getI64IntegerAttr (v : Z) : IntegerAttr.t :=
  IntegerAttr.get (IntegerType 64) (APInt.ofInt64 v).

(** ** Affine expressions and maps *)

Inductive AffineExpr : Type :=
| AffineDimExpr (position : nat)
| AffineSymbolExpr (position : nat)
| AffineConstantExpr (value : Z)
| AffineAddExpr (lhs rhs : AffineExpr)
| AffineMulExpr (lhs rhs : AffineExpr).

(** [AffineExpr::operator-]: [lhs - rhs] is [lhs + rhs * -1]. *)
Definition affineSub (lhs rhs : AffineExpr) : AffineExpr :=
  AffineAddExpr lhs (AffineMulExpr rhs (AffineConstantExpr (-1))).

Record AffineMap : Type := mkAffineMap {
  numDims : nat;
  numSymbols : nat;
  mapResults : list AffineExpr
}.

Fixpoint maxDimPlusOne (e : AffineExpr) : nat :=
  match e with
  | AffineDimExpr p => S p
  | AffineSymbolExpr _ | AffineConstantExpr _ => 0%nat
  | AffineAddExpr l r | AffineMulExpr l r =>
      Nat.max (maxDimPlusOne l) (maxDimPlusOne r)
  end.

Fixpoint maxSymPlusOne (e : AffineExpr) : nat :=
  match e with
  | AffineSymbolExpr p => S p
  | AffineDimExpr _ | AffineConstantExpr _ => 0%nat
  | AffineAddExpr l r | AffineMulExpr l r =>
      Nat.max (maxSymPlusOne l) (maxSymPlusOne r)
  end.

Definition maxOver (f : AffineExpr -> nat) (es : list AffineExpr) : nat :=
  fold_right (fun e acc => Nat.max (f e) acc) 0%nat es.

(** [AffineMap::inferFromExprList]: one map per expression list, all with
    the dimension and symbol counts read off the largest positions used. *)
Definition inferFromExprList (exprsList : list (list AffineExpr))
  : list AffineMap :=
  let nd := maxOver maxDimPlusOne (concat exprsList) in
  let ns := maxOver maxSymPlusOne (concat exprsList) in
  map (fun exprs => mkAffineMap nd ns exprs) exprsList.

Fixpoint evalAffineExpr (dims syms : list Z) (e : AffineExpr) : Z :=
  match e with
  | AffineDimExpr p => nth p dims 0
  | AffineSymbolExpr p => nth p syms 0
  | AffineConstantExpr v => v
  | AffineAddExpr l r => evalAffineExpr dims syms l + evalAffineExpr dims syms r
  | AffineMulExpr l r => evalAffineExpr dims syms l * evalAffineExpr dims syms r
  end.

(** The results of a map on operand values, dimensions first then symbols,
    the operand order of [affine.apply] and [affine.min]. *)
Definition evalAffineMap (m : AffineMap) (operands : list Z) : list Z :=
  let dims := firstn (numDims m) operands in
  let syms := skipn (numDims m) operands in
  map (evalAffineExpr dims syms) (mapResults m).

(** What an [affine.min] computes: the least of its map's results. *)
Definition evalAffineMin (m : AffineMap) (operands : list Z) : option Z :=
  match evalAffineMap m operands with
  | [] => None
  | r :: rs => Some (fold_left Z.min rs r)
  end.

Set Warnings "-register-all".

(** ** SSA values and operations

    A [Value] is an operation result or a block argument and, as in MLIR,
    gives access to the operation that defines it.  Every operation carries
    the number the builder gave it: two operations are the same operation
    exactly when their numbers agree.  [DispatchWorkgroupIDOp] and
    [DispatchWorkgroupCountOp] are the operations of the Flow dialect the
    test pass builds, each for one workgroup dimension.  [OpaqueOp] stands
    for every operation this file does not build itself (those the tiled
    operation's own methods or a distribution callback create). *)
Inductive Value : Type :=
| OpResult (owner : Operation) (resultNumber : nat)
| BlockArgument (ownerId : nat) (argNumber : nat) (type : MType)
with Operation : Type :=
| ConstantOp (id : nat) (value : IntegerAttr.t)
| AffineApplyOp (id : nat) (map : AffineMap) (operands : list Value)
| AffineMinOp (id : nat) (map : AffineMap) (operands : list Value)
| ForOp (id : nat) (lowerBound upperBound step : Value)
        (initArgs : list Value) (resultTypes : list MType)
        (body : list Operation)
| YieldOp (id : nat) (operands : list Value)
| InsertSliceOp (id : nat) (source dest : Value)
                (offsets sizes strides : list OpFoldResult)
                (resultType : MType)
| DispatchWorkgroupIDOp (id : nat) (dimension : nat)
| DispatchWorkgroupCountOp (id : nat) (dimension : nat)
| OpaqueOp (id : nat) (name : string) (operands : list Value)
           (resultTypes : list MType)
with OpFoldResult : Type :=
| OfrAttribute (attr : IntegerAttr.t)
| OfrValue (v : Value).

Definition opId (op : Operation) : nat :=
  match op with
  | ConstantOp i _ | AffineApplyOp i _ _ | AffineMinOp i _ _
  | ForOp i _ _ _ _ _ _ | YieldOp i _ | InsertSliceOp i _ _ _ _ _ _
  | DispatchWorkgroupIDOp i _ | DispatchWorkgroupCountOp i _
  | OpaqueOp i _ _ _ => i
  end.

Definition opResultTypes (op : Operation) : list MType :=
  match op with
  | ConstantOp _ a => [IntegerAttr.getType a]
  | AffineApplyOp _ _ _ | AffineMinOp _ _ _ => [IndexType]
  | ForOp _ _ _ _ _ tys _ => tys
  | YieldOp _ _ => []
  | InsertSliceOp _ _ _ _ _ _ ty => [ty]
  | DispatchWorkgroupIDOp _ _ | DispatchWorkgroupCountOp _ _ => [IndexType]
  | OpaqueOp _ _ _ tys => tys
  end.

Definition getNumResults (op : Operation) : nat := length (opResultTypes op).

Definition getResults (op : Operation) : list Value :=
  map (OpResult op) (seq 0 (getNumResults op)).

Definition getType (v : Value) : MType :=
  match v with
  | OpResult op i => nth i (opResultTypes op) NoneType
  | BlockArgument _ _ ty => ty
  end.

Definition isForOp (op : Operation) : bool :=
  match op with ForOp _ _ _ _ _ _ _ => true | _ => false end.

Definition forBody (op : Operation) : list Operation :=
  match op with ForOp _ _ _ _ _ _ b => b | _ => [] end.

(** The loop-carried arguments of the body: one per init value, after the
    induction variable. *)
Definition getRegionIterArgs (forId : nat) (initArgs : list Value)
  : list Value :=
  imap (fun i v => BlockArgument forId (S i) (getType v)) initArgs.

(** ** Matchers ([mlir/IR/Matchers.h]) *)

(** [matchPattern(value, m_ConstantInt(&attr))]: the value is defined by a
    constant operation of index or integer type; binds its integer.  (The
    matcher also accepts splat constants of vector and tensor type; tile
    sizes and bounds are scalars, and those are not modelled.) *)
Definition m_ConstantInt (value : Value) : option APInt.t :=
  match value with
  | OpResult (ConstantOp _ a) _ =>
      match IntegerAttr.getType a with
      | IndexType | IntegerType _ => Some (IntegerAttr.getValue a)
      | _ => None
      end
  | _ => None
  end.

Definition m_Zero (value : Value) : bool :=
  match m_ConstantInt value with
  | Some a => APInt.eqU64 a 0
  | None => false
  end.

Definition m_One (value : Value) : bool :=
  match m_ConstantInt value with
  | Some a => APInt.eqU64 a 1
  | None => false
  end.

(** ** The builder

    An [OpBuilder] holds the operations created so far at its insertion
    point, in order, and the number the next operation will get. *)
Record OpBuilder : Type := mkBuilder {
  nextId : nat;
  block : list Operation
}.

(** [builder.create<Op>(...)]: number the operation, insert it. *)
Definition create (mk : nat -> Operation) (b : OpBuilder)
  : Operation * OpBuilder :=
  let op := mk (nextId b) in
  (op, mkBuilder (S (nextId b)) (block b ++ [op])).

Definition ConstantIndexOp (id : nat) (v : Z) : Operation :=
  ConstantOp id (IntegerAttr.get IndexType (APInt.ofInt64 v)).

(** ** Results of fallible steps

    [Success] and [Failure] are the two states of [FailureOr] and
    [LogicalResult]; a failure carries what was reported with it.
    [Violation] marks a run that left the contract of the code: an
    [assert] that does not hold or an index past the end of an array.
    [OutOfFuel] is an artefact of the bounded recursion used to define
    [tileLinalgExtOpImpl]; the entry point never produces it. *)
Inductive Diagnostic : Type :=
| MatchFailure (reason : string)   (* rewriter.notifyMatchFailure *)
| OpError (opNumber : nat) (message : string)       (* op.emitOpError *)
| Silent.                          (* a bare failure() *)

Inductive FailureOr (A : Type) : Type :=
| Success (a : A)
| Failure (d : Diagnostic)
| Violation (what : string)
| OutOfFuel.
Arguments Success {A} a.
Arguments Failure {A} d.
Arguments Violation {A} what.
Arguments OutOfFuel {A}.

Definition LogicalResult : Type := FailureOr unit.
Definition success : LogicalResult := Success tt.

Definition succeeded {A} (r : FailureOr A) : bool :=
  match r with Success _ => true | _ => false end.
Definition failed {A} (r : FailureOr A) : bool :=
  match r with Failure _ => true | _ => false end.

(** ** Records of the tiling interface *)

(** [mlir::Range]: the bounds of one loop. *)
Module Range.
Record t : Type := make { offset : Value; size : Value; stride : Value }.
End Range.

(** [linalg::ProcInfo] *)
Record ProcInfo : Type := mkProcInfo { procId : Value; nprocs : Value }.

(** [TiledOp]: the tiled operation (null when nothing was done), the loops
    generated around it and the values that replace the original results. *)
Module TiledOp.
Record t : Type := make {
  op : option Operation;
  loops : list Operation;
  results : list Value
}.
(** [TiledOp{}] *)
Definition empty : t := make None [] [].
End TiledOp.

Inductive DistributionMethod : Type :=
| Cyclic
| CyclicNumProcsGeNumIters
| CyclicNumProcsEqNumIters.

Inductive LinalgTilingLoopType : Type :=
| Loops
| AffineLoops
| ParallelLoops
| TiledLoops.

Definition isCyclic (m : DistributionMethod) : bool :=
  match m with Cyclic => true | _ => false end.

Definition isLoops (t : LinalgTilingLoopType) : bool :=
  match t with Loops => true | _ => false end.

(** Functions that build IR take the builder last and return it with their
    result: [f args b = (result, b')]. *)
Record LinalgLoopDistributionOptions : Type := {
  procInfo : list Range.t -> OpBuilder -> list ProcInfo * OpBuilder;
  distributionMethod : list DistributionMethod
}.

Record LinalgTilingOptions : Type := {
  tileSizeComputationFunction :
    Operation -> OpBuilder -> list Value * OpBuilder;
  interchangeVector : list nat;
  paddingValueComputationFunction :
    option (Value -> OpBuilder -> Value * OpBuilder);
  loopType : LinalgTilingLoopType;
  distribution : option LinalgLoopDistributionOptions
}.

(** [TiledOpInterface]: the methods an operation implements to be tiled.
    [getTiledImplementation] returns the tiled operation (null on failure)
    and fills [resultOffsets]. *)
Record TiledOpInterface : Type := {
  interfaceOperation : Operation;
  getLoopIteratorTypes : list string;
  getLoopBounds : OpBuilder -> list Range.t * OpBuilder;
  getTiledImplementation :
    list Value -> list OpFoldResult -> list OpFoldResult -> OpBuilder ->
    (option Operation * list (list OpFoldResult)) * OpBuilder
}.

(** A [LinalgExtOp]: the operation, its output operands, and its
    [TiledOpInterface] when it implements one
    ([dyn_cast<TiledOpInterface>]). *)
Record LinalgExtOp : Type := {
  getOperation : Operation;
  outputs : list Value;
  asTiledOpInterface : option TiledOpInterface
}.

Definition getParallelIteratorTypeName : string := "parallel".

(** ** Utility methods *)

(** The rewriter: a builder, plus the replacements, erasures and marker
    updates requested so far. *)
Inductive RewriteAction : Type :=
| EraseOp (opNumber : nat)
| ReplaceOp (opNumber : nat) (newValues : list Value)
| ReplaceFilter (opNumber : nat).

Record PatternRewriter : Type := mkRewriter {
  builder : OpBuilder;
  actions : list RewriteAction
}.

(** [rewriter.notifyMatchFailure]: reports why the pattern does not apply;
    the IR is untouched. *)
Definition notifyMatchFailure (rewriter : PatternRewriter) (op : Operation)
  (reason : string) : LogicalResult * PatternRewriter :=
  (Failure (MatchFailure reason), rewriter).

(** Returns failure if the options are unsupported. *)
Definition verifySupportedTilingOptions (rewriter : PatternRewriter)
  (op : Operation) (options : LinalgTilingOptions)
  : LogicalResult * PatternRewriter :=
  if negb (match interchangeVector options with [] => true | _ => false end)
  then notifyMatchFailure rewriter op "unsupported interchange during tiling"
  else if (match paddingValueComputationFunction options with
           | Some _ => true | None => false end)
  then notifyMatchFailure rewriter op "unsupported tile + pad option"
  else if negb (isLoops (loopType options))
  then notifyMatchFailure rewriter op "only tiling with scf.for is supported"
  else match distribution options with
       | Some d =>
           if existsb (fun method => negb (isCyclic method))
                (distributionMethod d)
           then notifyMatchFailure rewriter op
                  "only cyclic distibution is allowed"
           else (success, rewriter)
       | None => (success, rewriter)
       end.

(** Converts a [Value] to an [OpFoldResult] by extracting the constant
    value if the value is defined by a constant op. *)
Definition getOpFoldResult (value : Value) : OpFoldResult :=
  match m_ConstantInt value with
  | Some attr => OfrAttribute (IntegerAttr.get (getType value) attr)
  | None => OfrValue value
  end.

Definition getOpFoldResults (values : list Value) : list OpFoldResult :=
  map getOpFoldResult values.

(** Converts an [OpFoldResult] to a [Value] by building a constant op if
    the [OpFoldResult] is an [IntegerAttr]. *)
Definition getValue (valueOrAttr : OpFoldResult) (b : OpBuilder)
  : Value * OpBuilder :=
  match valueOrAttr with
  | OfrAttribute attr =>
      let (c, b') :=
        create (fun id => ConstantIndexOp id (IntegerAttr.getInt attr)) b in
      (OpResult c 0, b')
  | OfrValue v => (v, b)
  end.

(** Returns true if loop is untiled: an attribute with a zero value. *)
Definition isUntiledLoop (valueOrAttr : OpFoldResult) : bool :=
  match valueOrAttr with
  | OfrAttribute attr => APInt.eqU64 (IntegerAttr.getValue attr) 0
  | OfrValue _ => false
  end.

(** ** Helpers from outside the file *)

(** Modelled from the spec: [getDim] is a helper of the repository that is
    not part of this file; the spec says of it that the runtime shape of a
    result is computed.  Here it materialises the dimension number and a
    dimension query on the value, and returns the query's result. *)
Definition getDim (v : Value) (dim : nat) (b : OpBuilder)
  : OpFoldResult * OpBuilder :=
  let (c, b1) := create (fun id => ConstantIndexOp id (Z.of_nat dim)) b in
  let (d, b2) :=
    create (fun id => OpaqueOp id "dim" [v; OpResult c 0] [IndexType]) b1 in
  (OfrValue (OpResult d 0), b2).

Fixpoint getDims (v : Value) (dims : list nat) (b : OpBuilder)
  : list OpFoldResult * OpBuilder :=
  match dims with
  | [] => ([], b)
  | dim :: rest =>
      let (s, b1) := getDim v dim b in
      let (ss, b2) := getDims v rest b1 in
      (s :: ss, b2)
  end.

(** The maps of the cyclic distribution: [d0 + d1 * s0] on
    [(lb, procId, step)] and [d0 * s0] on [(nprocs, step)]. *)
Definition distributedLowerBoundMap : AffineMap :=
  mkAffineMap 2 1
    [AffineAddExpr (AffineDimExpr 0)
       (AffineMulExpr (AffineDimExpr 1) (AffineSymbolExpr 0))].

Definition distributedStepMap : AffineMap :=
  mkAffineMap 1 1 [AffineMulExpr (AffineDimExpr 0) (AffineSymbolExpr 0)].

(** Modelled from the spec: [linalg::updateBoundsForCyclicDistribution]
    belongs to the linalg utilities, outside this repository; the spec says
    the bounds become a strided partition in which the processor id selects
    the starting offset and the processor count multiplies the stride.  The
    lower bound becomes [lb + procId * step], the step [nprocs * step], and
    the upper bound stays. *)
Definition updateBoundsForCyclicDistribution (procId nprocs : Value)
  (lb ub step : Value) (b : OpBuilder) : (Value * Value * Value) * OpBuilder :=
  let (lbOp, b1) :=
    create (fun id => AffineApplyOp id distributedLowerBoundMap
                        [lb; procId; step]) b in
  let (stepOp, b2) :=
    create (fun id => AffineApplyOp id distributedStepMap [nprocs; step]) b1 in
  ((OpResult lbOp 0, ub, OpResult stepOp 0), b2).

(** ** The loop-nest generator *)

(** What [tileLinalgExtOpImpl] reaches through references and updates in
    place: the builder, the tile sizes and the offsets. *)
Record TilingState : Type := mkState {
  stBuilder : OpBuilder;
  tileSizes : list OpFoldResult;
  offsets : list OpFoldResult
}.

Definition withBuilder (st : TilingState) (b : OpBuilder) : TilingState :=
  mkState b (tileSizes st) (offsets st).

(** [builder.create<scf::ForOp>(lb, ub, step, initValues, bodyBuilder)]:
    the body block gets the induction variable and one argument per init
    value, [bodyBuilder] runs with the insertion point at the start of the
    body, then the insertion point is restored and the loop inserted. *)
Definition createForOp {A : Type} (lb ub step : Value)
  (initValues : list Value)
  (bodyBuilder : Value -> list Value -> TilingState -> A * TilingState)
  (st : TilingState) : (Operation * A) * TilingState :=
  let b := stBuilder st in
  let forId := nextId b in
  let iv := BlockArgument forId 0 IndexType in
  let args := getRegionIterArgs forId initValues in
  let (a, st') :=
    bodyBuilder iv args (withBuilder st (mkBuilder (S forId) [])) in
  let forOp :=
    ForOp forId lb ub step initValues (map getType initValues)
      (block (stBuilder st')) in
  ((forOp, a),
   withBuilder st' (mkBuilder (nextId (stBuilder st')) (block b ++ [forOp]))).

(** The map of the boundary clamp, [(d0)[s0, s1] -> (s0, s1 - d0)]. *)
Definition inBoundsTileSizeMap : AffineMap :=
  nth 0 (inferFromExprList
           [[AffineSymbolExpr 0;
             affineSub (AffineSymbolExpr 1) (AffineDimExpr 0)]])
    (mkAffineMap 0 0 []).

(** Lines 135-152: every result of the tiled operation is inserted into the
    matching output at the offsets the interface reported. *)
Fixpoint insertResults (outputs : list Value)
  (resultOffsets : list (list OpFoldResult)) (index : nat)
  (tiledResults : list Value) (results : list Value) (b : OpBuilder)
  : FailureOr (list Value) * OpBuilder :=
  match tiledResults with
  | [] => (Success results, b)
  | result :: rest =>
      match resultOffsets !! index with
      | None => (Violation "resultOffsets[en.index()]", b)
      | Some offs =>
          if negb (isShapedType (getType result))
          then (Violation "cast<ShapedType>", b)
          else
            let rank := getRank (getType result) in
            let oneAttr := getI64IntegerAttr 1 in
            let strides := replicate rank (OfrAttribute oneAttr) in
            let (sizes, b1) := getDims result (seq 0 rank) b in
            match outputs !! index with
            | None => (Violation "outputs[en.index()]", b1)
            | Some out =>
                let (insert, b2) :=
                  create (fun id => InsertSliceOp id result out offs sizes
                                      strides (getType out)) b1 in
                insertResults outputs resultOffsets (S index) rest
                  (results ++ [OpResult insert 0]) b2
            end
      end
  end.

(** Lines 120-154: the innermost level. *)
Definition tileInnermost (op : TiledOpInterface) (outputs : list Value)
  (st : TilingState) : FailureOr TiledOp.t * TilingState :=
  let '(tiledOp, resultOffsets, b1) :=
    getTiledImplementation op outputs (offsets st) (tileSizes st)
      (stBuilder st) in
  match tiledOp with
  | None =>
      (Failure (OpError (opId (interfaceOperation op))
                  "failed to get tiled implementation"),
       withBuilder st b1)
  | Some tiledOp =>
      if negb ((getNumResults tiledOp =? 0)%nat
               || (length resultOffsets =? getNumResults tiledOp)%nat)
      then (Violation "resultOffsets.size() == tiledOp->getNumResults()",
            withBuilder st b1)
      else if (getNumResults tiledOp =? 0)%nat
      then (Success (TiledOp.make (Some tiledOp) [] []), withBuilder st b1)
      else
        let (results, b2) :=
          insertResults outputs resultOffsets 0 (getResults tiledOp) [] b1 in
        match results with
        | Success results =>
            (Success (TiledOp.make (Some tiledOp) [] results),
             withBuilder st b2)
        | Failure d => (Failure d, withBuilder st b2)
        | Violation w => (Violation w, withBuilder st b2)
        | OutOfFuel => (OutOfFuel, withBuilder st b2)
        end
  end.

(** Lines 178-179, the test
    [!distributionInfo.empty() && iteratorTypes[loopDepth] == "parallel"]:
    the entry at the front when the loop is distributed, nothing when it is
    not; no answer when [iteratorTypes] is read past its end. *)
Definition distributedWith (distributionInfo : list ProcInfo)
  (iteratorTypes : list string) (loopDepth : nat)
  : option (option ProcInfo) :=
  match distributionInfo with
  | [] => Some None
  | front :: _ =>
      match iteratorTypes !! loopDepth with
      | None => None
      | Some iteratorType =>
          if String.eqb iteratorType getParallelIteratorTypeName
          then Some (Some front)
          else Some None
      end
  end.

(** Generates the tiled loops and the body by invoking the interface
    methods of [TiledOpInterface].  The recursion is on [fuel]; every call
    moves [loopDepth] one step towards the number of tile sizes, so that
    many units of fuel are enough. *)
Fixpoint tileLinalgExtOpImpl (fuel : nat) (op : TiledOpInterface)
  (outputs : list Value) (iteratorTypes : list string)
  (loopBounds : list Range.t) (loopDepth : nat)
  (distributionInfo : list ProcInfo) (st : TilingState)
  : FailureOr TiledOp.t * TilingState :=
  (* If this is the innermost loop, then generate the tiled implementation
     of the op by invoking the TiledOpInterface methods. *)
  if (loopDepth =? length (tileSizes st))%nat
  then tileInnermost op outputs st
  else
  match fuel with
  | O => (OutOfFuel, st)
  | S fuel =>
  match tileSizes st !! loopDepth with
  | None => (Violation "tileSizes[loopDepth]", st)
  | Some tileSize =>
  (* If tile size at this depth is empty, do nothing. *)
  if isUntiledLoop tileSize then
    let zeroAttr := getI64IntegerAttr 0 in
    let st1 :=
      mkState (stBuilder st) (tileSizes st)
        (offsets st ++ [OfrAttribute zeroAttr]) in
    match loopBounds !! loopDepth with
    | None => (Violation "loopBounds[loopDepth]", st1)
    | Some bound =>
        if negb (m_Zero (Range.offset bound))
        then (Violation "expected loop bounds to have lower bound of zero",
              st1)
        else
          tileLinalgExtOpImpl fuel op outputs iteratorTypes loopBounds
            (S loopDepth) distributionInfo
            (mkState (stBuilder st1)
               (<[loopDepth := getOpFoldResult (Range.size bound)]>
                  (tileSizes st1))
               (offsets st1))
    end
  else
  (* Generate an scf.for for the current loop depth. *)
  match loopBounds !! loopDepth with
  | None => (Violation "loopBounds[loopDepth]", st)
  | Some bound =>
  let lb := Range.offset bound in
  let ub := Range.size bound in
  if negb (m_One (Range.stride bound))
  then (Failure (OpError (opId (interfaceOperation op))
                   "expected stride to be 1"), st)
  else
  let (step, b1) := getValue tileSize (stBuilder st) in
  (* Update lb, ub and step for cyclic distribution. *)
  match distributedWith distributionInfo iteratorTypes loopDepth with
  | None => (Violation "iteratorTypes[loopDepth]", withBuilder st b1)
  | Some distributed =>
  let '(lb, ub, step, b2) :=
    match distributed with
    | Some front =>
        updateBoundsForCyclicDistribution (procId front) (nprocs front)
          lb ub step b1
    | None => ((lb, ub, step), b1)
    end in
  let distributionInfo :=
    match distributed with
    | Some _ => tail distributionInfo
    | None => distributionInfo
    end in
  let isBufferTiling :=
    (getNumResults (interfaceOperation op) =? 0)%nat in
  let initValues := if isBufferTiling then [] else outputs in
  let '(forOp, innerReturnValue, st') :=
    createForOp lb ub step initValues
      (fun iv args st =>
         let st2 :=
           mkState (stBuilder st) (tileSizes st)
             (offsets st ++ [OfrValue iv]) in
         match tileSizes st2 !! loopDepth with
         | None => (Violation "tileSizes[loopDepth]", st2)
         | Some declared =>
         (* Similar to linalg tiling, the tile size is the
            min(tileSizes, ub - iv) to account for cases where tile size
            does not divide (ub - lb) exactly. *)
         let (tileSizeValue, b3) := getValue declared (stBuilder st2) in
         let (inBoundsTileSize, b4) :=
           create (fun id => AffineMinOp id inBoundsTileSizeMap
                               [iv; tileSizeValue; ub]) b3 in
         let st3 :=
           mkState b4
             (<[loopDepth := getOpFoldResult (OpResult inBoundsTileSize 0)]>
                (tileSizes st2))
             (offsets st2) in
         (* Recursively proceed to generate the tiled loop for the next
            level. *)
         let (innerReturnValue, st4) :=
           tileLinalgExtOpImpl fuel op
             (if isBufferTiling then outputs else args)
             iteratorTypes loopBounds (S loopDepth) distributionInfo st3 in
         match innerReturnValue with
         | Success inner =>
             let (_, b5) :=
               create (fun id => YieldOp id (TiledOp.results inner))
                 (stBuilder st4) in
             (innerReturnValue, withBuilder st4 b5)
         | _ => (innerReturnValue, st4)
         end
         end)
      (withBuilder st b2) in
  match innerReturnValue with
  | Success inner =>
      (Success (TiledOp.make (TiledOp.op inner)
                  (forOp :: TiledOp.loops inner)
                  (getResults forOp)),
       st')
  | _ => (innerReturnValue, st')
  end
  end
  end
  end
  end.

(** ** The entry point *)

(** [SmallVector::resize(n, x)] *)
Definition resize {A : Type} (l : list A) (n : nat) (x : A) : list A :=
  take n l ++ replicate (n - length l) x.

(** Lines 233-239: a loop that is not parallel must be untiled. *)
Fixpoint verifyNonParallelUntiled (opNumber : nat)
  (tileSizes : list OpFoldResult) (index : nat) (iteratorTypes : list string)
  : LogicalResult :=
  match iteratorTypes with
  | [] => success
  | iteratorType :: rest =>
      if String.eqb iteratorType getParallelIteratorTypeName
      then verifyNonParallelUntiled opNumber tileSizes (S index) rest
      else
        match tileSizes !! index with
        | None => Violation "tileSizes[en.index()]"
        | Some tileSize =>
            if negb (isUntiledLoop tileSize)
            then Failure (OpError opNumber
                   "unimplemented tiling of non-parallel loop iterator type")
            else verifyNonParallelUntiled opNumber tileSizes (S index) rest
        end
  end.

(** Lines 254-259: the bounds of the loops that are distributed, i.e.
    parallel and tiled, collected over [i = 0 .. tileSizes.size()-1]. *)
Fixpoint collectDistributedLoopRange (tileSizes : list OpFoldResult)
  (iteratorTypes : list string) (loopBounds : list Range.t)
  (indices : list nat) (distributedLoopRange : list Range.t)
  : FailureOr (list Range.t) :=
  match indices with
  | [] => Success distributedLoopRange
  | i :: rest =>
      match tileSizes !! i with
      | None => Violation "tileSizes[i]"
      | Some tileSize =>
          if isUntiledLoop tileSize
          then collectDistributedLoopRange tileSizes iteratorTypes loopBounds
                 rest distributedLoopRange
          else
            match iteratorTypes !! i with
            | None => Violation "iteratorTypes[i]"
            | Some iteratorType =>
                if negb (String.eqb iteratorType getParallelIteratorTypeName)
                then collectDistributedLoopRange tileSizes iteratorTypes
                       loopBounds rest distributedLoopRange
                else
                  match loopBounds !! i with
                  | None => Violation "loopBounds[i]"
                  | Some bound =>
                      collectDistributedLoopRange tileSizes iteratorTypes
                        loopBounds rest (distributedLoopRange ++ [bound])
                  end
            end
      end
  end.

Definition tileLinalgExtOp (op : LinalgExtOp) (options : LinalgTilingOptions)
  (b : OpBuilder) : FailureOr TiledOp.t * OpBuilder :=
  match asTiledOpInterface op with
  | None => (Success TiledOp.empty, b)
  | Some tilableOp =>
  let iteratorTypes := getLoopIteratorTypes tilableOp in
  let (tileSizesVals, b1) :=
    tileSizeComputationFunction options (interfaceOperation tilableOp) b in
  let zeroAttr := getI64IntegerAttr 0 in
  (* The actual tile sizes used converts Value defined as constant 0, to a
     zero integer attributes. Currently if the iterator type is not
     "parallel", the tile size is forced to zero as well. *)
  let tileSizes :=
    resize (getOpFoldResults tileSizesVals) (length iteratorTypes)
      (OfrAttribute zeroAttr) in
  match verifyNonParallelUntiled (opId (getOperation op)) tileSizes 0
          iteratorTypes with
  | Failure d => (Failure d, b1)
  | Violation w => (Violation w, b1)
  | OutOfFuel => (OutOfFuel, b1)
  | Success _ =>
  (* Trivial early exit case of tile sizes being zero for all parallel
     loops. *)
  if forallb isUntiledLoop tileSizes
  then (Success (TiledOp.make (Some (getOperation op)) [] []), b1)
  else
  let (loopBounds, b2) := getLoopBounds tilableOp b1 in
  (* If the tiled loops are distributed, get the proc_id and nprocs for the
     distributed loops. *)
  let distributionResult :=
    match distribution options with
    | Some d =>
        match collectDistributedLoopRange tileSizes iteratorTypes loopBounds
                (seq 0 (length tileSizes)) [] with
        | Success distributedLoopRange =>
            let (info, b3) := procInfo d distributedLoopRange b2 in
            (Success info, b3)
        | Failure e => (Failure e, b2)
        | Violation w => (Violation w, b2)
        | OutOfFuel => (OutOfFuel, b2)
        end
    | None => (Success [], b2)
    end in
  match distributionResult with
  | (Failure e, b3) => (Failure e, b3)
  | (Violation w, b3) => (Violation w, b3)
  | (OutOfFuel, b3) => (OutOfFuel, b3)
  | (Success distributionInfo, b3) =>
  let (result, st) :=
    tileLinalgExtOpImpl (length tileSizes) tilableOp (outputs op)
      iteratorTypes loopBounds 0 distributionInfo
      (mkState b3 tileSizes []) in
  (result, stBuilder st)
  end
  end
  end.

(** ** Patterns for tiling LinalgExtOps *)

(** [linalg::LinalgTransformationFilter], as far as the patterns use it:
    [checkAndNotify] decides from the operation's marker whether the
    pattern applies, giving the reason when it does not. *)
Record LinalgTransformationFilter : Type := {
  filterMismatch : Operation -> option string
}.

Definition checkAndNotify (filter : LinalgTransformationFilter)
  (rewriter : PatternRewriter) (op : Operation)
  : LogicalResult * PatternRewriter :=
  match filterMismatch filter op with
  | Some reason => notifyMatchFailure rewriter op reason
  | None => (success, rewriter)
  end.

Definition replaceLinalgTransformationFilter
  (filter : LinalgTransformationFilter) (rewriter : PatternRewriter)
  (op : Operation) : PatternRewriter :=
  mkRewriter (builder rewriter) (actions rewriter ++ [ReplaceFilter (opId op)]).

Definition eraseOp (rewriter : PatternRewriter) (op : Operation)
  : PatternRewriter :=
  mkRewriter (builder rewriter) (actions rewriter ++ [EraseOp (opId op)]).

Definition replaceOp (rewriter : PatternRewriter) (op : Operation)
  (newValues : list Value) : PatternRewriter :=
  mkRewriter (builder rewriter)
    (actions rewriter ++ [ReplaceOp (opId op) newValues]).

(** Base pattern for tiling LinalgExtOps.  [dyn_cast_LinalgExtOp] is the
    interface lookup of [dyn_cast<LinalgExtOp>]. *)
Module LinalgExtBaseTilingPattern.
Record t : Type := make {
  dyn_cast_LinalgExtOp : Operation -> option LinalgExtOp;
  filter : LinalgTransformationFilter;
  options : LinalgTilingOptions
}.
End LinalgExtBaseTilingPattern.

(** [matchAndRewriteBase(op, rewriter, result)]: returns the result with
    the updated [result] and rewriter.  A failure keeps the diagnostic that
    was reported on the way to it. *)
Definition matchAndRewriteBase (pattern : LinalgExtBaseTilingPattern.t)
  (op : Operation) (rewriter : PatternRewriter) (result : TiledOp.t)
  : LogicalResult * TiledOp.t * PatternRewriter :=
  match LinalgExtBaseTilingPattern.dyn_cast_LinalgExtOp pattern op with
  | None => (Failure Silent, result, rewriter)
  | Some linalgExtOp =>
  let filter := LinalgExtBaseTilingPattern.filter pattern in
  let options := LinalgExtBaseTilingPattern.options pattern in
  match checkAndNotify filter rewriter op with
  | (Success _, rewriter) =>
      match verifySupportedTilingOptions rewriter op options with
      | (Success _, rewriter) =>
          let (res, b) :=
            tileLinalgExtOp linalgExtOp options (builder rewriter) in
          let rewriter := mkRewriter b (actions rewriter) in
          match res with
          | Success res =>
              let result := res in
              match TiledOp.op result with
              | Some tiled =>
                  (success, result,
                   replaceLinalgTransformationFilter filter rewriter tiled)
              | None => (success, result, rewriter)
              end
          | Failure d => (Failure d, result, rewriter)
          | Violation w => (Violation w, result, rewriter)
          | OutOfFuel => (OutOfFuel, result, rewriter)
          end
      | (Failure d, rewriter) => (Failure d, result, rewriter)
      | (Violation w, rewriter) => (Violation w, result, rewriter)
      | (OutOfFuel, rewriter) => (OutOfFuel, result, rewriter)
      end
  | (Failure d, rewriter) => (Failure d, result, rewriter)
  | (Violation w, rewriter) => (Violation w, result, rewriter)
  | (OutOfFuel, rewriter) => (OutOfFuel, result, rewriter)
  end
  end.

(** [LinalgExtTilingPattern<OpTy>::matchAndRewrite] *)
Definition matchAndRewrite (pattern : LinalgExtBaseTilingPattern.t)
  (op : Operation) (rewriter : PatternRewriter)
  : LogicalResult * PatternRewriter :=
  let '(status, tiledOp, rewriter) :=
    matchAndRewriteBase pattern op rewriter TiledOp.empty in
  match status with
  (* Check for failure. *)
  | Failure d => (Failure d, rewriter)
  | Violation w => (Violation w, rewriter)
  | OutOfFuel => (OutOfFuel, rewriter)
  | Success _ =>
      (* Check for do-nothing case. *)
      match TiledOp.op tiledOp with
      | None => (Failure Silent, rewriter)
      | Some tiled =>
          if negb (opId tiled =? opId op)%nat
          then
            match TiledOp.results tiledOp with
            | [] => (success, eraseOp rewriter op)
            | _ => (success, replaceOp rewriter op (TiledOp.results tiledOp))
            end
          else (success, rewriter)
      end
  end.

(** ** Test pass for tiling Linalg Ext ops *)

(** [buildFlowWorkgroupInfoOp<OpTy>(b, dim)]: builds the operation [OpTy],
    the workgroup id or the workgroup count, for dimension [dim]. *)
Definition buildFlowWorkgroupInfoOp (OpTy : nat -> nat -> Operation)
  (dim : nat) (b : OpBuilder) : Value * OpBuilder :=
  let (op, b') := create (fun id => OpTy id dim) b in
  (OpResult op 0, b').

(** ** Sample operations and options

    Concrete inputs on which the definitions are run: an operation over
    three loops with constant bounds, and the options of the test pass. *)
Module Sample.

Definition constIndex (id : nat) (v : Z) : Value :=
  OpResult (ConstantIndexOp id v) 0.

(** [LinalgTilingOptions().setTileSizes(ts)]: one constant per size. *)
Fixpoint materializeSizes (ts : list Z) (b : OpBuilder)
  : list Value * OpBuilder :=
  match ts with
  | [] => ([], b)
  | t :: rest =>
      let (c, b1) := create (fun id => ConstantIndexOp id t) b in
      let (cs, b2) := materializeSizes rest b1 in
      (OpResult c 0 :: cs, b2)
  end.

Definition setTileSizes (ts : list Z) : LinalgTilingOptions :=
  {| tileSizeComputationFunction := fun _ b => materializeSizes ts b;
     interchangeVector := [];
     paddingValueComputationFunction := None;
     loopType := Loops;
     distribution := None |}.

(** The distribution of the test pass (lines 393-406): for [dim] from 0
    up, the workgroup id and count of dimension [dim] are built and go to
    the entry [numParallelDims - dim - 1].  [workgroupInfo dim n] runs the
    [n] iterations from [dim] on. *)
Fixpoint workgroupInfo (dim : nat) (n : nat) (b : OpBuilder)
  : list ProcInfo * OpBuilder :=
  match n with
  | O => ([], b)
  | S n' =>
      let (id, b1) :=
        buildFlowWorkgroupInfoOp DispatchWorkgroupIDOp dim b in
      let (count, b2) :=
        buildFlowWorkgroupInfoOp DispatchWorkgroupCountOp dim b1 in
      let (rest, b3) := workgroupInfo (S dim) n' b2 in
      (rest ++ [mkProcInfo id count], b3)
  end.

Definition workgroupDistributionOptions : LinalgLoopDistributionOptions :=
  {| procInfo := fun ranges b => workgroupInfo 0 (length ranges) b;
     distributionMethod := [Cyclic; Cyclic; Cyclic] |}.

Definition setDistributionOptions (o : LinalgTilingOptions)
  (d : LinalgLoopDistributionOptions) : LinalgTilingOptions :=
  {| tileSizeComputationFunction := tileSizeComputationFunction o;
     interchangeVector := interchangeVector o;
     paddingValueComputationFunction := paddingValueComputationFunction o;
     loopType := loopType o;
     distribution := Some d |}.

Definition setInterchange (o : LinalgTilingOptions) (v : list nat)
  : LinalgTilingOptions :=
  {| tileSizeComputationFunction := tileSizeComputationFunction o;
     interchangeVector := v;
     paddingValueComputationFunction := paddingValueComputationFunction o;
     loopType := loopType o;
     distribution := distribution o |}.

(** Bounds [0, n) with the given stride, as constants. *)
Definition bound (n stride : Z) : Range.t :=
  Range.make (constIndex 1000 0) (constIndex 1001 n)
    (constIndex 1002 stride).

Definition memref2 : Value := BlockArgument 0 0 (MemRefType 2).
Definition tensor2 : Value := BlockArgument 0 1 (RankedTensorType 2).

(** An interface over the given iterator types and bounds whose tiled
    implementation is one operation on the outputs, with results of the
    given types written back at offset zero. *)
Definition interfaceOf (operation : Operation) (iterators : list string)
  (bounds : list Range.t) : TiledOpInterface :=
  {| interfaceOperation := operation;
     getLoopIteratorTypes := iterators;
     getLoopBounds := fun b => (bounds, b);
     getTiledImplementation := fun outs offs sizes b =>
       let (tiled, b1) :=
         create (fun id => OpaqueOp id "tiled" outs
                             (opResultTypes operation)) b in
       ((Some tiled,
         map (fun _ => [OfrAttribute (getI64IntegerAttr 0);
                        OfrAttribute (getI64IntegerAttr 0)])
           (opResultTypes operation)), b1) |}.

(** A buffer operation: no results, one memref output. *)
Definition bufferOperation : Operation :=
  OpaqueOp 1 "linalg_ext.sort" [memref2] [].

(** A tensor operation: one tensor result, one tensor output. *)
Definition tensorOperation : Operation :=
  OpaqueOp 2 "linalg_ext.scatter" [tensor2] [RankedTensorType 2].

Definition linalgExtOpOf (operation : Operation) (outs : list Value)
  (iterators : list string) (bounds : list Range.t) : LinalgExtOp :=
  {| getOperation := operation;
     outputs := outs;
     asTiledOpInterface := Some (interfaceOf operation iterators bounds) |}.

Definition notTileable (operation : Operation) : LinalgExtOp :=
  {| getOperation := operation;
     outputs := [];
     asTiledOpInterface := None |}.

Definition emptyBuilder : OpBuilder := mkBuilder 10 [].

(** Three loops, the middle one a reduction, bounds 100, 50 and 95. *)
Definition sort3 : LinalgExtOp :=
  linalgExtOpOf bufferOperation [memref2]
    ["parallel"; "reduction"; "parallel"]
    [bound 100 1; bound 50 1; bound 95 1].

(** Two parallel loops over a tensor, bounds 100 and 50, the second with
    stride 2. *)
Definition scatter2Strided : LinalgExtOp :=
  linalgExtOpOf tensorOperation [tensor2]
    ["parallel"; "parallel"]
    [bound 100 1; bound 50 2].

(** The options of the distributed pattern of the test pass. *)
Definition distributedOptions : LinalgTilingOptions :=
  setDistributionOptions (setTileSizes [10; 0; 30])
    workgroupDistributionOptions.

(** The result of a run, when it succeeded. *)
Definition resultOf (run : FailureOr TiledOp.t) : TiledOp.t :=
  match run with
  | Success r => r
  | _ => TiledOp.empty
  end.

(** The interface of [sort3]. *)
Definition sortInterface : TiledOpInterface :=
  interfaceOf bufferOperation
    ["parallel"; "reduction"; "parallel"]
    [bound 100 1; bound 50 1; bound 95 1].

(** Tile sizes 10, 0 and 30 on entry to the generator. *)
Definition sortState : TilingState :=
  mkState emptyBuilder
    [OfrAttribute (getI64IntegerAttr 10);
     OfrAttribute (getI64IntegerAttr 0);
     OfrAttribute (getI64IntegerAttr 30)] [].

(** The generator on [sort3] with these sizes, not distributed. *)
Definition sortRun : FailureOr TiledOp.t * TilingState :=
  tileLinalgExtOpImpl 3 sortInterface [memref2]
    ["parallel"; "reduction"; "parallel"]
    [bound 100 1; bound 50 1; bound 95 1] 0 []
    sortState.

(** The interface of [scatter2Strided]. *)
Definition scatterInterface : TiledOpInterface :=
  interfaceOf tensorOperation ["parallel"; "parallel"]
    [bound 100 1; bound 50 2].

(** Tile sizes 0 and 20 on entry to the generator. *)
Definition untiledFirstState : TilingState :=
  mkState emptyBuilder
    [OfrAttribute (getI64IntegerAttr 0);
     OfrAttribute (getI64IntegerAttr 20)] [].

(** The distributed pattern of the test pass on [sort3]. *)
Definition distributedRun : FailureOr TiledOp.t * OpBuilder :=
  tileLinalgExtOp sort3 distributedOptions emptyBuilder.

(** Its result. *)
Definition distributedResult : TiledOp.t := resultOf (fst distributedRun).
End Sample.

(** ** Vocabulary of the statements *)

(** The tile sizes [tileLinalgExtOp] works with (lines 224-232): what the
    size computation returned, constants folded to attributes, padded with
    zeros or cut to one entry per loop. *)
Definition actualTileSizes (tilableOp : TiledOpInterface)
  (options : LinalgTilingOptions) (b : OpBuilder) : list OpFoldResult :=
  resize
    (getOpFoldResults
       (fst (tileSizeComputationFunction options
               (interfaceOperation tilableOp) b)))
    (length (getLoopIteratorTypes tilableOp))
    (OfrAttribute (getI64IntegerAttr 0)).

(** The builder once the tile sizes have been computed. *)
Definition builderAfterTileSizes (tilableOp : TiledOpInterface)
  (options : LinalgTilingOptions) (b : OpBuilder) : OpBuilder :=
  snd (tileSizeComputationFunction options (interfaceOperation tilableOp) b).

(** The loop bounds [tileLinalgExtOp] fetches (line 246). *)
Definition fetchedLoopBounds (tilableOp : TiledOpInterface)
  (options : LinalgTilingOptions) (b : OpBuilder) : list Range.t :=
  fst (getLoopBounds tilableOp (builderAfterTileSizes tilableOp options b)).

(** The dimensions [d, d+1, ...] of the tile sizes [ts] that are tiled (not
    statically zero), in increasing order. *)
Fixpoint tiledDimsFrom (d : nat) (ts : list OpFoldResult) : list nat :=
  match ts with
  | [] => []
  | t :: rest =>
      if isUntiledLoop t then tiledDimsFrom (S d) rest
      else d :: tiledDimsFrom (S d) rest
  end.

Definition tiledDims (ts : list OpFoldResult) : list nat := tiledDimsFrom 0 ts.

(** Whether dimension [d] has an iterator type, and it is "parallel". *)
Definition isParallel (iteratorTypes : list string) (d : nat) : bool :=
  match iteratorTypes !! d with
  | Some iteratorType => String.eqb iteratorType getParallelIteratorTypeName
  | None => false
  end.

(** The dimensions that are both parallel and tiled, in increasing order. *)
Definition distributedDims (iteratorTypes : list string)
  (ts : list OpFoldResult) : list nat :=
  List.filter (isParallel iteratorTypes) (tiledDims ts).

(** Whether the tile size of dimension [i] is there and not statically
    zero. *)
Definition isTiledAt (ts : list OpFoldResult) (i : nat) : bool :=
  match ts !! i with
  | Some t => negb (isUntiledLoop t)
  | None => false
  end.

(** The options [verifySupportedTilingOptions] is documented to reject. *)
Definition hasInterchange (options : LinalgTilingOptions) : Prop :=
  interchangeVector options <> [].
Definition hasPadding (options : LinalgTilingOptions) : Prop :=
  paddingValueComputationFunction options <> None.
Definition notExplicitLoops (options : LinalgTilingOptions) : Prop :=
  loopType options <> Loops.
Definition hasNonCyclicDistribution (options : LinalgTilingOptions) : Prop :=
  exists d method,
    distribution options = Some d /\
    In method (distributionMethod d) /\ method <> Cyclic.

Definition unsupportedOptions (options : LinalgTilingOptions) : Prop :=
  hasInterchange options \/ hasPadding options \/
  notExplicitLoops options \/ hasNonCyclicDistribution options.

(** The upper bound of a loop. *)
Definition forUpperBound (op : Operation) : option Value :=
  match op with ForOp _ _ ub _ _ _ _ => Some ub | _ => None end.

(** [materializes t v]: [v] is what [getValue] gives for the tile size [t],
    the value itself or a constant index holding the attribute's integer. *)
Definition materializes (t : OpFoldResult) (v : Value) : Prop :=
  match t with
  | OfrAttribute attr =>
      exists id, v = OpResult (ConstantIndexOp id (IntegerAttr.getInt attr)) 0
  | OfrValue v' => v = v'
  end.

(** The bounds of the loop generated for [bound] with step value
    [stepValue]: the bound's own when the loop is not distributed, and the
    cyclic partition for the entry [p] when it is. *)
Definition loopBoundsAre (lb ub step : Value) (bound : Range.t)
  (stepValue : Value) (distributed : option ProcInfo) : Prop :=
  match distributed with
  | None =>
      lb = Range.offset bound /\ ub = Range.size bound /\ step = stepValue
  | Some p =>
      exists i j,
        lb = OpResult (AffineApplyOp i distributedLowerBoundMap
                         [Range.offset bound; procId p; stepValue]) 0 /\
        ub = Range.size bound /\
        step = OpResult (AffineApplyOp j distributedStepMap
                           [nprocs p; stepValue]) 0
  end.

(** The value of the clamped tile size of a loop: an [affine.min] of
    [inBoundsTileSizeMap] on the induction variable, the materialised
    declared size and the upper bound. *)
Definition inBoundsTileSizeOf (minId forId : nat) (tileSizeValue ub : Value)
  : OpFoldResult :=
  OfrValue
    (OpResult
       (AffineMinOp minId inBoundsTileSizeMap
          [BlockArgument forId 0 IndexType; tileSizeValue; ub]) 0).

(** [LoopNest iteratorTypes loopBounds d declared info loops sizes offs]:
    what a successful run of the generator from depth [d] leaves, read off
    dimension by dimension.  [declared] are the tile sizes of the
    dimensions [d, d+1, ...] on entry and [info] the distribution entries
    not yet used; [loops] are the loops returned, [sizes] and [offs] the
    tile sizes and offsets of those dimensions on exit. *)
Inductive LoopNest (iteratorTypes : list string) (loopBounds : list Range.t)
  : nat -> list OpFoldResult -> list ProcInfo ->
    list Operation -> list OpFoldResult -> list OpFoldResult -> Prop :=
| nest_innermost d info :
    LoopNest iteratorTypes loopBounds d [] info [] [] []
| nest_untiled d t declared info loops sizes offs bound :
    isUntiledLoop t = true ->
    loopBounds !! d = Some bound ->
    m_Zero (Range.offset bound) = true ->
    LoopNest iteratorTypes loopBounds (S d) declared info loops sizes offs ->
    LoopNest iteratorTypes loopBounds d (t :: declared) info loops
      (getOpFoldResult (Range.size bound) :: sizes)
      (OfrAttribute (getI64IntegerAttr 0) :: offs)
| nest_tiled d t declared info loops sizes offs bound distributed
    stepValue tileSizeValue forId lb ub step inits tys body minId :
    isUntiledLoop t = false ->
    loopBounds !! d = Some bound ->
    m_One (Range.stride bound) = true ->
    distributedWith info iteratorTypes d = Some distributed ->
    materializes t stepValue ->
    materializes t tileSizeValue ->
    loopBoundsAre lb ub step bound stepValue distributed ->
    LoopNest iteratorTypes loopBounds (S d) declared
      (match distributed with Some _ => tail info | None => info end)
      loops sizes offs ->
    (forall inner rest, loops = inner :: rest -> In inner body) ->
    LoopNest iteratorTypes loopBounds d (t :: declared) info
      (ForOp forId lb ub step inits tys body :: loops)
      (inBoundsTileSizeOf minId forId tileSizeValue ub :: sizes)
      (OfrValue (BlockArgument forId 0 IndexType) :: offs).

(** The number a value stands for at run time, given the numbers [rho] of
    the values this file does not compute: a constant is its integer, an
    [affine.apply] the result of its map and an [affine.min] the least
    result of its map, on the numbers of the operands. *)
Fixpoint evalValue (rho : Value -> Z) (v : Value) {struct v} : Z :=
  match v with
  | OpResult (ConstantOp _ a) _ => IntegerAttr.getInt a
  | OpResult (AffineApplyOp _ m vs) _ =>
      match evalAffineMap m (map (evalValue rho) vs) with
      | [z] => z
      | _ => rho v
      end
  | OpResult (AffineMinOp _ m vs) _ =>
      match evalAffineMin m (map (evalValue rho) vs) with
      | Some z => z
      | None => rho v
      end
  | _ => rho v
  end.

Definition evalOpFoldResult (rho : Value -> Z) (x : OpFoldResult) : Z :=
  match x with
  | OfrAttribute a => IntegerAttr.getInt a
  | OfrValue v => evalValue rho v
  end.

(** The induction variable values of [scf.for lb to ub step s]: [lb],
    [lb + s], ... below [ub]. *)
Definition tripCount (lb ub step : Z) : nat :=
  if (0 <? step) && (lb <? ub)
  then Z.to_nat ((ub - lb + step - 1) / step)
  else 0%nat.

Definition forIterations (lb ub step : Z) : list Z :=
  map (fun k => lb + Z.of_nat k * step) (seq 0 (tripCount lb ub step)).

(** ** Loop-carried values *)

(** The initial values of the loop-carried values of a loop. *)
Definition forInitArgs (op : Operation) : list Value :=
  match op with ForOp _ _ _ _ inits _ _ => inits | _ => [] end.

(** [Threaded isBufferTiling outs loops leafOuts leafResults results]: how
    the generator threads the destination values through the loops it
    returns.  [outs] are the outputs on entry, [leafOuts] the outputs the
    innermost level gets and [leafResults] the results it returns;
    [results] are the results returned on exit. *)
Inductive Threaded (isBufferTiling : bool)
  : list Value -> list Operation -> list Value -> list Value ->
    list Value -> Prop :=
| threaded_innermost outs results :
    Threaded isBufferTiling outs [] outs results results
| threaded_loop outs forId lb ub step pre yieldId loops leafOuts
    leafResults innerResults :
    Threaded isBufferTiling
      (if isBufferTiling then outs
       else getRegionIterArgs forId (if isBufferTiling then [] else outs))
      loops leafOuts leafResults innerResults ->
    Threaded isBufferTiling outs
      (ForOp forId lb ub step (if isBufferTiling then [] else outs)
         (map getType (if isBufferTiling then [] else outs))
         (pre ++ [YieldOp yieldId innerResults])
       :: loops)
      leafOuts leafResults
      (getResults
         (ForOp forId lb ub step (if isBufferTiling then [] else outs)
            (map getType (if isBufferTiling then [] else outs))
            (pre ++ [YieldOp yieldId innerResults]))).

(** ** Further sample operations *)
Module Scenario.

(** Two parallel loops over a tensor, bounds 100 and 50, unit strides. *)
Definition scatter2 : LinalgExtOp :=
  Sample.linalgExtOpOf Sample.tensorOperation [Sample.tensor2]
    ["parallel"; "parallel"]
    [Sample.bound 100 1; Sample.bound 50 1].

(** The interface of [scatter2]. *)
Definition scatter2Interface : TiledOpInterface :=
  Sample.interfaceOf Sample.tensorOperation ["parallel"; "parallel"]
    [Sample.bound 100 1; Sample.bound 50 1].

(** Tile sizes 10 and 20 on entry to the generator. *)
Definition scatter2State : TilingState :=
  mkState Sample.emptyBuilder
    [OfrAttribute (getI64IntegerAttr 10);
     OfrAttribute (getI64IntegerAttr 20)] [].

(** The generator on [scatter2] with these sizes, not distributed. *)
Definition scatter2Impl : FailureOr TiledOp.t * TilingState :=
  tileLinalgExtOpImpl 2 scatter2Interface [Sample.tensor2]
    ["parallel"; "parallel"]
    [Sample.bound 100 1; Sample.bound 50 1] 0 [] scatter2State.

(** The innermost step on [scatter2], on the whole operation. *)
Definition scatter2Leaf : FailureOr TiledOp.t * TilingState :=
  tileInnermost scatter2Interface [Sample.tensor2]
    (mkState Sample.emptyBuilder
       [OfrAttribute (getI64IntegerAttr 10);
        OfrAttribute (getI64IntegerAttr 20)]
       [OfrAttribute (getI64IntegerAttr 0);
        OfrAttribute (getI64IntegerAttr 0)]).

(** The first pattern of the test pass on [scatter2]. *)
Definition scatter2Run : FailureOr TiledOp.t * OpBuilder :=
  tileLinalgExtOp scatter2 (Sample.setTileSizes [10; 20]) Sample.emptyBuilder.

(** An interface, over one parallel loop, that has no tiled
    implementation to give. *)
Definition noImplementation : TiledOpInterface :=
  {| interfaceOperation := Sample.bufferOperation;
     getLoopIteratorTypes := ["parallel"];
     getLoopBounds := fun b => ([Sample.bound 100 1], b);
     getTiledImplementation := fun _ _ _ b => ((None, []), b) |}.

(** An operation with that interface. *)
Definition unimplemented : LinalgExtOp :=
  {| getOperation := Sample.bufferOperation;
     outputs := [Sample.memref2];
     asTiledOpInterface := Some noImplementation |}.

(** Options whose size computation returns values that are already
    there, and builds nothing. *)
Definition fixedSizes (sizes : list Value) : LinalgTilingOptions :=
  {| tileSizeComputationFunction := fun _ b => (sizes, b);
     interchangeVector := [];
     paddingValueComputationFunction := None;
     loopType := Loops;
     distribution := None |}.

(** A filter that lets every operation through. *)
Definition acceptAll : LinalgTransformationFilter :=
  {| filterMismatch := fun _ => None |}.

(** The pattern with these options that matches the operation of
    [linalgExtOp] and no other. *)
Definition patternFor (linalgExtOp : LinalgExtOp)
  (options : LinalgTilingOptions) : LinalgExtBaseTilingPattern.t :=
  LinalgExtBaseTilingPattern.make
    (fun op =>
       if (opId op =? opId (getOperation linalgExtOp))%nat
       then Some linalgExtOp else None)
    acceptAll options.

(** A rewriter that has requested nothing yet. *)
Definition emptyRewriter : PatternRewriter :=
  mkRewriter Sample.emptyBuilder [].

End Scenario.

(** * Properties *)

(** ** Integers of attributes *)

(** A single word reads as the signed number its bits denote, which fits
    in an [int64_t]. *)
Lemma getSExtValue_signedValue (a : APInt.t) :
  APInt.getSExtValue a = APInt.signedValue a.
Proof. reflexivity. Qed.

Lemma getSExtValue_range (a : APInt.t) :
  - 2 ^ 63 <= APInt.getSExtValue a < 2 ^ 63.
Proof.
  unfold APInt.getSExtValue, APInt.SignExtend64.
  pose proof (APInt.isSingleWord a) as Hword.
  apply N.leb_le in Hword.
  set (w := Z.of_N (APInt.BitWidth a)).
  assert (Hw : 0 <= w <= 64) by (subst w; lia).
  destruct (Z.eqb_spec w 0) as [|Hne]; [lia|].
  assert (Hpow : 2 ^ w = 2 * 2 ^ (w - 1)).
  { replace w with (Z.succ (w - 1)) at 1 by lia. apply Z.pow_succ_r. lia. }
  assert (Hle : 2 ^ (w - 1) <= 2 ^ 63) by (apply Z.pow_le_mono_r; lia).
  assert (Hpos : 0 < 2 ^ (w - 1)) by (apply Z.pow_pos_nonneg; lia).
  pose proof (Z.mod_pos_bound (APInt.U a) (2 ^ w) ltac:(lia)) as Hu.
  destruct (Z.ltb_spec (APInt.U a mod 2 ^ w) (2 ^ (w - 1))); lia.
Qed.

Lemma signedValue_ofInt64 (z : Z) :
  - 2 ^ 63 <= z < 2 ^ 63 -> APInt.signedValue (APInt.ofInt64 z) = z.
Proof.
  intros Hz. unfold APInt.signedValue, APInt.ofInt64.
  cbn [APInt.BitWidth APInt.U].
  change (Z.of_N 64) with 64. change (64 =? 0) with false. cbv iota.
  rewrite Z.mod_mod by lia.
  change (64 - 1) with 63.
  assert (H64 : 2 ^ 64 = 2 * 2 ^ 63) by reflexivity.
  destruct (Z_lt_le_dec z 0) as [Hneg|Hnn].
  - assert (Hm : z mod 2 ^ 64 = z + 2 ^ 64).
    { symmetry. apply Z.mod_unique with (q := -1); lia. }
    rewrite Hm. destruct (Z.ltb_spec (z + 2 ^ 64) (2 ^ 63)); lia.
  - rewrite Z.mod_small by lia.
    destruct (Z.ltb_spec z (2 ^ 63)); lia.
Qed.

(** ** The options check *)

Lemma existsb_nonCyclic (methods : list DistributionMethod) :
  existsb (fun method => negb (isCyclic method)) methods = true <->
  exists method, In method methods /\ method <> Cyclic.
Proof.
  rewrite existsb_exists. split; intros [m [Hin Hm]]; exists m; split; auto.
  - intros ->. discriminate.
  - destruct m; [congruence | reflexivity | reflexivity].
Qed.

Lemma verifySupportedTilingOptions_cases (rewriter : PatternRewriter)
  (op : Operation) (options : LinalgTilingOptions) :
  (hasInterchange options /\
   verifySupportedTilingOptions rewriter op options =
     (Failure (MatchFailure "unsupported interchange during tiling"),
      rewriter)) \/
  (~ hasInterchange options /\ hasPadding options /\
   verifySupportedTilingOptions rewriter op options =
     (Failure (MatchFailure "unsupported tile + pad option"), rewriter)) \/
  (~ hasInterchange options /\ ~ hasPadding options /\
   notExplicitLoops options /\
   verifySupportedTilingOptions rewriter op options =
     (Failure (MatchFailure "only tiling with scf.for is supported"),
      rewriter)) \/
  (~ hasInterchange options /\ ~ hasPadding options /\
   ~ notExplicitLoops options /\ hasNonCyclicDistribution options /\
   verifySupportedTilingOptions rewriter op options =
     (Failure (MatchFailure "only cyclic distibution is allowed"),
      rewriter)) \/
  (~ unsupportedOptions options /\
   verifySupportedTilingOptions rewriter op options = (success, rewriter)).
Proof.
  unfold verifySupportedTilingOptions, unsupportedOptions, hasInterchange,
    hasPadding, notExplicitLoops, hasNonCyclicDistribution, notifyMatchFailure.
  destruct (interchangeVector options) as [|i rest] eqn:Hi; cbn [negb].
  2: { left. split; [discriminate | reflexivity]. }
  right.
  destruct (paddingValueComputationFunction options) as [f|] eqn:Hp.
  { left. repeat split; try congruence; auto. }
  right.
  destruct (loopType options) eqn:Hl; cbn [isLoops negb].
  2-4: left; repeat split; try congruence; auto.
  right.
  destruct (distribution options) as [d|] eqn:Hd.
  - destruct (existsb _ (distributionMethod d)) eqn:He.
    + left. apply existsb_nonCyclic in He. destruct He as [m [Hin Hm]].
      repeat split; try congruence; auto. exists d, m. auto.
    + right. split; [|reflexivity].
      intros [H|[H|[H|[d' [m [Hd' [Hin Hm]]]]]]]; try congruence.
      injection Hd' as <-.
      assert (Ht : existsb (fun method => negb (isCyclic method))
                     (distributionMethod d) = true)
        by (apply existsb_nonCyclic; eauto).
      congruence.
  - right. split; [|reflexivity].
    intros [H|[H|[H|[d' [m [Hd' _]]]]]]; congruence.
Qed.

(** C6: [verifySupportedTilingOptions] fails exactly when the options hold
    an interchange, a padding function, a loop type other than explicit
    loops, or a distribution with a method that is not cyclic.  The failure
    is a match failure that names the first of these rules that is broken,
    the check succeeds otherwise, and in every case the rewriter, hence the
    IR, is as before; [matchAndRewriteBase] then fails with its result and
    rewriter untouched. *)
Theorem verifySupportedTilingOptions_exact (rewriter : PatternRewriter)
  (op : Operation) (options : LinalgTilingOptions) :
  let outcome := fst (verifySupportedTilingOptions rewriter op options) in
  snd (verifySupportedTilingOptions rewriter op options) = rewriter /\
  (failed outcome = true <-> unsupportedOptions options) /\
  (outcome = success <-> ~ unsupportedOptions options) /\
  (outcome = Failure (MatchFailure "unsupported interchange during tiling")
   <-> hasInterchange options) /\
  (outcome = Failure (MatchFailure "unsupported tile + pad option")
   <-> ~ hasInterchange options /\ hasPadding options) /\
  (outcome = Failure (MatchFailure "only tiling with scf.for is supported")
   <-> ~ hasInterchange options /\ ~ hasPadding options /\
       notExplicitLoops options) /\
  (outcome = Failure (MatchFailure "only cyclic distibution is allowed")
   <-> ~ hasInterchange options /\ ~ hasPadding options /\
       ~ notExplicitLoops options /\ hasNonCyclicDistribution options) /\
  (forall pattern result,
      LinalgExtBaseTilingPattern.options pattern = options ->
      unsupportedOptions options ->
      exists d,
        matchAndRewriteBase pattern op rewriter result =
          (Failure d, result, rewriter)).
Proof.
  cbv zeta.
  pose proof (verifySupportedTilingOptions_cases rewriter op options) as Hc.
  assert (Hsnd : snd (verifySupportedTilingOptions rewriter op options)
                 = rewriter).
  { destruct Hc
      as [[_ E]|[[_ [_ E]]|[[_ [_ [_ E]]]|[[_ [_ [_ [_ E]]]]|[_ E]]]]];
      rewrite E; reflexivity. }
  assert (Hfail :
    failed (fst (verifySupportedTilingOptions rewriter op options)) = true
    <-> unsupportedOptions options).
  { destruct Hc as [[H E]|[[Hn [H E]]|[[Hn1 [Hn2 [H E]]]
                   |[[Hn1 [Hn2 [Hn3 [H E]]]]|[H E]]]]];
      rewrite E; cbn [fst failed]; unfold unsupportedOptions in *;
      (split; [intros Heq; try discriminate Heq; tauto
              | intros Hh; try reflexivity; exfalso; tauto]). }
  assert (Hlast : forall pattern result,
      LinalgExtBaseTilingPattern.options pattern = options ->
      unsupportedOptions options ->
      exists d,
        matchAndRewriteBase pattern op rewriter result =
          (Failure d, result, rewriter)).
  { intros pattern result Hopt Hu.
    unfold matchAndRewriteBase.
    destruct (LinalgExtBaseTilingPattern.dyn_cast_LinalgExtOp pattern op);
      [|eexists; reflexivity].
    unfold checkAndNotify, notifyMatchFailure.
    destruct (filterMismatch _ op); [eexists; reflexivity|].
    rewrite Hopt.
    destruct (verifySupportedTilingOptions rewriter op options)
      as [r rw] eqn:E.
    cbn in Hsnd, Hfail. subst rw.
    apply Hfail in Hu. destruct r; try discriminate Hu.
    eexists; reflexivity. }
  split; [exact Hsnd|]. split; [exact Hfail|].
  repeat match goal with |- _ /\ _ => split end; try exact Hlast.
  all: destruct Hc as [[H E]|[[Hn [H E]]|[[Hn1 [Hn2 [H E]]]
                      |[[Hn1 [Hn2 [Hn3 [H E]]]]|[H E]]]]];
    rewrite E; cbn [fst]; unfold unsupportedOptions, success in *;
    (split; [intros Heq; try discriminate Heq; tauto
            | intros Hh; try reflexivity; exfalso; tauto]).
Qed.

Lemma verifySupportedTilingOptions_exact_witness :
  verifySupportedTilingOptions (mkRewriter Sample.emptyBuilder [])
    Sample.bufferOperation
    (Sample.setInterchange (Sample.setTileSizes [10; 20]) [1; 0]%nat) =
  (Failure (MatchFailure "unsupported interchange during tiling"),
   mkRewriter Sample.emptyBuilder []).
Proof.
  destruct (verifySupportedTilingOptions_exact
              (mkRewriter Sample.emptyBuilder []) Sample.bufferOperation
              (Sample.setInterchange (Sample.setTileSizes [10; 20])
                 [1; 0]%nat))
    as (Hsnd & _ & _ & Hinterchange & _).
  etransitivity; [apply surjective_pairing|].
  apply (f_equal2 pair); [|exact Hsnd].
  apply Hinterchange. discriminate.
Defined.

(** ** The conversion helpers *)



(** ** The entry point: early exits *)

Lemma length_resize {A : Type} (l : list A) (n : nat) (x : A) :
  length (resize l n x) = n.
Proof.
  unfold resize. rewrite length_app, length_take, length_replicate. lia.
Qed.

Lemma length_actualTileSizes (tilableOp : TiledOpInterface)
  (options : LinalgTilingOptions) (b : OpBuilder) :
  length (actualTileSizes tilableOp options b) =
  length (getLoopIteratorTypes tilableOp).
Proof. apply length_resize. Qed.

(** [tileLinalgExtOp] on an operation that implements the interface, up to
    the early exits, in the vocabulary of the statements. *)
Lemma tileLinalgExtOp_tileable (op : LinalgExtOp)
  (options : LinalgTilingOptions) (b : OpBuilder)
  (tilableOp : TiledOpInterface) :
  asTiledOpInterface op = Some tilableOp ->
  let ts := actualTileSizes tilableOp options b in
  let b1 := builderAfterTileSizes tilableOp options b in
  tileLinalgExtOp op options b =
  match verifyNonParallelUntiled (opId (getOperation op)) ts 0
          (getLoopIteratorTypes tilableOp) with
  | Failure d => (Failure d, b1)
  | Violation w => (Violation w, b1)
  | OutOfFuel => (OutOfFuel, b1)
  | Success _ =>
      if forallb isUntiledLoop ts
      then (Success (TiledOp.make (Some (getOperation op)) [] []), b1)
      else
        let (loopBounds, b2) := getLoopBounds tilableOp b1 in
        let distributionResult :=
          match distribution options with
          | Some d =>
              match collectDistributedLoopRange ts
                      (getLoopIteratorTypes tilableOp) loopBounds
                      (seq 0 (length ts)) [] with
              | Success distributedLoopRange =>
                  let (info, b3) := procInfo d distributedLoopRange b2 in
                  (Success info, b3)
              | Failure e => (Failure e, b2)
              | Violation w => (Violation w, b2)
              | OutOfFuel => (OutOfFuel, b2)
              end
          | None => (Success [], b2)
          end in
        match distributionResult with
        | (Failure e, b3) => (Failure e, b3)
        | (Violation w, b3) => (Violation w, b3)
        | (OutOfFuel, b3) => (OutOfFuel, b3)
        | (Success distributionInfo, b3) =>
            let (result, st) :=
              tileLinalgExtOpImpl (length ts) tilableOp (outputs op)
                (getLoopIteratorTypes tilableOp) loopBounds 0
                distributionInfo (mkState b3 ts []) in
            (result, stBuilder st)
        end
  end.
Proof.
  intros Hi. unfold tileLinalgExtOp, actualTileSizes, builderAfterTileSizes.
  rewrite Hi.
  destruct (tileSizeComputationFunction options
              (interfaceOperation tilableOp) b) as [vals b1].
  reflexivity.
Qed.

Lemma verifyNonParallelUntiled_all_untiled (opNumber : nat)
  (ts : list OpFoldResult) (iteratorTypes : list string) (index : nat) :
  forallb isUntiledLoop ts = true ->
  (index + length iteratorTypes <= length ts)%nat ->
  verifyNonParallelUntiled opNumber ts index iteratorTypes = success.
Proof.
  intros Hall. revert index.
  induction iteratorTypes as [|it rest IH]; intros index Hlen; cbn in *.
  - reflexivity.
  - destruct (String.eqb it getParallelIteratorTypeName).
    + apply IH. lia.
    + destruct (ts !! index) as [t|] eqn:Ht.
      * rewrite forallb_forall in Hall.
        rewrite (Hall t); [apply IH; lia|].
        apply list_elem_of_In. eapply list_elem_of_lookup_2; eauto.
      * apply lookup_ge_None in Ht. lia.
Qed.

(** C4: when the operation is tileable and every tile size, after padding
    to the number of loops, is statically zero, [tileLinalgExtOp] succeeds
    with the original operation, no loops and no results, having built
    nothing beyond what the size computation built. *)
Theorem tileLinalgExtOp_all_zero (op : LinalgExtOp)
  (options : LinalgTilingOptions) (b : OpBuilder)
  (tilableOp : TiledOpInterface) :
  asTiledOpInterface op = Some tilableOp ->
  forallb isUntiledLoop (actualTileSizes tilableOp options b) = true ->
  tileLinalgExtOp op options b =
    (Success (TiledOp.make (Some (getOperation op)) [] []),
     builderAfterTileSizes tilableOp options b).
Proof.
  intros Hi Hall.
  rewrite (tileLinalgExtOp_tileable op options b tilableOp Hi). cbv zeta.
  rewrite verifyNonParallelUntiled_all_untiled.
  - unfold success. rewrite Hall. reflexivity.
  - exact Hall.
  - rewrite length_actualTileSizes. lia.
Qed.

Lemma tileLinalgExtOp_all_zero_witness :
  tileLinalgExtOp Sample.sort3 (Sample.setTileSizes [0; 0])
    Sample.emptyBuilder =
    (Success (TiledOp.make (Some Sample.bufferOperation) [] []),
     mkBuilder 12 [ConstantIndexOp 10 0; ConstantIndexOp 11 0]).
Proof.
  exact (tileLinalgExtOp_all_zero Sample.sort3 (Sample.setTileSizes [0; 0])
           Sample.emptyBuilder _ eq_refl eq_refl).
Defined.

Lemma verifyNonParallelUntiled_tiled (opNumber : nat)
  (ts : list OpFoldResult) (iteratorTypes : list string)
  (index i : nat) (iteratorType : string) (t : OpFoldResult) :
  (index + length iteratorTypes <= length ts)%nat ->
  iteratorTypes !! i = Some iteratorType ->
  iteratorType <> getParallelIteratorTypeName ->
  ts !! (index + i)%nat = Some t ->
  isUntiledLoop t = false ->
  verifyNonParallelUntiled opNumber ts index iteratorTypes =
    Failure (OpError opNumber
               "unimplemented tiling of non-parallel loop iterator type").
Proof.
  revert index i.
  induction iteratorTypes as [|it rest IH]; intros index i Hlen Hit Hne Ht Hu.
  - discriminate.
  - cbn [verifyNonParallelUntiled]. cbn [length] in Hlen.
    destruct i as [|i]; cbn in Hit.
    + injection Hit as ->.
      apply String.eqb_neq in Hne. rewrite Hne.
      rewrite Nat.add_0_r in Ht. rewrite Ht, Hu. reflexivity.
    + assert (Hrec : verifyNonParallelUntiled opNumber ts (S index) rest =
        Failure (OpError opNumber
                   "unimplemented tiling of non-parallel loop iterator type")).
      { apply (IH (S index) i); auto; try lia.
        rewrite <- Ht. f_equal. lia. }
      destruct (String.eqb it getParallelIteratorTypeName); [exact Hrec|].
      destruct (ts !! index) as [t0|] eqn:Ht0.
      * destruct (isUntiledLoop t0); [exact Hrec | reflexivity].
      * apply lookup_ge_None in Ht0. lia.
Qed.

(** C5: when the operation is tileable and some loop that is not parallel
    has a tile size that is not statically zero, [tileLinalgExtOp] fails
    with the error "unimplemented tiling of non-parallel loop iterator
    type" on the operation, whatever the loop bounds are, and the builder
    is as the size computation left it: no loop has been built. *)
Theorem tileLinalgExtOp_non_parallel (op : LinalgExtOp)
  (options : LinalgTilingOptions) (b : OpBuilder)
  (tilableOp : TiledOpInterface) (i : nat) (iteratorType : string)
  (t : OpFoldResult) :
  asTiledOpInterface op = Some tilableOp ->
  getLoopIteratorTypes tilableOp !! i = Some iteratorType ->
  iteratorType <> getParallelIteratorTypeName ->
  actualTileSizes tilableOp options b !! i = Some t ->
  isUntiledLoop t = false ->
  tileLinalgExtOp op options b =
    (Failure (OpError (opId (getOperation op))
                "unimplemented tiling of non-parallel loop iterator type"),
     builderAfterTileSizes tilableOp options b).
Proof.
  intros Hi Hit Hne Ht Hu.
  rewrite (tileLinalgExtOp_tileable op options b tilableOp Hi). cbv zeta.
  rewrite (verifyNonParallelUntiled_tiled _ _ _ 0 i iteratorType t); auto.
  rewrite length_actualTileSizes. lia.
Qed.

Lemma tileLinalgExtOp_non_parallel_witness :
  tileLinalgExtOp Sample.sort3 (Sample.setTileSizes [10; 20])
    Sample.emptyBuilder =
    (Failure (OpError 1
                "unimplemented tiling of non-parallel loop iterator type"),
     mkBuilder 12 [ConstantIndexOp 10 10; ConstantIndexOp 11 20]).
Proof.
  refine (tileLinalgExtOp_non_parallel Sample.sort3
            (Sample.setTileSizes [10; 20]) Sample.emptyBuilder _ 1
            "reduction" (OfrAttribute (IntegerAttr.get IndexType
                                         (APInt.ofInt64 20)))
            eq_refl eq_refl _ eq_refl eq_refl).
  discriminate.
Defined.

(** C9: on an operation that does not implement [TiledOpInterface],
    [tileLinalgExtOp] succeeds with the empty [TiledOp] (no operation, no
    loops, no results) and builds nothing; the pattern treats that as the
    do-nothing case: it does not apply, and requests no rewrite. *)
Theorem tileLinalgExtOp_not_tileable (op : LinalgExtOp)
  (options : LinalgTilingOptions) (b : OpBuilder) :
  asTiledOpInterface op = None ->
  tileLinalgExtOp op options b = (Success TiledOp.empty, b) /\
  TiledOp.op TiledOp.empty = None /\
  TiledOp.loops TiledOp.empty = [] /\
  TiledOp.results TiledOp.empty = [] /\
  forall pattern operation rewriter,
    LinalgExtBaseTilingPattern.dyn_cast_LinalgExtOp pattern operation
      = Some op ->
    LinalgExtBaseTilingPattern.options pattern = options ->
    builder rewriter = b ->
    filterMismatch (LinalgExtBaseTilingPattern.filter pattern) operation
      = None ->
    ~ unsupportedOptions options ->
    matchAndRewriteBase pattern operation rewriter TiledOp.empty =
      (success, TiledOp.empty, rewriter) /\
    matchAndRewrite pattern operation rewriter = (Failure Silent, rewriter).
Proof.
  intros Hn.
  assert (Ht : tileLinalgExtOp op options b = (Success TiledOp.empty, b))
    by (unfold tileLinalgExtOp; rewrite Hn; reflexivity).
  repeat match goal with |- _ /\ _ => split end; auto.
  intros pattern operation rewriter Hcast Hopt Hb Hfilter Hsupported.
  assert (Hbase :
    matchAndRewriteBase pattern operation rewriter TiledOp.empty =
      (success, TiledOp.empty, rewriter)).
  { unfold matchAndRewriteBase, checkAndNotify.
    rewrite Hcast, Hfilter, Hopt.
    destruct (verifySupportedTilingOptions_cases rewriter operation options)
      as [[Hu E]|[[_ [Hu E]]|[[_ [_ [Hu E]]]|[[_ [_ [_ [Hu E]]]]|[_ E]]]]];
      try (exfalso; unfold unsupportedOptions in *; tauto).
    rewrite E. unfold success. rewrite Hb, Ht. cbn.
    destruct rewriter; cbn in *; subst; reflexivity. }
  split; [exact Hbase|].
  unfold matchAndRewrite. rewrite Hbase. reflexivity.
Qed.

Lemma tileLinalgExtOp_not_tileable_witness :
  tileLinalgExtOp (Sample.notTileable Sample.bufferOperation)
    (Sample.setTileSizes [10; 20]) Sample.emptyBuilder =
  (Success TiledOp.empty, Sample.emptyBuilder).
Proof.
  exact (proj1 (tileLinalgExtOp_not_tileable
                  (Sample.notTileable Sample.bufferOperation)
                  (Sample.setTileSizes [10; 20]) Sample.emptyBuilder eq_refl)).
Defined.

(** ** The generator, step by step *)

Lemma tileInnermost_success (op : TiledOpInterface) (outs : list Value)
  (st : TilingState) (r : TiledOp.t) (st' : TilingState) :
  tileInnermost op outs st = (Success r, st') ->
  TiledOp.loops r = [] /\
  tileSizes st' = tileSizes st /\
  offsets st' = offsets st /\
  exists tiled resultOffsets b1,
    getTiledImplementation op outs (offsets st) (tileSizes st) (stBuilder st)
      = (Some tiled, resultOffsets, b1) /\
    TiledOp.op r = Some tiled.
Proof.
  unfold tileInnermost.
  destruct (getTiledImplementation op outs (offsets st) (tileSizes st)
              (stBuilder st)) as [[tiledOp resultOffsets] b1].
  destruct tiledOp as [tiled|]; [|discriminate].
  destruct (negb _); [discriminate|].
  destruct (getNumResults tiled =? 0)%nat.
  - intros [= <- <-]. cbn. repeat split; eauto.
  - destruct (insertResults _ _ _ _ _ _) as [[results| | |] b2];
      try discriminate.
    intros [= <- <-]. cbn. repeat split; eauto.
Qed.

Lemma getOpFoldResult_affineMin (id : nat) (m : AffineMap) (vs : list Value) :
  getOpFoldResult (OpResult (AffineMinOp id m vs) 0) =
  OfrValue (OpResult (AffineMinOp id m vs) 0).
Proof. reflexivity. Qed.

Lemma getValue_materializes (t : OpFoldResult) (b : OpBuilder) :
  materializes t (fst (getValue t b)).
Proof.
  destruct t as [a|v]; cbn; [eexists; reflexivity | reflexivity].
Qed.

Lemma tileLinalgExtOpImpl_nest (fuel : nat) :
  forall op outs its lbs d di st r st',
  tileLinalgExtOpImpl fuel op outs its lbs d di st = (Success r, st') ->
  (d <= length (tileSizes st))%nat ->
  exists sizes offs,
    tileSizes st' = take d (tileSizes st) ++ sizes /\
    offsets st' = offsets st ++ offs /\
    LoopNest its lbs d (drop d (tileSizes st)) di (TiledOp.loops r)
      sizes offs /\
    (forall L rest, TiledOp.loops r = L :: rest ->
       exists pre, block (stBuilder st') = pre ++ [L]) /\
    (exists outs' bL tiled ro bL',
       getTiledImplementation op outs' (offsets st') (tileSizes st') bL
         = (Some tiled, ro, bL') /\
       TiledOp.op r = Some tiled).
Proof.
  induction fuel as [|fuel IH]; intros op outs its lbs d di st r st' Hrun Hd.
  - cbn [tileLinalgExtOpImpl] in Hrun.
    destruct (Nat.eqb_spec d (length (tileSizes st))) as [->|Hne];
      [|discriminate].
    apply tileInnermost_success in Hrun.
    destruct Hrun as (Hl & Hts & Hoffs & tiled & ro & b1 & Himpl & Hop).
    exists [], []. rewrite Hl, Hts, Hoffs, firstn_all, drop_all, !app_nil_r.
    repeat split; try constructor; try discriminate. eauto 10.
  - cbn [tileLinalgExtOpImpl] in Hrun.
    destruct (Nat.eqb_spec d (length (tileSizes st))) as [->|Hne].
    { apply tileInnermost_success in Hrun.
      destruct Hrun as (Hl & Hts & Hoffs & tiled & ro & b1 & Himpl & Hop).
      exists [], []. rewrite Hl, Hts, Hoffs, firstn_all, drop_all, !app_nil_r.
      repeat split; try constructor; try discriminate. eauto 10. }
    destruct (tileSizes st !! d) as [t|] eqn:Ht; [|discriminate].
    destruct (isUntiledLoop t) eqn:Hu.
    + (* untiled *)
      destruct (lbs !! d) as [bound|] eqn:Hb; [|discriminate].
      destruct (m_Zero (Range.offset bound)) eqn:Hz; [|discriminate].
      cbn [negb stBuilder tileSizes offsets] in Hrun.
      apply IH in Hrun; [|cbn; rewrite length_insert; lia].
      cbn [stBuilder tileSizes offsets] in Hrun.
      destruct Hrun as (sizes & offs & Hts & Hoffs & Hnest & Hlast & Hleaf).
      exists (getOpFoldResult (Range.size bound) :: sizes),
             (OfrAttribute (getI64IntegerAttr 0) :: offs).
      assert (Hlt : (d < length (tileSizes st))%nat) by lia.
      split.
      { rewrite Hts.
        rewrite (take_S_r _ d (getOpFoldResult (Range.size bound)))
          by (apply list_lookup_insert_eq; lia).
        rewrite take_insert_ge by lia. rewrite <- app_assoc. reflexivity. }
      split.
      { rewrite Hoffs, <- app_assoc. reflexivity. }
      split.
      { rewrite (drop_S _ _ _ Ht).
        rewrite drop_insert_lt in Hnest by lia.
        econstructor; eauto. }
      split; assumption.
    + (* tiled *)
      destruct (lbs !! d) as [bound|] eqn:Hb; [|discriminate].
      destruct (m_One (Range.stride bound)) eqn:Hone; [|discriminate].
      cbn [negb] in Hrun.
      pose proof (getValue_materializes t (stBuilder st)) as Hstep.
      destruct (getValue t (stBuilder st)) as [stepValue b1].
      cbn [fst] in Hstep.
      destruct (distributedWith di its d) as [distributed|] eqn:Hdist;
        [|discriminate].
      set (bounds := match distributed with
                     | Some front => _
                     | None => _ end) in Hrun.
      assert (Hbounds : exists lb ub step b2,
                 bounds = (lb, ub, step, b2) /\
                 loopBoundsAre lb ub step bound stepValue distributed).
      { subst bounds. destruct distributed as [p|].
        - unfold updateBoundsForCyclicDistribution, create. cbn.
          do 4 eexists. split; [reflexivity|]. cbn. eauto 10.
        - do 4 eexists. split; [reflexivity|]. cbn. auto. }
      destruct Hbounds as (lb & ub & step & b2 & -> & Hbounds).
      unfold createForOp in Hrun.
      cbn [stBuilder tileSizes offsets withBuilder] in Hrun.
      rewrite Ht in Hrun.
      pose proof (getValue_materializes t (mkBuilder (S (nextId b2)) []))
        as Hsize.
      destruct (getValue t (mkBuilder (S (nextId b2)) []))
        as [tileSizeValue b3].
      cbn [fst] in Hsize.
      unfold create at 1 in Hrun.
      rewrite getOpFoldResult_affineMin in Hrun.
      match type of Hrun with
      | context [tileLinalgExtOpImpl fuel ?a ?b ?c ?e ?f ?g ?h] =>
          destruct (tileLinalgExtOpImpl fuel a b c e f g h)
            as [inner st4] eqn:Hinner
      end.
      destruct inner as [inner| | |]; try discriminate.
      unfold create in Hrun. cbn in Hrun.
      injection Hrun as <- <-.
      apply IH in Hinner; [|cbn; rewrite length_insert; lia].
      cbn [stBuilder tileSizes offsets] in Hinner.
      destruct Hinner as (sizes & offs & Hts & Hoffs & Hnest & Hlast & Hleaf).
      assert (Hlt : (d < length (tileSizes st))%nat) by lia.
      eexists (_ :: sizes), (_ :: offs).
      unfold withBuilder.
      cbn [tileSizes offsets stBuilder TiledOp.loops TiledOp.op block].
      split.
      { rewrite Hts.
        erewrite take_S_r by (apply list_lookup_insert_eq; lia).
        rewrite take_insert_ge by lia. rewrite <- app_assoc. reflexivity. }
      split.
      { rewrite Hoffs, <- app_assoc. reflexivity. }
      split.
      { rewrite (drop_S _ _ _ Ht).
        rewrite drop_insert_lt in Hnest by lia.
        eapply (nest_tiled its lbs d t _ di _ sizes offs bound distributed
                  stepValue tileSizeValue); eauto.
        intros L rest HL. destruct (Hlast L rest HL) as [pre Hpre].
        rewrite Hpre. apply in_or_app. left. apply in_or_app. right.
        left. reflexivity. }
      split.
      { intros L rest [= <- <-]. eexists. reflexivity. }
      exact Hleaf.
Qed.

(** ** Reading a loop nest *)

Lemma tiledDimsFrom_ge (ts : list OpFoldResult) :
  forall d k dim, tiledDimsFrom d ts !! k = Some dim -> (d <= dim)%nat.
Proof.
  induction ts as [|t ts IH]; intros d k dim H; cbn in H; [discriminate|].
  destruct (isUntiledLoop t).
  - apply IH in H. lia.
  - destruct k as [|k]; cbn in H.
    + injection H as ->. lia.
    + apply IH in H. lia.
Qed.

Lemma length_tiledDimsFrom (ts : list OpFoldResult) (d : nat) :
  length (tiledDimsFrom d ts) =
  length (List.filter (fun t => negb (isUntiledLoop t)) ts).
Proof.
  revert d. induction ts as [|t ts IH]; intros d; cbn; [reflexivity|].
  destruct (isUntiledLoop t); cbn; rewrite IH; reflexivity.
Qed.

Lemma distributedWith_entry (info : list ProcInfo) (its : list string)
  (d : nat) (distributed : option ProcInfo) :
  distributedWith info its d = Some distributed ->
  distributed = (if isParallel its d then info !! 0%nat else None) /\
  (match distributed with Some _ => tail info | None => info end) !! 0%nat =
    info !! (if isParallel its d then 1%nat else 0%nat) /\
  forall j,
    (match distributed with Some _ => tail info | None => info end) !! j =
    info !! ((if isParallel its d then 1 else 0) + j)%nat.
Proof.
  unfold distributedWith, isParallel.
  destruct info as [|p info].
  - intros [= <-]. destruct (its !! d) as [it|];
      [destruct (String.eqb it _)|]; repeat split; intros;
      rewrite ?lookup_nil; reflexivity.
  - destruct (its !! d) as [it|]; [|discriminate].
    destruct (String.eqb it _); intros [= <-]; repeat split.
Qed.

Lemma filter_lookup_cursor {A : Type} (f : A -> bool) (l : list A) :
  forall j x,
    List.filter f l !! j = Some x ->
    exists k, l !! k = Some x /\ f x = true /\
              length (List.filter f (take k l)) = j.
Proof.
  induction l as [|a l IH]; intros j x H; cbn in H; [discriminate|].
  destruct (f a) eqn:Hf.
  - destruct j as [|j]; cbn in H.
    + injection H as ->. exists 0%nat. auto.
    + destruct (IH j x H) as (k & Hk & Hfx & Hlen).
      exists (S k). cbn. rewrite Hf. cbn. auto.
  - destruct (IH j x H) as (k & Hk & Hfx & Hlen).
    exists (S k). cbn. rewrite Hf. auto.
Qed.

(** What a nest says of its [k]-th tiled dimension. *)
Lemma LoopNest_tiled_dim (its : list string) (lbs : list Range.t)
  (d : nat) (declared : list OpFoldResult) (info : list ProcInfo)
  (loops : list Operation) (sizes offs : list OpFoldResult) :
  LoopNest its lbs d declared info loops sizes offs ->
  forall k dim,
    tiledDimsFrom d declared !! k = Some dim ->
    exists t bound stepValue tileSizeValue forId lb ub step inits tys body
           minId,
      declared !! (dim - d)%nat = Some t /\
      isUntiledLoop t = false /\
      lbs !! dim = Some bound /\
      m_One (Range.stride bound) = true /\
      materializes t stepValue /\
      materializes t tileSizeValue /\
      loops !! k = Some (ForOp forId lb ub step inits tys body) /\
      loopBoundsAre lb ub step bound stepValue
        (if isParallel its dim
         then info !! length (List.filter (isParallel its)
                                (take k (tiledDimsFrom d declared)))
         else None) /\
      sizes !! (dim - d)%nat =
        Some (inBoundsTileSizeOf minId forId tileSizeValue ub) /\
      offs !! (dim - d)%nat =
        Some (OfrValue (BlockArgument forId 0 IndexType)).
Proof.
  induction 1 as
    [ d info
    | d t declared info loops sizes offs bound Hu Hb Hz Hnest IH
    | d t declared info loops sizes offs bound distributed stepValue
        tileSizeValue forId lb ub step inits tys body minId
        Hu Hb Hone Hdist Hstep Hsize Hbounds Hnest IH Hbody ];
    intros k dim Hk; cbn [tiledDimsFrom] in Hk |- *.
  - discriminate.
  - rewrite Hu in Hk |- *.
    pose proof (tiledDimsFrom_ge _ _ _ _ Hk) as Hge.
    destruct (IH k dim Hk)
      as (t' & bound' & sv & tv & fid & lb' & ub' & st' & ins & tys' & bd
          & mid & H1 & H2 & H3 & H4 & H5 & H6 & H7 & H8 & H9 & H10).
    replace (dim - d)%nat with (S (dim - S d)) by lia.
    exists t', bound', sv, tv, fid, lb', ub', st', ins, tys', bd, mid.
    repeat split; assumption.
  - rewrite Hu in Hk |- *.
    destruct (distributedWith_entry _ _ _ _ Hdist) as (Hd0 & _ & Hshift).
    destruct k as [|k]; cbn in Hk.
    + injection Hk as <-. rewrite Nat.sub_diag.
      exists t, bound, stepValue, tileSizeValue, forId, lb, ub, step, inits,
        tys, body, minId.
      cbn. rewrite <- Hd0. repeat split; assumption.
    + pose proof (tiledDimsFrom_ge _ _ _ _ Hk) as Hge.
      destruct (IH k dim Hk)
        as (t' & bound' & sv & tv & fid & lb' & ub' & st' & ins & tys' & bd
            & mid & H1 & H2 & H3 & H4 & H5 & H6 & H7 & H8 & H9 & H10).
      replace (dim - d)%nat with (S (dim - S d)) by lia.
      exists t', bound', sv, tv, fid, lb', ub', st', ins, tys', bd, mid.
      repeat split; try assumption.
      cbn [take List.filter]. rewrite Hshift in H8.
      destruct (isParallel its dim); [|exact H8].
      destruct (isParallel its d); cbn [length]; exact H8.
Qed.

(** What a nest says of an untiled dimension. *)
Lemma LoopNest_untiled_dim (its : list string) (lbs : list Range.t)
  (d : nat) (declared : list OpFoldResult) (info : list ProcInfo)
  (loops : list Operation) (sizes offs : list OpFoldResult) :
  LoopNest its lbs d declared info loops sizes offs ->
  forall i t,
    declared !! i = Some t -> isUntiledLoop t = true ->
    exists bound,
      lbs !! (d + i)%nat = Some bound /\
      m_Zero (Range.offset bound) = true /\
      sizes !! i = Some (getOpFoldResult (Range.size bound)) /\
      offs !! i = Some (OfrAttribute (getI64IntegerAttr 0)).
Proof.
  induction 1 as
    [ d info
    | d t declared info loops sizes offs bound Hu Hb Hz Hnest IH
    | d t declared info loops sizes offs bound distributed stepValue
        tileSizeValue forId lb ub step inits tys body minId
        Hu Hb Hone Hdist Hstep Hsize Hbounds Hnest IH Hbody ];
    intros i t0 Hi Hu0.
  - discriminate.
  - destruct i as [|i]; cbn in Hi.
    + exists bound. rewrite Nat.add_0_r. auto.
    + destruct (IH i t0 Hi Hu0) as (bound' & H1 & H2 & H3 & H4).
      exists bound'. replace (d + S i)%nat with (S d + i)%nat by lia. auto.
  - destruct i as [|i]; cbn in Hi.
    + congruence.
    + destruct (IH i t0 Hi Hu0) as (bound' & H1 & H2 & H3 & H4).
      exists bound'. replace (d + S i)%nat with (S d + i)%nat by lia. auto.
Qed.

(** The loops of a nest pair up with its tiled dimensions, in order, and
    every loop holds the next one in its body. *)
Lemma LoopNest_loops (its : list string) (lbs : list Range.t)
  (d : nat) (declared : list OpFoldResult) (info : list ProcInfo)
  (loops : list Operation) (sizes offs : list OpFoldResult) :
  LoopNest its lbs d declared info loops sizes offs ->
  Forall2
    (fun dim forOp =>
       isForOp forOp = true /\
       exists bound,
         lbs !! dim = Some bound /\
         forUpperBound forOp = Some (Range.size bound))
    (tiledDimsFrom d declared) loops /\
  (forall k outer inner,
      loops !! k = Some outer -> loops !! S k = Some inner ->
      In inner (forBody outer)).
Proof.
  induction 1 as
    [ d info
    | d t declared info loops sizes offs bound Hu Hb Hz Hnest IH
    | d t declared info loops sizes offs bound distributed stepValue
        tileSizeValue forId lb ub step inits tys body minId
        Hu Hb Hone Hdist Hstep Hsize Hbounds Hnest IH Hbody ];
    cbn [tiledDimsFrom].
  - split; [constructor | intros k o i H; discriminate].
  - rewrite Hu. exact IH.
  - rewrite Hu. destruct IH as [IH1 IH2]. split.
    + constructor; [|exact IH1]. split; [reflexivity|].
      exists bound. split; [assumption|]. cbn.
      destruct distributed; cbn in Hbounds.
      * destruct Hbounds as (i & j & _ & -> & _). reflexivity.
      * destruct Hbounds as (_ & -> & _). reflexivity.
    + intros [|k] outer inner Ho Hi; cbn in Ho, Hi.
      * injection Ho as <-. cbn.
        destruct loops as [|L rest]; [discriminate|].
        cbn in Hi. injection Hi as <-. eapply Hbody. reflexivity.
      * eapply IH2; eauto.
Qed.

(** ** The boundary clamp *)

Lemma getSExtValue_ofInt64 (z : Z) :
  - 2 ^ 63 <= z < 2 ^ 63 -> APInt.getSExtValue (APInt.ofInt64 z) = z.
Proof.
  intros Hz. rewrite getSExtValue_signedValue;
    rewrite signedValue_ofInt64; auto.
Qed.

Lemma evalValue_materializes (rho : Value -> Z) (t : OpFoldResult)
  (v : Value) :
  materializes t v -> evalValue rho v = evalOpFoldResult rho t.
Proof.
  destruct t as [a|v']; cbn [materializes evalOpFoldResult].
  - intros [id ->]. cbn [evalValue ConstantIndexOp].
    unfold IntegerAttr.getInt at 1. cbn [IntegerAttr.getValue].
    apply getSExtValue_ofInt64, getSExtValue_range.
  - intros ->. reflexivity.
Qed.

Lemma evalAffineMin_inBounds (iv t ub : Z) :
  evalAffineMin inBoundsTileSizeMap [iv; t; ub] = Some (Z.min t (ub - iv)).
Proof.
  unfold evalAffineMin. cbn. f_equal. f_equal. lia.
Qed.

Lemma evalAffineMap_distributedStep (n t : Z) :
  evalAffineMap distributedStepMap [n; t] = [n * t].
Proof. reflexivity. Qed.

Lemma forIterations_lookup (lb ub step : Z) (k : nat) (iv : Z) :
  forIterations lb ub step !! k = Some iv ->
  0 < step /\ iv = lb + Z.of_nat k * step /\ lb <= iv < ub /\
  ((S k < length (forIterations lb ub step))%nat -> iv + step < ub).
Proof.
  unfold forIterations. rewrite length_map, length_seq.
  intros H. apply list_lookup_fmap_Some in H.
  destruct H as (k' & -> & Hk').
  all: apply lookup_seq in Hk'; destruct Hk' as [-> Hlt]; cbn [Nat.add].
  all: unfold tripCount in *.
  all: destruct (Z.ltb_spec 0 step) as [Hs|Hs]; cbn [andb] in *; [|lia].
  all: destruct (Z.ltb_spec lb ub) as [Hl|Hl]; [|lia].
  all: set (q := (ub - lb + step - 1) / step) in *.
  all: assert (Hq1 : step * q <= ub - lb + step - 1)
         by (apply Z.mul_div_le; lia).
  all: assert (Hq0 : 0 <= q) by (apply Z.div_pos; lia).
  all: repeat split; try nia.
Qed.

(** C1: in a successful run of [tileLinalgExtOpImpl], the tiled
    implementation is called with the tile sizes and offsets the run ends
    with, and for the [k]-th tiled dimension [dim] these hold the induction
    variable of the [k]-th loop returned and the result of an [affine.min]
    of [inBoundsTileSizeMap] on that induction variable, the materialised
    declared tile size and the loop's upper bound, which is the size of the
    dimension's bound.  Whatever numbers the values stand for at run time,
    that tile size is [min(declared, ub - iv)], and the loop steps by the
    declared size or, when distributed, by a multiple of it.  Hence in
    every iteration the tile size is at most [ub - iv], and in every
    iteration but the last of a loop whose step is at least the declared
    size it is the declared size. *)
Theorem tileLinalgExtOpImpl_inBoundsTileSize (fuel : nat)
  (op : TiledOpInterface) (outs : list Value) (its : list string)
  (lbs : list Range.t) (d : nat) (di : list ProcInfo) (st : TilingState)
  (r : TiledOp.t) (st' : TilingState) :
  tileLinalgExtOpImpl fuel op outs its lbs d di st = (Success r, st') ->
  (d <= length (tileSizes st))%nat ->
  (exists outs' bL tiled ro bL',
      getTiledImplementation op outs' (offsets st') (tileSizes st') bL
        = (Some tiled, ro, bL') /\
      TiledOp.op r = Some tiled) /\
  (forall k dim,
      tiledDimsFrom d (drop d (tileSizes st)) !! k = Some dim ->
      exists t bound forId lb ub step inits tys body minId tileSizeValue,
        let iv := BlockArgument forId 0 IndexType in
        let inBoundsTileSize :=
          OpResult (AffineMinOp minId inBoundsTileSizeMap
                      [iv; tileSizeValue; ub]) 0 in
        tileSizes st !! dim = Some t /\
        lbs !! dim = Some bound /\
        TiledOp.loops r !! k = Some (ForOp forId lb ub step inits tys body) /\
        ub = Range.size bound /\
        materializes t tileSizeValue /\
        tileSizes st' !! dim = Some (OfrValue inBoundsTileSize) /\
        offsets st' !! (length (offsets st) + (dim - d))%nat =
          Some (OfrValue iv) /\
        forall rho,
          let declared := evalOpFoldResult rho t in
          evalValue rho inBoundsTileSize =
            Z.min declared (evalValue rho ub - rho iv) /\
          evalValue rho inBoundsTileSize <= evalValue rho ub - rho iv /\
          (evalValue rho step = declared \/
           exists n, evalValue rho step = n * declared)) /\
  (forall lb ub step t k iv,
      t <= step ->
      forIterations lb ub step !! k = Some iv ->
      (S k < length (forIterations lb ub step))%nat ->
      Z.min t (ub - iv) = t).
Proof.
  intros Hrun Hd.
  destruct (tileLinalgExtOpImpl_nest _ _ _ _ _ _ _ _ _ _ Hrun Hd)
    as (sizes & offs & Hts & Hoffs & Hnest & _ & Hleaf).
  split; [exact Hleaf|]. split.
  - intros k dim Hk.
    pose proof (tiledDimsFrom_ge _ _ _ _ Hk) as Hge.
    destruct (LoopNest_tiled_dim _ _ _ _ _ _ _ _ Hnest k dim Hk)
      as (t & bound & sv & tv & fid & lb & ub & step & ins & tys & bd & mid
          & H1 & H2 & H3 & H4 & H5 & H6 & H7 & H8 & H9 & H10).
    exists t, bound, fid, lb, ub, step, ins, tys, bd, mid, tv. cbv zeta.
    rewrite lookup_drop in H1.
    replace (d + (dim - d))%nat with dim in H1 by lia.
    assert (Hub : ub = Range.size bound /\
                  forall rho,
                    evalValue rho step = evalOpFoldResult rho t \/
                    exists n,
                      evalValue rho step = n * evalOpFoldResult rho t).
    { destruct (if isParallel its dim then _ else None) as [p|];
        cbn in H8.
      - destruct H8 as (i & j & _ & -> & ->). split; [reflexivity|].
        intros rho. right. exists (evalValue rho (nprocs p)).
        cbn [evalValue map]. rewrite evalAffineMap_distributedStep.
        rewrite (evalValue_materializes rho t sv H5). reflexivity.
      - destruct H8 as (_ & -> & ->). split; [reflexivity|].
        intros rho. left. apply evalValue_materializes. exact H5. }
    destruct Hub as [Hub Hstep].
    assert (Hmin : forall rho,
              evalValue rho
                (OpResult (AffineMinOp mid inBoundsTileSizeMap
                             [BlockArgument fid 0 IndexType; tv; ub]) 0) =
              Z.min (evalOpFoldResult rho t)
                (evalValue rho ub - rho (BlockArgument fid 0 IndexType))).
    { intros rho. cbn [evalValue map].
      rewrite evalAffineMin_inBounds.
      rewrite (evalValue_materializes rho t tv H6). reflexivity. }
    repeat match goal with |- _ /\ _ => split end; try assumption.
    + rewrite Hts. rewrite lookup_app_r by (rewrite length_take; lia).
      rewrite length_take. replace (d `min` length (tileSizes st))%nat
        with d by lia.
      exact H9.
    + rewrite Hoffs. rewrite lookup_app_r by lia.
      replace (length (offsets st) + (dim - d) - length (offsets st))%nat
        with (dim - d)%nat by lia.
      exact H10.
    + intros rho.
      repeat match goal with |- _ /\ _ => split end.
      * apply Hmin.
      * rewrite Hmin. lia.
      * apply Hstep.
  - intros lb ub step t k iv Ht Hk Hlast.
    destruct (forIterations_lookup _ _ _ _ _ Hk) as (_ & _ & _ & Hnext).
    specialize (Hnext Hlast). lia.
Qed.

Lemma tileLinalgExtOpImpl_inBoundsTileSize_witness :
  fst Sample.sortRun = Success (Sample.resultOf (fst Sample.sortRun)) /\
  (exists outs' bL tiled ro bL',
      getTiledImplementation Sample.sortInterface outs'
        (offsets (snd Sample.sortRun)) (tileSizes (snd Sample.sortRun)) bL
        = (Some tiled, ro, bL') /\
      TiledOp.op (Sample.resultOf (fst Sample.sortRun)) = Some tiled) /\
  Z.min 10 (95 - 80) = 10.
Proof.
  assert (Hrun :
    tileLinalgExtOpImpl 3 Sample.sortInterface [Sample.memref2]
      ["parallel"; "reduction"; "parallel"]
      [Sample.bound 100 1; Sample.bound 50 1; Sample.bound 95 1] 0 []
      Sample.sortState =
    (Success (Sample.resultOf (fst Sample.sortRun)), snd Sample.sortRun))
    by (vm_compute; reflexivity).
  pose proof (tileLinalgExtOpImpl_inBoundsTileSize _ _ _ _ _ _ _ _ _ _
                Hrun (Nat.le_0_l _)) as W.
  split; [vm_compute; reflexivity|]. split; [exact (proj1 W)|].
  refine (proj2 (proj2 W) 0 95 10 10 8%nat 80 _ _ _).
  - lia.
  - vm_compute. reflexivity.
  - vm_compute. lia.
Defined.

(** ** The entry point: loops and distribution *)

Lemma tiledDimsFrom_filter (ts : list OpFoldResult) (d : nat) :
  tiledDimsFrom d ts =
  List.filter (fun i => isTiledAt ts (i - d)) (seq d (length ts)).
Proof.
  revert d. induction ts as [|t ts IH]; intros d; [reflexivity|].
  cbn [tiledDimsFrom length seq List.filter].
  unfold isTiledAt at 1. rewrite Nat.sub_diag. cbn [lookup list_lookup].
  rewrite IH.
  assert (Hext :
    List.filter (fun i => isTiledAt (t :: ts) (i - d)) (seq (S d) (length ts))
    = List.filter (fun i => isTiledAt ts (i - S d)) (seq (S d) (length ts))).
  { apply filter_ext_in. intros i Hi. apply in_seq in Hi.
    unfold isTiledAt. replace (i - d)%nat with (S (i - S d)) by lia.
    reflexivity. }
  rewrite Hext. destruct (isUntiledLoop t); reflexivity.
Qed.

Lemma tiledDims_filter (ts : list OpFoldResult) :
  tiledDims ts = List.filter (isTiledAt ts) (seq 0 (length ts)).
Proof.
  unfold tiledDims. rewrite tiledDimsFrom_filter.
  apply filter_ext. intros i. rewrite Nat.sub_0_r. reflexivity.
Qed.

Lemma filter_filter {A : Type} (f g : A -> bool) (l : list A) :
  List.filter f (List.filter g l) = List.filter (fun x => g x && f x) l.
Proof.
  induction l as [|a l IH]; cbn; [reflexivity|].
  destruct (g a); cbn; [destruct (f a)|]; rewrite IH; reflexivity.
Qed.

Lemma tiledDimsFrom_all_untiled (ts : list OpFoldResult) (d : nat) :
  forallb isUntiledLoop ts = true -> tiledDimsFrom d ts = [].
Proof.
  revert d. induction ts as [|t ts IH]; intros d H; cbn in *; [reflexivity|].
  apply andb_prop in H. destruct H as [-> H]. auto.
Qed.

(** The ranges [tileLinalgExtOp] collects are the bounds of the
    dimensions that are tiled and parallel, in the order of the indices. *)
Lemma collectDistributedLoopRange_spec (ts : list OpFoldResult)
  (its : list string) (lbs : list Range.t) (indices : list nat) :
  forall acc res,
    collectDistributedLoopRange ts its lbs indices acc = Success res ->
    exists new,
      res = acc ++ new /\
      Forall2 (fun dim range => lbs !! dim = Some range)
        (List.filter (fun i => isTiledAt ts i && isParallel its i) indices)
        new.
Proof.
  induction indices as [|i rest IH]; intros acc res H; cbn in H.
  - injection H as <-. exists []. rewrite app_nil_r. split; constructor.
  - cbn [List.filter]. unfold isTiledAt at 1, isParallel at 1.
    destruct (ts !! i) as [t|]; [|discriminate].
    destruct (isUntiledLoop t); cbn [negb andb].
    { apply IH. exact H. }
    destruct (its !! i) as [it|]; [|discriminate].
    destruct (String.eqb it getParallelIteratorTypeName); cbn [negb] in H |- *.
    2: { apply IH. exact H. }
    destruct (lbs !! i) as [bound|] eqn:Hb; [|discriminate].
    destruct (IH _ _ H) as (new & -> & Hnew).
    exists (bound :: new). rewrite <- app_assoc. split; [reflexivity|].
    constructor; assumption.
Qed.

(** A successful run of [tileLinalgExtOp] on a tileable operation is the
    early exit or a successful run of the generator from depth 0. *)
Lemma tileLinalgExtOp_success (op : LinalgExtOp)
  (options : LinalgTilingOptions) (b : OpBuilder)
  (tilableOp : TiledOpInterface) (r : TiledOp.t) (b' : OpBuilder) :
  asTiledOpInterface op = Some tilableOp ->
  tileLinalgExtOp op options b = (Success r, b') ->
  let ts := actualTileSizes tilableOp options b in
  let its := getLoopIteratorTypes tilableOp in
  let bounds := fetchedLoopBounds tilableOp options b in
  let b2 :=
    snd (getLoopBounds tilableOp (builderAfterTileSizes tilableOp options b)) in
  (forallb isUntiledLoop ts = true /\
   r = TiledOp.make (Some (getOperation op)) [] []) \/
  (forallb isUntiledLoop ts = false /\
   exists info b3 st',
     tileLinalgExtOpImpl (length ts) tilableOp (outputs op) its bounds 0 info
       (mkState b3 ts []) = (Success r, st') /\
     b' = stBuilder st' /\
     match distribution options with
     | None => info = [] /\ b3 = b2
     | Some d =>
         exists ranges,
           collectDistributedLoopRange ts its bounds (seq 0 (length ts)) []
             = Success ranges /\
           procInfo d ranges b2 = (info, b3)
     end).
Proof.
  intros Hi Hrun. cbv zeta.
  rewrite (tileLinalgExtOp_tileable op options b tilableOp Hi) in Hrun.
  cbv zeta in Hrun. unfold fetchedLoopBounds.
  destruct (verifyNonParallelUntiled _ _ _ _); try discriminate.
  destruct (forallb isUntiledLoop _) eqn:Hall.
  { left. injection Hrun as <- <-. auto. }
  right. split; [reflexivity|].
  destruct (getLoopBounds tilableOp _) as [bounds b2]. cbn [fst snd].
  destruct (distribution options) as [dopts|].
  - destruct (collectDistributedLoopRange _ _ _ _ _) as [ranges| | |] eqn:Hc;
      try discriminate.
    destruct (procInfo dopts ranges b2) as [info b3] eqn:Hp.
    destruct (tileLinalgExtOpImpl _ _ _ _ _ _ _ _) as [res st'] eqn:Himpl.
    injection Hrun as -> <-.
    exists info, b3, st'. repeat split; eauto.
  - destruct (tileLinalgExtOpImpl _ _ _ _ _ _ _ _) as [res st'] eqn:Himpl.
    injection Hrun as -> <-.
    exists [], b2, st'. repeat split; eauto.
Qed.

(** C2: the loops of a successful run of [tileLinalgExtOp] are as many as
    the tile sizes that are not statically zero; they pair up, in order,
    with the tiled dimensions in increasing order, the loop of a dimension
    running up to the size of that dimension's bound; and each loop holds
    the next loop of the list in its body, so the list is outermost first.
    An operation that is not tileable gets no loops. *)
Theorem tileLinalgExtOp_loops (op : LinalgExtOp)
  (options : LinalgTilingOptions) (b : OpBuilder) (r : TiledOp.t)
  (b' : OpBuilder) :
  tileLinalgExtOp op options b = (Success r, b') ->
  match asTiledOpInterface op with
  | None => TiledOp.loops r = []
  | Some tilableOp =>
      let ts := actualTileSizes tilableOp options b in
      let bounds := fetchedLoopBounds tilableOp options b in
      length (TiledOp.loops r) =
        length (List.filter (fun t => negb (isUntiledLoop t)) ts) /\
      Forall2
        (fun dim forOp =>
           isForOp forOp = true /\
           exists bound,
             bounds !! dim = Some bound /\
             forUpperBound forOp = Some (Range.size bound))
        (tiledDims ts) (TiledOp.loops r) /\
      (forall k outer inner,
          TiledOp.loops r !! k = Some outer ->
          TiledOp.loops r !! S k = Some inner ->
          In inner (forBody outer))
  end.
Proof.
  intros Hrun.
  destruct (asTiledOpInterface op) as [tilableOp|] eqn:Hi.
  2: { unfold tileLinalgExtOp in Hrun. rewrite Hi in Hrun.
       injection Hrun as <- _. reflexivity. }
  cbv zeta.
  destruct (tileLinalgExtOp_success _ _ _ _ _ _ Hi Hrun)
    as [[Hall ->]|(Hall & info & b3 & st' & Himpl & _ & _)].
  - cbn [TiledOp.loops]. unfold tiledDims.
    rewrite <- (length_tiledDimsFrom _ 0).
    rewrite (tiledDimsFrom_all_untiled _ _ Hall).
    repeat split; [constructor | intros k o i H; discriminate].
  - destruct (tileLinalgExtOpImpl_nest _ _ _ _ _ _ _ _ _ _ Himpl)
      as (sizes & offs & _ & _ & Hnest & _ & _); [cbn; lia|].
    cbn [tileSizes] in Hnest. rewrite drop_0 in Hnest.
    destruct (LoopNest_loops _ _ _ _ _ _ _ _ Hnest) as [Hpairs Hbody].
    split; [|split; assumption].
    rewrite <- (length_tiledDimsFrom _ 0).
    symmetry. eapply Forall2_length. exact Hpairs.
Qed.

Lemma tileLinalgExtOp_loops_witness :
  fst Sample.distributedRun = Success Sample.distributedResult /\
  length (TiledOp.loops Sample.distributedResult) = 2%nat.
Proof.
  assert (Hrun :
    tileLinalgExtOp Sample.sort3 Sample.distributedOptions Sample.emptyBuilder
    = (Success Sample.distributedResult, snd Sample.distributedRun))
    by (vm_compute; reflexivity).
  pose proof (tileLinalgExtOp_loops _ _ _ _ _ Hrun) as W.
  split; [vm_compute; reflexivity|].
  apply proj1 in W. vm_compute in W. vm_compute. exact W.
Defined.

Lemma distributedDims_filter (its : list string) (ts : list OpFoldResult) :
  distributedDims its ts =
  List.filter (fun i => isTiledAt ts i && isParallel its i)
    (seq 0 (length ts)).
Proof.
  unfold distributedDims. rewrite tiledDims_filter. apply filter_filter.
Qed.

(** C3: with a distribution in the options and some dimension tiled, a
    successful [tileLinalgExtOp] calls [procInfo] on exactly the bounds of
    the dimensions that are parallel and tiled, in increasing order, and
    runs the generator on the entries it returns; the loop of the [j]-th
    such dimension is the one distributed with the [j]-th entry (and is
    not distributed when the entries have run out).  In any successful run
    of the generator, the loop of a tiled dimension that is not parallel
    keeps the dimension's own bounds; untiled dimensions have no loop. *)
Theorem tileLinalgExtOp_distribution (op : LinalgExtOp)
  (options : LinalgTilingOptions) (b : OpBuilder)
  (tilableOp : TiledOpInterface) (dopts : LinalgLoopDistributionOptions)
  (r : TiledOp.t) (b' : OpBuilder) :
  asTiledOpInterface op = Some tilableOp ->
  distribution options = Some dopts ->
  tileLinalgExtOp op options b = (Success r, b') ->
  forallb isUntiledLoop (actualTileSizes tilableOp options b) = false ->
  let ts := actualTileSizes tilableOp options b in
  let its := getLoopIteratorTypes tilableOp in
  let bounds := fetchedLoopBounds tilableOp options b in
  let b2 :=
    snd (getLoopBounds tilableOp (builderAfterTileSizes tilableOp options b)) in
  (exists ranges info b3 st',
      Forall2 (fun dim range => bounds !! dim = Some range)
        (distributedDims its ts) ranges /\
      procInfo dopts ranges b2 = (info, b3) /\
      tileLinalgExtOpImpl (length ts) tilableOp (outputs op) its bounds 0
        info (mkState b3 ts []) = (Success r, st') /\
      b' = stBuilder st' /\
      forall j dim,
        distributedDims its ts !! j = Some dim ->
        exists k t bound stepValue forId lb ub step inits tys body,
          tiledDims ts !! k = Some dim /\
          ts !! dim = Some t /\
          bounds !! dim = Some bound /\
          materializes t stepValue /\
          TiledOp.loops r !! k =
            Some (ForOp forId lb ub step inits tys body) /\
          loopBoundsAre lb ub step bound stepValue (info !! j)) /\
  (forall fuel outs0 its0 lbs0 info0 st0 r0 st0' k dim,
      tileLinalgExtOpImpl fuel tilableOp outs0 its0 lbs0 0 info0 st0
        = (Success r0, st0') ->
      tiledDims (tileSizes st0) !! k = Some dim ->
      isParallel its0 dim = false ->
      exists t bound stepValue forId lb ub step inits tys body,
        tileSizes st0 !! dim = Some t /\
        lbs0 !! dim = Some bound /\
        materializes t stepValue /\
        TiledOp.loops r0 !! k = Some (ForOp forId lb ub step inits tys body) /\
        loopBoundsAre lb ub step bound stepValue None).
Proof.
  intros Hi Hd Hrun Hsome. cbv zeta. split.
  - destruct (tileLinalgExtOp_success _ _ _ _ _ _ Hi Hrun)
      as [[Hall _]|(_ & info & b3 & st' & Himpl & Hb' & Hdist)];
      [congruence|].
    rewrite Hd in Hdist. destruct Hdist as (ranges & Hcollect & Hproc).
    exists ranges, info, b3, st'.
    destruct (collectDistributedLoopRange_spec _ _ _ _ _ _ Hcollect)
      as (new & Hnew & Hpairs).
    cbn [app] in Hnew. subst new.
    rewrite distributedDims_filter.
    repeat split; try assumption.
    intros j dim Hj.
    rewrite <- distributedDims_filter in Hj. unfold distributedDims in Hj.
    destruct (filter_lookup_cursor _ _ _ _ Hj) as (k & Hk & Hpar & Hcur).
    destruct (tileLinalgExtOpImpl_nest _ _ _ _ _ _ _ _ _ _ Himpl)
      as (sizes & offs & _ & _ & Hnest & _ & _); [cbn; lia|].
    cbn [tileSizes] in Hnest. rewrite drop_0 in Hnest.
    destruct (LoopNest_tiled_dim _ _ _ _ _ _ _ _ Hnest k dim Hk)
      as (t & bound & sv & tv & fid & lb & ub & step & ins & tys & bd & mid
          & H1 & H2 & H3 & H4 & H5 & H6 & H7 & H8 & H9 & H10).
    rewrite Nat.sub_0_r in H1. rewrite Hpar in H8.
    unfold tiledDims in Hcur. rewrite Hcur in H8.
    exists k, t, bound, sv, fid, lb, ub, step, ins, tys, bd.
    repeat (split; [assumption|]). exact H8.
  - intros fuel outs0 its0 lbs0 info0 st0 r0 st0' k dim Himpl Hk Hpar.
    destruct (tileLinalgExtOpImpl_nest _ _ _ _ _ _ _ _ _ _ Himpl)
      as (sizes & offs & _ & _ & Hnest & _ & _); [lia|].
    rewrite drop_0 in Hnest.
    destruct (LoopNest_tiled_dim _ _ _ _ _ _ _ _ Hnest k dim Hk)
      as (t & bound & sv & tv & fid & lb & ub & step & ins & tys & bd & mid
          & H1 & H2 & H3 & H4 & H5 & H6 & H7 & H8 & H9 & H10).
    rewrite Nat.sub_0_r in H1. rewrite Hpar in H8.
    exists t, bound, sv, fid, lb, ub, step, ins, tys, bd.
    repeat (split; [assumption|]). exact H8.
Qed.

Lemma tileLinalgExtOp_distribution_witness :
  fst Sample.distributedRun = Success Sample.distributedResult /\
  distributedDims ["parallel"; "reduction"; "parallel"]
    (actualTileSizes Sample.sortInterface Sample.distributedOptions
       Sample.emptyBuilder) = [0; 2]%nat /\
  exists ranges,
    Forall2
      (fun dim range =>
         fetchedLoopBounds Sample.sortInterface Sample.distributedOptions
           Sample.emptyBuilder !! dim = Some range)
      (distributedDims ["parallel"; "reduction"; "parallel"]
         (actualTileSizes Sample.sortInterface Sample.distributedOptions
            Sample.emptyBuilder))
      ranges.
Proof.
  assert (Hrun :
    tileLinalgExtOp Sample.sort3 Sample.distributedOptions Sample.emptyBuilder
    = (Success Sample.distributedResult, snd Sample.distributedRun))
    by (vm_compute; reflexivity).
  assert (Hsome :
    forallb isUntiledLoop
      (actualTileSizes Sample.sortInterface Sample.distributedOptions
         Sample.emptyBuilder) = false)
    by (vm_compute; reflexivity).
  split; [vm_compute; reflexivity|]. split; [vm_compute; reflexivity|].
  destruct (tileLinalgExtOp_distribution Sample.sort3
              Sample.distributedOptions Sample.emptyBuilder Sample.sortInterface
              Sample.workgroupDistributionOptions
              Sample.distributedResult (snd Sample.distributedRun)
              eq_refl eq_refl Hrun Hsome)
    as [(ranges & info & b3 & st' & Hranges & _) _].
  exists ranges. exact Hranges.
Defined.

(** ** The untiled step *)

(** C7: at a dimension whose tile size is statically zero and whose lower
    bound is statically zero, the generator is the generator at the next
    depth on the same builder, with a zero offset recorded and the tile
    size of the dimension replaced by the size of its bound: no loop is
    emitted, and a successful run ends with exactly these entries.  When
    the lower bound is not statically zero the run leaves the contract: it
    ends in a violated assertion, not in a reported failure. *)
Theorem tileLinalgExtOpImpl_untiled (fuel : nat) (op : TiledOpInterface)
  (outs : list Value) (its : list string) (lbs : list Range.t) (d : nat)
  (di : list ProcInfo) (st : TilingState) (t : OpFoldResult)
  (bound : Range.t) :
  tileSizes st !! d = Some t ->
  isUntiledLoop t = true ->
  lbs !! d = Some bound ->
  (m_Zero (Range.offset bound) = true ->
   tileLinalgExtOpImpl (S fuel) op outs its lbs d di st =
   tileLinalgExtOpImpl fuel op outs its lbs (S d) di
     (mkState (stBuilder st)
        (<[d := getOpFoldResult (Range.size bound)]> (tileSizes st))
        (offsets st ++ [OfrAttribute (getI64IntegerAttr 0)]))) /\
  (m_Zero (Range.offset bound) = false ->
   tileLinalgExtOpImpl (S fuel) op outs its lbs d di st =
   (Violation "expected loop bounds to have lower bound of zero",
    mkState (stBuilder st) (tileSizes st)
      (offsets st ++ [OfrAttribute (getI64IntegerAttr 0)]))) /\
  (forall r st',
      tileLinalgExtOpImpl (S fuel) op outs its lbs d di st
        = (Success r, st') ->
      m_Zero (Range.offset bound) = true /\
      tileSizes st' !! d = Some (getOpFoldResult (Range.size bound)) /\
      offsets st' !! length (offsets st) =
        Some (OfrAttribute (getI64IntegerAttr 0)) /\
      length (TiledOp.loops r) =
        length (tiledDimsFrom (S d) (drop (S d) (tileSizes st)))).
Proof.
  intros Ht Hu Hb.
  assert (Hlt : (d < length (tileSizes st))%nat)
    by (eapply lookup_lt_Some; eauto).
  assert (Hne : (d =? length (tileSizes st))%nat = false)
    by (apply Nat.eqb_neq; lia).
  split; [|split].
  - intros Hz. cbn [tileLinalgExtOpImpl].
    rewrite Hne, Ht, Hu, Hb, Hz. reflexivity.
  - intros Hz. cbn [tileLinalgExtOpImpl].
    rewrite Hne, Ht, Hu, Hb, Hz. reflexivity.
  - intros r st' Hrun.
    destruct (tileLinalgExtOpImpl_nest _ _ _ _ _ _ _ _ _ _ Hrun)
      as (sizes & offs & Hts & Hoffs & Hnest & _ & _); [lia|].
    pose proof (LoopNest_untiled_dim _ _ _ _ _ _ _ _ Hnest 0%nat t) as Hdim.
    rewrite lookup_drop, Nat.add_0_r in Hdim.
    destruct (Hdim Ht Hu) as (bound' & Hb' & Hz & Hs & Ho).
    rewrite Hb in Hb'. injection Hb' as <-.
    split; [exact Hz|]. split; [|split].
    + rewrite Hts, lookup_app_r by (rewrite length_take; lia).
      rewrite length_take.
      replace (d - d `min` length (tileSizes st))%nat with 0%nat by lia.
      exact Hs.
    + rewrite Hoffs, lookup_app_r by lia. rewrite Nat.sub_diag. exact Ho.
    + destruct (LoopNest_loops _ _ _ _ _ _ _ _ Hnest) as [Hpairs _].
      rewrite (drop_S _ _ _ Ht) in Hpairs. cbn [tiledDimsFrom] in Hpairs.
      rewrite Hu in Hpairs. symmetry. eapply Forall2_length. exact Hpairs.
Qed.

Lemma tileLinalgExtOpImpl_untiled_witness :
  tileLinalgExtOpImpl 2 Sample.sortInterface [Sample.memref2]
    ["parallel"; "parallel"] [Sample.bound 100 1; Sample.bound 50 1] 0 []
    Sample.untiledFirstState =
  tileLinalgExtOpImpl 1 Sample.sortInterface [Sample.memref2]
    ["parallel"; "parallel"] [Sample.bound 100 1; Sample.bound 50 1] 1 []
    (mkState (stBuilder Sample.untiledFirstState)
       (<[0%nat := getOpFoldResult (Range.size (Sample.bound 100 1))]>
          (tileSizes Sample.untiledFirstState))
       (offsets Sample.untiledFirstState
          ++ [OfrAttribute (getI64IntegerAttr 0)])).
Proof.
  assert (Hu : isUntiledLoop (OfrAttribute (getI64IntegerAttr 0)) = true)
    by (vm_compute; reflexivity).
  assert (Hz : m_Zero (Range.offset (Sample.bound 100 1)) = true)
    by (vm_compute; reflexivity).
  exact (proj1 (tileLinalgExtOpImpl_untiled 1 Sample.sortInterface
                  [Sample.memref2]
                  ["parallel"; "parallel"]
                  [Sample.bound 100 1; Sample.bound 50 1] 0 []
                  Sample.untiledFirstState (OfrAttribute (getI64IntegerAttr 0))
                  (Sample.bound 100 1) eq_refl Hu eq_refl) Hz).
Defined.

(** ** Strides *)

Lemma distributedWith_in_range (info : list ProcInfo) (its : list string)
  (d : nat) :
  (d < length its)%nat -> exists x, distributedWith info its d = Some x.
Proof.
  intros Hd. unfold distributedWith. destruct info; [eauto|].
  destruct (lookup_lt_is_Some_2 its d Hd) as [it ->].
  destruct (String.eqb it _); eauto.
Qed.

(** The generator stops with the stride error at the first tiled dimension
    whose stride is not statically one, when the dimensions before it are
    within the contract. *)
Lemma tileLinalgExtOpImpl_stride (fuel : nat) :
  forall op outs its lbs d di st k t bound,
    (length (tileSizes st) - d <= fuel)%nat ->
    (d <= k)%nat ->
    (k <= length its)%nat ->
    tileSizes st !! k = Some t ->
    isUntiledLoop t = false ->
    lbs !! k = Some bound ->
    m_One (Range.stride bound) = false ->
    (forall i ti, (d <= i < k)%nat -> tileSizes st !! i = Some ti ->
       exists bi, lbs !! i = Some bi /\
                  (isUntiledLoop ti = true ->
                   m_Zero (Range.offset bi) = true)) ->
    exists st',
      tileLinalgExtOpImpl fuel op outs its lbs d di st =
        (Failure (OpError (opId (interfaceOperation op))
                    "expected stride to be 1"), st').
Proof.
  induction fuel as [|fuel IH];
    intros op outs its lbs d di st k t bound Hfuel Hdk Hk Ht Hu Hb Hone Hpre;
    pose proof (lookup_lt_Some _ _ _ Ht) as Hlt; [lia|].
  cbn [tileLinalgExtOpImpl].
  destruct (Nat.eqb_spec d (length (tileSizes st))) as [->|_]; [lia|].
  destruct (lookup_lt_is_Some_2 (tileSizes st) d ltac:(lia)) as [td Htd].
  rewrite Htd.
  destruct (Nat.eq_dec d k) as [->|Hne].
  { rewrite Ht in Htd. injection Htd as <-.
    rewrite Hu, Hb, Hone. cbn [negb]. eauto. }
  destruct (Hpre d td ltac:(lia) Htd) as (bi & Hbi & Hzero).
  rewrite Hbi.
  destruct (isUntiledLoop td) eqn:Hutd.
  - rewrite (Hzero eq_refl). cbn [negb].
    eapply (IH _ _ _ _ _ _ _ k t bound); eauto;
      cbn [tileSizes]; rewrite ?length_insert; try lia.
    + rewrite list_lookup_insert_ne by lia. exact Ht.
    + intros i ti Hi Hti. rewrite list_lookup_insert_ne in Hti by lia.
      apply (Hpre i ti); [lia | exact Hti].
  - destruct (m_One (Range.stride bi)); cbn [negb]; [|eauto].
    destruct (getValue td (stBuilder st)) as [stepValue b1].
    destruct (distributedWith_in_range di its d ltac:(lia))
      as [distributed ->].
    set (bnds := match distributed with
                 | Some front => _
                 | None => _ end).
    clearbody bnds. destruct bnds as [[[lb ub] step] b2].
    unfold createForOp.
    cbn [stBuilder tileSizes offsets withBuilder].
    rewrite Htd.
    destruct (getValue td (mkBuilder (S (nextId b2)) []))
      as [tileSizeValue b3].
    unfold create at 1.
    match goal with
    | |- context [tileLinalgExtOpImpl fuel ?a ?b ?c ?e ?f ?g ?h] =>
        destruct (IH a b c e f g h k t bound) as [st4 Hinner]
    end; auto; cbn [tileSizes]; rewrite ?length_insert; try lia.
    + rewrite list_lookup_insert_ne by lia. exact Ht.
    + intros i ti Hi Hti. rewrite list_lookup_insert_ne in Hti by lia.
      apply (Hpre i ti); [lia | exact Hti].
    + rewrite Hinner. eauto.
Qed.

Lemma collectDistributedLoopRange_total (ts : list OpFoldResult)
  (its : list string) (lbs : list Range.t) (indices : list nat) :
  (forall i, In i indices ->
     (i < length ts)%nat /\ (i < length its)%nat /\ (i < length lbs)%nat) ->
  forall acc,
    exists res, collectDistributedLoopRange ts its lbs indices acc
                = Success res.
Proof.
  induction indices as [|i rest IH]; intros Hin acc; cbn; [eauto|].
  destruct (Hin i (or_introl eq_refl)) as (H1 & H2 & H3).
  assert (Hrest : forall i', In i' rest ->
            (i' < length ts)%nat /\ (i' < length its)%nat /\
            (i' < length lbs)%nat) by (intros; apply Hin; right; auto).
  destruct (lookup_lt_is_Some_2 ts i H1) as [t ->].
  destruct (isUntiledLoop t); [apply IH; auto|].
  destruct (lookup_lt_is_Some_2 its i H2) as [it ->].
  destruct (String.eqb it _); cbn [negb]; [|apply IH; auto].
  destruct (lookup_lt_is_Some_2 lbs i H3) as [bd ->].
  apply IH; auto.
Qed.

(** C8 (amended): on a tileable operation with a bound for every loop,
    when some tiled dimension has a bound whose stride is not statically
    one, and the untiled dimensions before it have a statically zero lower
    bound, [tileLinalgExtOp] fails with an error reported on the operation:
    the stride error, unless it already failed on a tiled loop that is not
    parallel. *)
Theorem tileLinalgExtOp_stride (op : LinalgExtOp)
  (options : LinalgTilingOptions) (b : OpBuilder)
  (tilableOp : TiledOpInterface) (k : nat) (t : OpFoldResult)
  (bound : Range.t) :
  asTiledOpInterface op = Some tilableOp ->
  let ts := actualTileSizes tilableOp options b in
  let bounds := fetchedLoopBounds tilableOp options b in
  (length (getLoopIteratorTypes tilableOp) <= length bounds)%nat ->
  ts !! k = Some t ->
  isUntiledLoop t = false ->
  bounds !! k = Some bound ->
  m_One (Range.stride bound) = false ->
  (forall i ti bi,
      (i < k)%nat -> ts !! i = Some ti -> isUntiledLoop ti = true ->
      bounds !! i = Some bi -> m_Zero (Range.offset bi) = true) ->
  fst (tileLinalgExtOp op options b) =
    Failure (OpError (opId (getOperation op))
               "unimplemented tiling of non-parallel loop iterator type") \/
  fst (tileLinalgExtOp op options b) =
    Failure (OpError (opId (interfaceOperation tilableOp))
               "expected stride to be 1").
Proof.
  intros Hi ts bounds Hlen Ht Hu Hb Hone Hpre.
  pose proof (length_actualTileSizes tilableOp options b) as Hts.
  fold ts in Hts.
  pose proof (lookup_lt_Some _ _ _ Ht) as Hk.
  rewrite (tileLinalgExtOp_tileable op options b tilableOp Hi). cbv zeta.
  fold ts.
  destruct (verifyNonParallelUntiled _ ts 0 _) as [[]|diag|w|] eqn:Hv.
  - right.
    assert (Hall : forallb isUntiledLoop ts = false).
    { destruct (forallb isUntiledLoop ts) eqn:Hall; [|reflexivity].
      rewrite forallb_forall in Hall.
      rewrite (Hall t) in Hu; [discriminate|].
      apply list_elem_of_In. eapply list_elem_of_lookup_2; eauto. }
    rewrite Hall.
    subst bounds. unfold fetchedLoopBounds in *.
    destruct (getLoopBounds tilableOp _) as [lbs b2]. cbn [fst] in *.
    assert (Himpl : forall info b3,
      exists st',
        tileLinalgExtOpImpl (length ts) tilableOp (outputs op)
          (getLoopIteratorTypes tilableOp) lbs 0 info (mkState b3 ts [])
        = (Failure (OpError (opId (interfaceOperation tilableOp))
                      "expected stride to be 1"), st')).
    { intros info b3.
      apply (tileLinalgExtOpImpl_stride _ _ _ _ _ _ _ _ k t bound);
        cbn [tileSizes]; auto; try lia.
      intros i ti Hik Hti.
      destruct (lookup_lt_is_Some_2 lbs i ltac:(lia)) as [bi Hbi].
      exists bi. split; [assumption|]. intros Hui.
      eapply Hpre; eauto. lia. }
    destruct (distribution options) as [dopts|].
    + destruct (collectDistributedLoopRange_total ts
                  (getLoopIteratorTypes tilableOp) lbs (seq 0 (length ts))
                  ltac:(intros i Hin; apply in_seq in Hin; lia) [])
        as [ranges ->].
      destruct (procInfo dopts ranges b2) as [info b3].
      destruct (Himpl info b3) as [st' ->]. reflexivity.
    + destruct (Himpl [] b2) as [st' ->]. reflexivity.
  - left. cbn [fst].
    assert (Hd : diag = OpError (opId (getOperation op))
              "unimplemented tiling of non-parallel loop iterator type");
      [|rewrite Hd; reflexivity].
    clear - Hv. revert Hv. generalize 0%nat.
    induction (getLoopIteratorTypes tilableOp) as [|it rest IH];
      intros index Hv; cbn in Hv; [discriminate|].
    destruct (String.eqb it _); [eauto|].
    destruct (ts !! index) as [ti|]; [|discriminate].
    destruct (isUntiledLoop ti); cbn in Hv; [eauto|congruence].
  - exfalso.
    assert (Hrange : (0 + length (getLoopIteratorTypes tilableOp)
                      <= length ts)%nat) by lia.
    clear - Hv Hrange. revert Hv.
    revert Hrange. generalize 0%nat.
    induction (getLoopIteratorTypes tilableOp) as [|it rest IH];
      intros index Hrange Hv; cbn in Hv, Hrange; [discriminate|].
    destruct (String.eqb it _); [apply (IH (S index)); auto; lia|].
    destruct (ts !! index) as [ti|] eqn:Hti.
    + destruct (isUntiledLoop ti); cbn in Hv; [|discriminate].
      apply (IH (S index)); auto; lia.
    + apply lookup_ge_None in Hti. lia.
  - exfalso. clear - Hv. revert Hv. generalize 0%nat.
    induction (getLoopIteratorTypes tilableOp) as [|it rest IH];
      intros index Hv; cbn in Hv; [discriminate|].
    destruct (String.eqb it _); [eauto|].
    destruct (ts !! index) as [ti|]; [|discriminate].
    destruct (isUntiledLoop ti); cbn in Hv; [eauto|discriminate].
Qed.

Lemma tileLinalgExtOp_stride_witness :
  fst (tileLinalgExtOp Sample.scatter2Strided (Sample.setTileSizes [10; 20])
         Sample.emptyBuilder) =
    Failure (OpError (opId (getOperation Sample.scatter2Strided))
               "unimplemented tiling of non-parallel loop iterator type") \/
  fst (tileLinalgExtOp Sample.scatter2Strided (Sample.setTileSizes [10; 20])
         Sample.emptyBuilder) =
    Failure (OpError (opId (interfaceOperation Sample.scatterInterface))
               "expected stride to be 1").
Proof.
  assert (Hu : isUntiledLoop
                 (OfrAttribute (IntegerAttr.get IndexType (APInt.ofInt64 20)))
               = false) by (vm_compute; reflexivity).
  assert (Ht : actualTileSizes Sample.scatterInterface
                 (Sample.setTileSizes [10; 20])
                 Sample.emptyBuilder !! 1%nat =
               Some (OfrAttribute
                       (IntegerAttr.get IndexType (APInt.ofInt64 20))))
    by (vm_compute; reflexivity).
  assert (Hone : m_One (Range.stride (Sample.bound 50 2)) = false)
    by (vm_compute; reflexivity).
  refine (tileLinalgExtOp_stride Sample.scatter2Strided
            (Sample.setTileSizes [10; 20]) Sample.emptyBuilder
            Sample.scatterInterface 1
            (OfrAttribute (IntegerAttr.get IndexType (APInt.ofInt64 20)))
            (Sample.bound 50 2) eq_refl _ Ht Hu eq_refl Hone _).
  - cbn. lia.
  - intros i ti bi Hi Hti Hui Hb.
    destruct i as [|i]; [|lia].
    vm_compute in Hti. injection Hti as <-. vm_compute in Hui.
    discriminate Hui.
Defined.

(** C8 as stated fails when the dimension with the stride is untiled:
    with tile sizes 10 and 0 on bounds whose second stride is 2, the run
    succeeds and returns one loop. *)
Lemma tileLinalgExtOp_stride_untiled_dimension :
  (exists bound,
      fetchedLoopBounds Sample.scatterInterface (Sample.setTileSizes [10; 0])
        Sample.emptyBuilder !! 1%nat = Some bound /\
      m_One (Range.stride bound) = false) /\
  succeeded
    (fst (tileLinalgExtOp Sample.scatter2Strided (Sample.setTileSizes [10; 0])
            Sample.emptyBuilder)) = true /\
  length
    (TiledOp.loops
       (Sample.resultOf
          (fst (tileLinalgExtOp Sample.scatter2Strided
                  (Sample.setTileSizes [10; 0]) Sample.emptyBuilder))))
  = 1%nat.
Proof.
  split; [|split; vm_compute; reflexivity].
  exists (Sample.bound 50 2). split; vm_compute; reflexivity.
Qed.

(** ** The bounded recursion is enough *)

Lemma insertResults_fuel (outs : list Value)
  (ro : list (list OpFoldResult)) (rs : list Value) :
  forall index acc b, fst (insertResults outs ro index rs acc b) <> OutOfFuel.
Proof.
  induction rs as [|result rest IH]; intros index acc b; cbn;
    [discriminate|].
  destruct (ro !! index); [|discriminate].
  destruct (negb _); [discriminate|].
  destruct (getDims _ _ _) as [sizes b1].
  destruct (outs !! index); [|discriminate].
  apply IH.
Qed.

Lemma tileInnermost_fuel (op : TiledOpInterface) (outs : list Value)
  (st : TilingState) :
  fst (tileInnermost op outs st) <> OutOfFuel.
Proof.
  unfold tileInnermost.
  destruct (getTiledImplementation _ _ _ _ _) as [[[tiled|] ro] b1];
    [|discriminate].
  destruct (negb _); [discriminate|].
  destruct (getNumResults tiled =? 0)%nat; [discriminate|].
  pose proof (insertResults_fuel outs ro (getResults tiled) 0 [] b1) as H.
  destruct (insertResults _ _ _ _ _ _) as [[results|e|w|] b2]; cbn in *;
    congruence.
Qed.

(** With as much fuel as there are dimensions left, the generator never
    stops for lack of fuel. *)
Lemma tileLinalgExtOpImpl_fuel (fuel : nat) :
  forall op outs its lbs d di st,
    (length (tileSizes st) - d <= fuel)%nat ->
    (d <= length (tileSizes st))%nat ->
    fst (tileLinalgExtOpImpl fuel op outs its lbs d di st) <> OutOfFuel.
Proof.
  induction fuel as [|fuel IH]; intros op outs its lbs d di st Hfuel Hd;
    cbn [tileLinalgExtOpImpl];
    destruct (Nat.eqb_spec d (length (tileSizes st))) as [->|Hne];
    try apply tileInnermost_fuel; [lia|].
  destruct (tileSizes st !! d) as [t|]; [|discriminate].
  destruct (isUntiledLoop t).
  - destruct (lbs !! d) as [bound|]; [|discriminate].
    destruct (negb _); [discriminate|].
    apply IH; cbn [tileSizes]; rewrite length_insert; lia.
  - destruct (lbs !! d) as [bound|]; [|discriminate].
    destruct (negb _); [discriminate|].
    destruct (getValue t (stBuilder st)) as [stepValue b1].
    destruct (distributedWith di its d) as [distributed|]; [|discriminate].
    set (bnds := match distributed with
                 | Some front => _
                 | None => _ end).
    clearbody bnds. destruct bnds as [[[lb ub] step] b2].
    unfold createForOp.
    cbn [stBuilder tileSizes offsets withBuilder].
    destruct (tileSizes st !! d) as [declared|]; [|discriminate].
    destruct (getValue declared (mkBuilder (S (nextId b2)) []))
      as [tileSizeValue b3].
    unfold create at 1.
    match goal with
    | |- context [tileLinalgExtOpImpl fuel ?a ?b ?c ?e ?f ?g ?h] =>
        pose proof (IH a b c e f g h) as Hinner;
        destruct (tileLinalgExtOpImpl fuel a b c e f g h)
          as [[inner|e0|w|] st4]
    end; cbn; try discriminate.
    apply Hinner; cbn [tileSizes]; rewrite length_insert; lia.
Qed.

Lemma tileLinalgExtOp_fuel (op : LinalgExtOp) (options : LinalgTilingOptions)
  (b : OpBuilder) :
  fst (tileLinalgExtOp op options b) <> OutOfFuel.
Proof.
  unfold tileLinalgExtOp.
  destruct (asTiledOpInterface op) as [tilableOp|]; [|discriminate].
  destruct (tileSizeComputationFunction _ _ _) as [vals b1].
  set (ts := resize _ _ _). clearbody ts.
  assert (Hv : verifyNonParallelUntiled (opId (getOperation op)) ts 0
                 (getLoopIteratorTypes tilableOp) <> OutOfFuel).
  { generalize 0%nat.
    induction (getLoopIteratorTypes tilableOp) as [|it rest IH];
      intros index; cbn; [discriminate|].
    destruct (String.eqb it _); [apply IH|].
    destruct (ts !! index) as [ti|]; [|discriminate].
    destruct (negb _); [discriminate | apply IH]. }
  destruct (verifyNonParallelUntiled _ ts 0 _); cbn; try congruence.
  destruct (forallb isUntiledLoop ts); [discriminate|].
  destruct (getLoopBounds tilableOp b1) as [lbs b2].
  assert (Himpl : forall info b3,
    fst (let (result, st) :=
           tileLinalgExtOpImpl (length ts) tilableOp (outputs op)
             (getLoopIteratorTypes tilableOp) lbs 0 info (mkState b3 ts [])
         in (result, stBuilder st)) <> OutOfFuel).
  { intros info b3.
    pose proof (tileLinalgExtOpImpl_fuel (length ts) tilableOp (outputs op)
                  (getLoopIteratorTypes tilableOp) lbs 0 info
                  (mkState b3 ts [])) as H.
    destruct (tileLinalgExtOpImpl _ _ _ _ _ _ _ _) as [res st'].
    cbn in *. apply H; lia. }
  destruct (distribution options) as [dopts|]; [|apply Himpl].
  assert (Hc : forall indices acc,
            collectDistributedLoopRange ts (getLoopIteratorTypes tilableOp)
              lbs indices acc <> OutOfFuel).
  { induction indices as [|i rest IH]; intros acc; cbn; [discriminate|].
    destruct (ts !! i) as [ti|]; [|discriminate].
    destruct (isUntiledLoop ti); [apply IH|].
    destruct (_ !! i) as [it|]; [|discriminate].
    destruct (negb _); [apply IH|].
    destruct (lbs !! i); [apply IH | discriminate]. }
  specialize (Hc (seq 0 (length ts)) []).
  destruct (collectDistributedLoopRange _ _ _ _ _) as [ranges|e|w|]; cbn;
    try congruence.
  destruct (procInfo dopts ranges b2) as [info b3]. apply Himpl.
Qed.

(** * Further properties *)

(** ** Which tile sizes are read *)

(** [resize] keeps the first [n] entries and pads with [x]. *)
Lemma lookup_resize {A : Type} (l : list A) (n i : nat) (x : A) :
  resize l n x !! i =
  if (i <? n)%nat
  then Some (match l !! i with Some y => y | None => x end)
  else None.
Proof.
  unfold resize.
  destruct (Nat.ltb_spec i n) as [Hin|Hin].
  - destruct (Nat.lt_ge_cases i (length l)) as [Hil|Hil].
    + rewrite lookup_app_l by (rewrite length_take; lia).
      rewrite lookup_take_lt by lia.
      destruct (lookup_lt_is_Some_2 l i Hil) as [y Hy]. rewrite Hy.
      reflexivity.
    + rewrite lookup_app_r by (rewrite length_take; lia).
      rewrite length_take, (lookup_ge_None_2 l i) by lia.
      rewrite lookup_replicate_2 by lia. reflexivity.
  - apply lookup_ge_None. rewrite length_app, length_take, length_replicate.
    lia.
Qed.

(** The actual tile sizes are equal when the computed sizes agree, as
    folded values, at the positions of the loops, an absent size counting
    as the zero attribute. *)
Lemma actualTileSizes_ext (tilableOp : TiledOpInterface)
  (options options' : LinalgTilingOptions) (b : OpBuilder) :
  (forall i,
      (i < length (getLoopIteratorTypes tilableOp))%nat ->
      match fst (tileSizeComputationFunction options
                   (interfaceOperation tilableOp) b) !! i with
      | Some v => getOpFoldResult v
      | None => OfrAttribute (getI64IntegerAttr 0)
      end =
      match fst (tileSizeComputationFunction options'
                   (interfaceOperation tilableOp) b) !! i with
      | Some v => getOpFoldResult v
      | None => OfrAttribute (getI64IntegerAttr 0)
      end) ->
  actualTileSizes tilableOp options b = actualTileSizes tilableOp options' b.
Proof.
  intros Hsame. apply list_eq. intros i.
  unfold actualTileSizes. rewrite !lookup_resize.
  destruct (Nat.ltb_spec i (length (getLoopIteratorTypes tilableOp)))
    as [Hin|Hin]; [|reflexivity].
  specialize (Hsame i Hin). unfold getOpFoldResults.
  change (map getOpFoldResult ?l) with (getOpFoldResult <$> l).
  rewrite !list_lookup_fmap.
  destruct (fst (tileSizeComputationFunction options _ b) !! i);
    destruct (fst (tileSizeComputationFunction options' _ b) !! i);
    cbn [fmap option_fmap option_map]; f_equal; exact Hsame.
Qed.

(** X1: [tileLinalgExtOp] reads the computed tile sizes at the positions
    of the loops of the operation only, as folded values, and reads a size
    that is not there as the constant zero.  Two runs on the same builder
    whose options distribute alike, and whose size computations leave the
    same builder and agree in this way on every loop, are the same run:
    sizes given beyond the number of loops are ignored, and a loop with no
    size given is handled as one with size zero. *)
Theorem tileLinalgExtOp_sizes_resized (op : LinalgExtOp)
  (options options' : LinalgTilingOptions) (b : OpBuilder)
  (tilableOp : TiledOpInterface) :
  asTiledOpInterface op = Some tilableOp ->
  distribution options = distribution options' ->
  snd (tileSizeComputationFunction options (interfaceOperation tilableOp) b)
  = snd (tileSizeComputationFunction options'
           (interfaceOperation tilableOp) b) ->
  (forall i,
      (i < length (getLoopIteratorTypes tilableOp))%nat ->
      match fst (tileSizeComputationFunction options
                   (interfaceOperation tilableOp) b) !! i with
      | Some v => getOpFoldResult v
      | None => OfrAttribute (getI64IntegerAttr 0)
      end =
      match fst (tileSizeComputationFunction options'
                   (interfaceOperation tilableOp) b) !! i with
      | Some v => getOpFoldResult v
      | None => OfrAttribute (getI64IntegerAttr 0)
      end) ->
  tileLinalgExtOp op options b = tileLinalgExtOp op options' b.
Proof.
  intros Hi Hd Hb Hsame.
  rewrite (tileLinalgExtOp_tileable op options b tilableOp Hi).
  rewrite (tileLinalgExtOp_tileable op options' b tilableOp Hi).
  cbv zeta.
  rewrite (actualTileSizes_ext tilableOp options options' b Hsame).
  unfold builderAfterTileSizes. rewrite Hb, Hd. reflexivity.
Qed.

Lemma tileLinalgExtOp_sizes_resized_witness :
  tileLinalgExtOp Sample.sort3
    (Scenario.fixedSizes
       [Sample.constIndex 1 10; Sample.constIndex 2 0;
        Sample.constIndex 3 30; Sample.constIndex 4 7])
    Sample.emptyBuilder =
  tileLinalgExtOp Sample.sort3
    (Scenario.fixedSizes
       [Sample.constIndex 1 10; Sample.constIndex 2 0;
        Sample.constIndex 3 30])
    Sample.emptyBuilder.
Proof.
  apply (tileLinalgExtOp_sizes_resized Sample.sort3
           (Scenario.fixedSizes
              [Sample.constIndex 1 10; Sample.constIndex 2 0;
               Sample.constIndex 3 30; Sample.constIndex 4 7])
           (Scenario.fixedSizes
              [Sample.constIndex 1 10; Sample.constIndex 2 0;
               Sample.constIndex 3 30])
           Sample.emptyBuilder Sample.sortInterface
           eq_refl eq_refl eq_refl).
  intros i Hi. destruct i as [|[|[|i]]]; try reflexivity.
  cbn in Hi. lia.
Defined.

(** ** Only parallel loops are tiled *)

(** The check of lines 233-239 passes only when every tiled dimension is
    parallel. *)
Lemma verifyNonParallelUntiled_success (opNumber : nat)
  (ts : list OpFoldResult) (iteratorTypes : list string) :
  forall index,
    verifyNonParallelUntiled opNumber ts index iteratorTypes = success ->
    forall j, isTiledAt ts (index + j) = true ->
              (j < length iteratorTypes)%nat ->
              isParallel iteratorTypes j = true.
Proof.
  induction iteratorTypes as [|it rest IH]; intros index Hv j Ht Hj;
    cbn in Hj; [lia|].
  cbn [verifyNonParallelUntiled] in Hv.
  destruct j as [|j].
  - unfold isParallel. cbn [lookup list_lookup].
    destruct (String.eqb it getParallelIteratorTypeName); [reflexivity|].
    unfold isTiledAt in Ht. rewrite Nat.add_0_r in Ht.
    destruct (ts !! index) as [t|]; [|discriminate].
    destruct (isUntiledLoop t); discriminate.
  - assert (Hrest : verifyNonParallelUntiled opNumber ts (S index) rest
                    = success).
    { destruct (String.eqb it getParallelIteratorTypeName); [exact Hv|].
      destruct (ts !! index) as [t|]; [|discriminate].
      destruct (isUntiledLoop t); [exact Hv | discriminate]. }
    unfold isParallel. cbn [lookup list_lookup].
    apply (IH (S index) Hrest j); [|lia].
    rewrite <- Ht. f_equal. lia.
Qed.

(** X2: a run of [tileLinalgExtOp] that succeeds has tiled parallel
    dimensions only; the dimensions that are tiled and parallel, which are
    the ones handed to the distribution, are then all the tiled
    dimensions. *)
Theorem tileLinalgExtOp_tiles_parallel_only (op : LinalgExtOp)
  (options : LinalgTilingOptions) (b : OpBuilder)
  (tilableOp : TiledOpInterface) (r : TiledOp.t) (b' : OpBuilder) :
  asTiledOpInterface op = Some tilableOp ->
  tileLinalgExtOp op options b = (Success r, b') ->
  let ts := actualTileSizes tilableOp options b in
  let its := getLoopIteratorTypes tilableOp in
  (forall i, isTiledAt ts i = true -> isParallel its i = true) /\
  distributedDims its ts = tiledDims ts.
Proof.
  intros Hi Hrun ts its.
  assert (Hpar : forall i, isTiledAt ts i = true -> isParallel its i = true).
  { intros i Ht.
    rewrite (tileLinalgExtOp_tileable op options b tilableOp Hi) in Hrun.
    cbv zeta in Hrun. fold ts its in Hrun.
    destruct (verifyNonParallelUntiled _ ts 0 its) as [[]| | |] eqn:Hv;
      try discriminate.
    apply (verifyNonParallelUntiled_success _ _ _ 0 Hv i Ht).
    unfold isTiledAt in Ht.
    destruct (ts !! i) as [t|] eqn:Hti; [|discriminate].
    apply lookup_lt_Some in Hti.
    unfold ts in Hti. rewrite length_actualTileSizes in Hti. exact Hti. }
  split; [exact Hpar|].
  unfold distributedDims. rewrite tiledDims_filter.
  rewrite filter_filter. apply filter_ext_in.
  intros i _. destruct (isTiledAt ts i) eqn:Ht; [|reflexivity].
  rewrite (Hpar i Ht). reflexivity.
Qed.

Lemma tileLinalgExtOp_tiles_parallel_only_witness :
  fst Sample.distributedRun = Success Sample.distributedResult /\
  distributedDims ["parallel"; "reduction"; "parallel"]
    (actualTileSizes Sample.sortInterface Sample.distributedOptions
       Sample.emptyBuilder) =
  tiledDims
    (actualTileSizes Sample.sortInterface Sample.distributedOptions
       Sample.emptyBuilder).
Proof.
  assert (Hrun :
    tileLinalgExtOp Sample.sort3 Sample.distributedOptions Sample.emptyBuilder
    = (Success Sample.distributedResult, snd Sample.distributedRun))
    by (vm_compute; reflexivity).
  split; [vm_compute; reflexivity|].
  exact (proj2 (tileLinalgExtOp_tiles_parallel_only Sample.sort3
                  Sample.distributedOptions Sample.emptyBuilder
                  Sample.sortInterface Sample.distributedResult
                  (snd Sample.distributedRun) eq_refl Hrun)).
Defined.

(** ** The errors of tiling *)

(** The write-back loop reports no failure of its own. *)
Lemma insertResults_no_failure (outs : list Value)
  (ro : list (list OpFoldResult)) (rs : list Value) :
  forall index acc b d,
    fst (insertResults outs ro index rs acc b) <> Failure d.
Proof.
  induction rs as [|result rest IH]; intros index acc b d; cbn;
    [discriminate|].
  destruct (ro !! index); [|discriminate].
  destruct (negb _); [discriminate|].
  destruct (getDims _ _ _) as [sizes b1].
  destruct (outs !! index); [|discriminate].
  apply IH.
Qed.

(** The one failure of the innermost step. *)
Lemma tileInnermost_failure (op : TiledOpInterface) (outs : list Value)
  (st : TilingState) (d : Diagnostic) :
  fst (tileInnermost op outs st) = Failure d ->
  d = OpError (opId (interfaceOperation op))
        "failed to get tiled implementation".
Proof.
  unfold tileInnermost.
  destruct (getTiledImplementation _ _ _ _ _) as [[[tiled|] ro] b1].
  2: { cbn. congruence. }
  destruct (negb _); [discriminate|].
  destruct (getNumResults tiled =? 0)%nat; [discriminate|].
  pose proof (insertResults_no_failure outs ro (getResults tiled) 0 [] b1)
    as H.
  destruct (insertResults _ _ _ _ _ _) as [[results|e|w|] b2]; cbn in *;
    try discriminate.
  intros _. exfalso. eapply H. reflexivity.
Qed.

(** The two failures of the generator. *)
Lemma tileLinalgExtOpImpl_failure (fuel : nat) :
  forall op outs its lbs d di st diag,
    fst (tileLinalgExtOpImpl fuel op outs its lbs d di st) = Failure diag ->
    diag = OpError (opId (interfaceOperation op)) "expected stride to be 1"
    \/ diag = OpError (opId (interfaceOperation op))
                "failed to get tiled implementation".
Proof.
  induction fuel as [|fuel IH]; intros op outs its lbs d di st diag;
    cbn [tileLinalgExtOpImpl];
    destruct (d =? length (tileSizes st))%nat;
    try (intros H; right; eapply tileInnermost_failure; exact H);
    [discriminate|].
  destruct (tileSizes st !! d) as [t|]; [|discriminate].
  destruct (isUntiledLoop t).
  - destruct (lbs !! d) as [bound|]; [|discriminate].
    destruct (negb _); [discriminate|]. apply IH.
  - destruct (lbs !! d) as [bound|]; [|discriminate].
    destruct (negb _); [cbn; intros [= <-]; left; reflexivity|].
    destruct (getValue t (stBuilder st)) as [stepValue b1].
    destruct (distributedWith di its d) as [distributed|]; [|discriminate].
    set (bnds := match distributed with
                 | Some front => _
                 | None => _ end).
    clearbody bnds. destruct bnds as [[[lb ub] step] b2].
    unfold createForOp.
    cbn [stBuilder tileSizes offsets withBuilder].
    destruct (tileSizes st !! d) as [declared|]; [|discriminate].
    destruct (getValue declared (mkBuilder (S (nextId b2)) []))
      as [tileSizeValue b3].
    unfold create at 1.
    match goal with
    | |- context [tileLinalgExtOpImpl fuel ?a ?b ?c ?e ?f ?g ?h] =>
        pose proof (IH a b c e f g h diag) as Hinner;
        destruct (tileLinalgExtOpImpl fuel a b c e f g h)
          as [[inner|e0|w|] st4]
    end; cbn; try discriminate.
    intros [= ->]. apply Hinner. reflexivity.
Qed.

(** X3: [tileLinalgExtOp] reports a failure on tileable operations only,
    and the error is one of three: the one on a tiled loop that is not
    parallel, emitted on the operation, or the one on a stride or the one on
    a missing tiled implementation, emitted through the interface. *)
Theorem tileLinalgExtOp_failures (op : LinalgExtOp)
  (options : LinalgTilingOptions) (b : OpBuilder) (diag : Diagnostic) :
  fst (tileLinalgExtOp op options b) = Failure diag ->
  exists tilableOp,
    asTiledOpInterface op = Some tilableOp /\
    (diag = OpError (opId (getOperation op))
              "unimplemented tiling of non-parallel loop iterator type" \/
     diag = OpError (opId (interfaceOperation tilableOp))
              "expected stride to be 1" \/
     diag = OpError (opId (interfaceOperation tilableOp))
              "failed to get tiled implementation").
Proof.
  intros Hrun.
  destruct (asTiledOpInterface op) as [tilableOp|] eqn:Hi.
  2: { unfold tileLinalgExtOp in Hrun. rewrite Hi in Hrun. discriminate. }
  exists tilableOp. split; [reflexivity|].
  rewrite (tileLinalgExtOp_tileable op options b tilableOp Hi) in Hrun.
  cbv zeta in Hrun.
  set (ts := actualTileSizes tilableOp options b) in *. clearbody ts.
  destruct (verifyNonParallelUntiled _ ts 0 _) as [[]|e|w|] eqn:Hv;
    try discriminate.
  2: { left. cbn in Hrun. injection Hrun as <-.
       clear - Hv. revert Hv. generalize 0%nat.
       induction (getLoopIteratorTypes tilableOp) as [|it rest IH];
         intros index Hv; cbn in Hv; [discriminate|].
       destruct (String.eqb it _); [eauto|].
       destruct (ts !! index) as [ti|]; [|discriminate].
       destruct (isUntiledLoop ti); cbn in Hv; [eauto|congruence]. }
  right.
  destruct (forallb isUntiledLoop ts); [discriminate|].
  destruct (getLoopBounds tilableOp _) as [lbs b2].
  assert (Himpl : forall info b3,
    fst (let (result, st) :=
           tileLinalgExtOpImpl (length ts) tilableOp (outputs op)
             (getLoopIteratorTypes tilableOp) lbs 0 info (mkState b3 ts [])
         in (result, stBuilder st)) = Failure diag ->
    diag = OpError (opId (interfaceOperation tilableOp))
             "expected stride to be 1" \/
    diag = OpError (opId (interfaceOperation tilableOp))
             "failed to get tiled implementation").
  { intros info b3 H.
    apply (tileLinalgExtOpImpl_failure (length ts) tilableOp (outputs op)
             (getLoopIteratorTypes tilableOp) lbs 0 info (mkState b3 ts [])).
    destruct (tileLinalgExtOpImpl _ _ _ _ _ _ _ _). exact H. }
  destruct (distribution options) as [dopts|]; [|apply (Himpl _ _ Hrun)].
  assert (Hc : forall indices acc e,
            collectDistributedLoopRange ts (getLoopIteratorTypes tilableOp)
              lbs indices acc <> Failure e).
  { induction indices as [|i rest IH]; intros acc e; cbn; [discriminate|].
    destruct (ts !! i) as [ti|]; [|discriminate].
    destruct (isUntiledLoop ti); [apply IH|].
    destruct (_ !! i) as [it|]; [|discriminate].
    destruct (negb _); [apply IH|].
    destruct (lbs !! i); [apply IH | discriminate]. }
  specialize (Hc (seq 0 (length ts)) []).
  destruct (collectDistributedLoopRange _ _ _ _ _) as [ranges|e|w|];
    try discriminate.
  - destruct (procInfo dopts ranges b2) as [info b3].
    apply (Himpl _ _ Hrun).
  - exfalso. eapply Hc. reflexivity.
Qed.

Lemma tileLinalgExtOp_failures_witness :
  exists tilableOp,
    asTiledOpInterface Scenario.unimplemented = Some tilableOp /\
    (OpError 1 "failed to get tiled implementation" =
       OpError (opId (getOperation Scenario.unimplemented))
         "unimplemented tiling of non-parallel loop iterator type" \/
     OpError 1 "failed to get tiled implementation" =
       OpError (opId (interfaceOperation tilableOp))
         "expected stride to be 1" \/
     OpError 1 "failed to get tiled implementation" =
       OpError (opId (interfaceOperation tilableOp))
         "failed to get tiled implementation").
Proof.
  assert (Hrun :
    fst (tileLinalgExtOp Scenario.unimplemented (Sample.setTileSizes [10])
           Sample.emptyBuilder) =
    Failure (OpError 1 "failed to get tiled implementation"))
    by (vm_compute; reflexivity).
  exact (tileLinalgExtOp_failures Scenario.unimplemented
           (Sample.setTileSizes [10]) Sample.emptyBuilder _ Hrun).
Defined.

(** A successful run on a tileable operation returns an operation; on
    any other it returns the empty result and builds nothing. *)
Lemma tileLinalgExtOp_success_op (op : LinalgExtOp)
  (options : LinalgTilingOptions) (b : OpBuilder) (r : TiledOp.t)
  (b' : OpBuilder) :
  tileLinalgExtOp op options b = (Success r, b') ->
  match asTiledOpInterface op with
  | Some _ => exists tiled, TiledOp.op r = Some tiled
  | None => r = TiledOp.empty /\ b' = b
  end.
Proof.
  intros Hrun.
  destruct (asTiledOpInterface op) as [tilableOp|] eqn:Hi.
  - destruct (tileLinalgExtOp_success _ _ _ _ _ _ Hi Hrun)
      as [[_ ->]|(_ & info & b3 & st' & Himpl & _ & _)];
      [eexists; reflexivity|].
    destruct (tileLinalgExtOpImpl_nest _ _ _ _ _ _ _ _ _ _ Himpl)
      as (sizes & offs & _ & _ & _ & _ & Hleaf); [cbn; lia|].
    destruct Hleaf as (outs' & bL & tiled & ro & bL' & _ & Hop).
    eauto.
  - unfold tileLinalgExtOp in Hrun. rewrite Hi in Hrun.
    injection Hrun as <- <-. split; reflexivity.
Qed.

(** X13: for an operation whose interface never gives a tiled
    implementation, [tileLinalgExtOp] succeeds only through the early exit:
    all tile sizes are statically zero and the operation is returned as it
    is, without loops or results. *)
Theorem tileLinalgExtOp_no_implementation (op : LinalgExtOp)
  (options : LinalgTilingOptions) (b : OpBuilder)
  (tilableOp : TiledOpInterface) (r : TiledOp.t) (b' : OpBuilder) :
  asTiledOpInterface op = Some tilableOp ->
  (forall outs offs sizes bL,
      fst (fst (getTiledImplementation tilableOp outs offs sizes bL))
        = None) ->
  tileLinalgExtOp op options b = (Success r, b') ->
  forallb isUntiledLoop (actualTileSizes tilableOp options b) = true /\
  r = TiledOp.make (Some (getOperation op)) [] [].
Proof.
  intros Hi Hnone Hrun.
  destruct (tileLinalgExtOp_success _ _ _ _ _ _ Hi Hrun)
    as [[Hall ->]|(_ & info & b3 & st' & Himpl & _ & _)];
    [split; [assumption|reflexivity]|].
  destruct (tileLinalgExtOpImpl_nest _ _ _ _ _ _ _ _ _ _ Himpl)
    as (sizes & offs & _ & _ & _ & _ & Hleaf); [cbn; lia|].
  destruct Hleaf as (outs' & bL & tiled & ro & bL' & Hcall & _).
  specialize (Hnone outs' (offsets st') (tileSizes st') bL).
  rewrite Hcall in Hnone. discriminate.
Qed.

Lemma tileLinalgExtOp_no_implementation_witness :
  forallb isUntiledLoop
    (actualTileSizes Scenario.noImplementation (Sample.setTileSizes [0])
       Sample.emptyBuilder) = true /\
  Sample.resultOf
    (fst (tileLinalgExtOp Scenario.unimplemented (Sample.setTileSizes [0])
            Sample.emptyBuilder)) =
  TiledOp.make (Some Sample.bufferOperation) [] [].
Proof.
  assert (Hrun :
    tileLinalgExtOp Scenario.unimplemented (Sample.setTileSizes [0])
      Sample.emptyBuilder =
    (Success
       (Sample.resultOf
          (fst (tileLinalgExtOp Scenario.unimplemented
                  (Sample.setTileSizes [0]) Sample.emptyBuilder))),
     snd (tileLinalgExtOp Scenario.unimplemented (Sample.setTileSizes [0])
            Sample.emptyBuilder)))
    by (vm_compute; reflexivity).
  exact (tileLinalgExtOp_no_implementation Scenario.unimplemented
           (Sample.setTileSizes [0]) Sample.emptyBuilder
           Scenario.noImplementation _ _ eq_refl
           (fun _ _ _ _ => eq_refl) Hrun).
Defined.

(** ** Loop-carried values *)

(** A successful run of the generator threads the outputs through its
    loops. *)
Lemma tileLinalgExtOpImpl_threaded (fuel : nat) :
  forall op outs its lbs d di st r st',
    tileLinalgExtOpImpl fuel op outs its lbs d di st = (Success r, st') ->
    exists leafOuts stL stL' rL,
      tileInnermost op leafOuts stL = (Success rL, stL') /\
      TiledOp.op r = TiledOp.op rL /\
      Threaded (getNumResults (interfaceOperation op) =? 0)%nat outs
        (TiledOp.loops r) leafOuts (TiledOp.results rL) (TiledOp.results r).
Proof.
  induction fuel as [|fuel IH]; intros op outs its lbs d di st r st' Hrun;
    cbn [tileLinalgExtOpImpl] in Hrun;
    destruct (d =? length (tileSizes st))%nat.
  1,3: pose proof (tileInnermost_success _ _ _ _ _ Hrun) as (Hl & _);
       exists outs, st, st', r; rewrite Hl;
       repeat split; auto; constructor.
  - discriminate.
  - destruct (tileSizes st !! d) as [t|] eqn:Ht; [|discriminate].
    destruct (isUntiledLoop t).
    + destruct (lbs !! d) as [bound|]; [|discriminate].
      destruct (negb _); [discriminate|].
      eapply IH. exact Hrun.
    + destruct (lbs !! d) as [bound|]; [|discriminate].
      destruct (negb _); [discriminate|].
      destruct (getValue t (stBuilder st)) as [stepValue b1].
      destruct (distributedWith di its d) as [distributed|]; [|discriminate].
      set (bnds := match distributed with
                   | Some front => _
                   | None => _ end) in Hrun.
      clearbody bnds. destruct bnds as [[[lb ub] step] b2].
      unfold createForOp in Hrun.
      cbn [stBuilder tileSizes offsets withBuilder] in Hrun.
      rewrite Ht in Hrun.
      destruct (getValue t (mkBuilder (S (nextId b2)) []))
        as [tileSizeValue b3].
      unfold create at 1 in Hrun.
      match type of Hrun with
      | context [tileLinalgExtOpImpl fuel ?a ?b ?c ?e ?f ?g ?h] =>
          destruct (tileLinalgExtOpImpl fuel a b c e f g h)
            as [inner st4] eqn:Hinner
      end.
      destruct inner as [inner| | |]; try discriminate.
      unfold create in Hrun. cbn in Hrun.
      injection Hrun as <- <-.
      apply IH in Hinner.
      destruct Hinner as (leafOuts & stL & stL' & rL & Hleaf & Hop & Hth).
      exists leafOuts, stL, stL', rL.
      cbn [TiledOp.op TiledOp.loops TiledOp.results].
      split; [exact Hleaf|]. split; [exact Hop|].
      apply threaded_loop.
      destruct (getNumResults (interfaceOperation op) =? 0)%nat; exact Hth.
Qed.

(** What the loops of a threaded nest yield. *)
Lemma Threaded_yields (isBufferTiling : bool) (outs : list Value)
  (loops : list Operation) (leafOuts leafResults results : list Value) :
  Threaded isBufferTiling outs loops leafOuts leafResults results ->
  results = match loops with
            | outermost :: _ => getResults outermost
            | [] => leafResults
            end /\
  forall k outer,
    loops !! k = Some outer ->
    exists pre yieldId,
      forBody outer =
        pre ++ [YieldOp yieldId
                  (match loops !! S k with
                   | Some inner => getResults inner
                   | None => leafResults
                   end)].
Proof.
  induction 1 as [outs results
                 | outs forId lb ub step pre yieldId loops leafOuts
                     leafResults innerResults Hth [IHres IHk]].
  - split; [reflexivity | intros k outer H; discriminate].
  - split; [reflexivity|].
    intros [|k] outer Hk; cbn in Hk.
    + injection Hk as <-. exists pre, yieldId. cbn [forBody]. rewrite IHres.
      destruct loops; reflexivity.
    + destruct (IHk k outer Hk) as (pre' & y' & Hbody).
      exists pre', y'. exact Hbody.
Qed.

(** What the loops of a threaded nest are initialised with. *)
Lemma Threaded_initArgs (isBufferTiling : bool) (outs : list Value)
  (loops : list Operation) (leafOuts leafResults results : list Value) :
  Threaded isBufferTiling outs loops leafOuts leafResults results ->
  (forall k forId lb ub step inits tys body,
      loops !! k = Some (ForOp forId lb ub step inits tys body) ->
      tys = map getType inits /\
      inits =
        if isBufferTiling then []
        else match k with
             | O => outs
             | S k' =>
                 match loops !! k' with
                 | Some outer =>
                     getRegionIterArgs (opId outer) (forInitArgs outer)
                 | None => []
                 end
             end) /\
  leafOuts =
    if isBufferTiling then outs
    else match last loops with
         | Some innermost =>
             getRegionIterArgs (opId innermost) (forInitArgs innermost)
         | None => outs
         end.
Proof.
  induction 1 as [outs results
                 | outs forId lb ub step pre yieldId loops leafOuts
                     leafResults innerResults Hth [IHk IHleaf]].
  - split; [intros; discriminate|]. destruct isBufferTiling; reflexivity.
  - split.
    + intros [|k] fid lb' ub' step' inits tys body Hk; cbn in Hk.
      * injection Hk as <- <- <- <- <- <- <-.
        split; [reflexivity|]. destruct isBufferTiling; reflexivity.
      * destruct (IHk k _ _ _ _ _ _ _ Hk) as [Htys Hinits].
        split; [exact Htys|]. rewrite Hinits.
        destruct isBufferTiling; [reflexivity|].
        destruct k as [|k]; [reflexivity|]. reflexivity.
    + rewrite IHleaf. destruct isBufferTiling; [reflexivity|].
      destruct loops as [|L loops']; [reflexivity|].
      cbn [last]. destruct (last (L :: loops')) eqn:Hlast; [reflexivity|].
      rewrite last_None in Hlast. discriminate.
Qed.

(** X4: in a successful run of the generator every loop body ends with a
    yield; the innermost loop yields the results of the innermost step,
    every other loop yields the results of the loop it holds, and the
    results returned are those of the outermost loop, or those of the
    innermost step when no loop was emitted. *)
Theorem tileLinalgExtOpImpl_yields (fuel : nat) (op : TiledOpInterface)
  (outs : list Value) (its : list string) (lbs : list Range.t) (d : nat)
  (di : list ProcInfo) (st : TilingState) (r : TiledOp.t)
  (st' : TilingState) :
  tileLinalgExtOpImpl fuel op outs its lbs d di st = (Success r, st') ->
  exists leafOuts stL stL' rL,
    tileInnermost op leafOuts stL = (Success rL, stL') /\
    TiledOp.op r = TiledOp.op rL /\
    TiledOp.results r =
      match TiledOp.loops r with
      | outermost :: _ => getResults outermost
      | [] => TiledOp.results rL
      end /\
    forall k outer,
      TiledOp.loops r !! k = Some outer ->
      exists pre yieldId,
        forBody outer =
          pre ++ [YieldOp yieldId
                    (match TiledOp.loops r !! S k with
                     | Some inner => getResults inner
                     | None => TiledOp.results rL
                     end)].
Proof.
  intros Hrun.
  destruct (tileLinalgExtOpImpl_threaded _ _ _ _ _ _ _ _ _ _ Hrun)
    as (leafOuts & stL & stL' & rL & Hleaf & Hop & Hth).
  exists leafOuts, stL, stL', rL.
  destruct (Threaded_yields _ _ _ _ _ _ Hth) as [Hres Hbody].
  repeat split; assumption.
Qed.

Lemma tileLinalgExtOpImpl_yields_witness :
  fst Scenario.scatter2Impl =
    Success (Sample.resultOf (fst Scenario.scatter2Impl)) /\
  exists leafOuts stL stL' rL,
    tileInnermost Scenario.scatter2Interface leafOuts stL
      = (Success rL, stL') /\
    TiledOp.op (Sample.resultOf (fst Scenario.scatter2Impl))
      = TiledOp.op rL.
Proof.
  assert (Hrun :
    tileLinalgExtOpImpl 2 Scenario.scatter2Interface [Sample.tensor2]
      ["parallel"; "parallel"]
      [Sample.bound 100 1; Sample.bound 50 1] 0 [] Scenario.scatter2State =
    (Success (Sample.resultOf (fst Scenario.scatter2Impl)),
     snd Scenario.scatter2Impl))
    by (vm_compute; reflexivity).
  split; [vm_compute; reflexivity|].
  destruct (tileLinalgExtOpImpl_yields _ _ _ _ _ _ _ _ _ _ Hrun)
    as (leafOuts & stL & stL' & rL & Hleaf & Hop & _).
  exists leafOuts, stL, stL', rL. split; assumption.
Defined.

(** X5: when the operation has results, the outermost loop of a
    successful run is initialised with the outputs, every other loop with
    the region arguments of the loop around it, and the innermost step runs
    on the region arguments of the innermost loop.  When the operation has
    no results the loops carry no values and the innermost step runs on the
    outputs themselves.  The types a loop carries are those of its initial
    values. *)
Theorem tileLinalgExtOpImpl_iter_args (fuel : nat) (op : TiledOpInterface)
  (outs : list Value) (its : list string) (lbs : list Range.t) (d : nat)
  (di : list ProcInfo) (st : TilingState) (r : TiledOp.t)
  (st' : TilingState) :
  tileLinalgExtOpImpl fuel op outs its lbs d di st = (Success r, st') ->
  let isBufferTiling := (getNumResults (interfaceOperation op) =? 0)%nat in
  (forall k forId lb ub step inits tys body,
      TiledOp.loops r !! k = Some (ForOp forId lb ub step inits tys body) ->
      tys = map getType inits /\
      inits =
        if isBufferTiling then []
        else match k with
             | O => outs
             | S k' =>
                 match TiledOp.loops r !! k' with
                 | Some outer =>
                     getRegionIterArgs (opId outer) (forInitArgs outer)
                 | None => []
                 end
             end) /\
  exists stL stL' rL,
    tileInnermost op
      (if isBufferTiling then outs
       else match last (TiledOp.loops r) with
            | Some innermost =>
                getRegionIterArgs (opId innermost) (forInitArgs innermost)
            | None => outs
            end)
      stL = (Success rL, stL') /\
    TiledOp.op r = TiledOp.op rL.
Proof.
  intros Hrun isBufferTiling.
  destruct (tileLinalgExtOpImpl_threaded _ _ _ _ _ _ _ _ _ _ Hrun)
    as (leafOuts & stL & stL' & rL & Hleaf & Hop & Hth).
  destruct (Threaded_initArgs _ _ _ _ _ _ Hth) as [Hinits Hleafouts].
  split; [exact Hinits|].
  exists stL, stL', rL. fold isBufferTiling in Hleafouts.
  rewrite <- Hleafouts. split; assumption.
Qed.

Lemma tileLinalgExtOpImpl_iter_args_witness :
  fst Scenario.scatter2Impl =
    Success (Sample.resultOf (fst Scenario.scatter2Impl)) /\
  exists stL stL' rL,
    tileInnermost Scenario.scatter2Interface
      (if (getNumResults (interfaceOperation Scenario.scatter2Interface)
           =? 0)%nat
       then [Sample.tensor2]
       else match
              last (TiledOp.loops
                      (Sample.resultOf (fst Scenario.scatter2Impl)))
            with
            | Some innermost =>
                getRegionIterArgs (opId innermost) (forInitArgs innermost)
            | None => [Sample.tensor2]
            end)
      stL = (Success rL, stL') /\
    TiledOp.op (Sample.resultOf (fst Scenario.scatter2Impl))
      = TiledOp.op rL.
Proof.
  assert (Hrun :
    tileLinalgExtOpImpl 2 Scenario.scatter2Interface [Sample.tensor2]
      ["parallel"; "parallel"]
      [Sample.bound 100 1; Sample.bound 50 1] 0 [] Scenario.scatter2State =
    (Success (Sample.resultOf (fst Scenario.scatter2Impl)),
     snd Scenario.scatter2Impl))
    by (vm_compute; reflexivity).
  split; [vm_compute; reflexivity|].
  exact (proj2 (tileLinalgExtOpImpl_iter_args _ _ _ _ _ _ _ _ _ _ Hrun)).
Defined.

(** ** The innermost level *)

(** One size per dimension asked for. *)
Lemma length_getDims (v : Value) (dims : list nat) (b : OpBuilder) :
  length (fst (getDims v dims b)) = length dims.
Proof.
  revert b. induction dims as [|dim rest IH]; intros b; cbn [getDims];
    [reflexivity|].
  destruct (getDim v dim b) as [s b1].
  specialize (IH b1). destruct (getDims v rest b1) as [ss b2]. cbn in *.
  rewrite IH. reflexivity.
Qed.

(** What the write-back loop of lines 138-150 returns. *)
Lemma insertResults_spec (outs : list Value)
  (ro : list (list OpFoldResult)) (rs : list Value) :
  forall index acc b res b',
    insertResults outs ro index rs acc b = (Success res, b') ->
    exists new,
      res = acc ++ new /\
      length new = length rs /\
      forall j result,
        rs !! j = Some result ->
        exists id out offs sizes,
          new !! j =
            Some (OpResult
                    (InsertSliceOp id result out offs sizes
                       (replicate (getRank (getType result))
                          (OfrAttribute (getI64IntegerAttr 1)))
                       (getType out)) 0) /\
          outs !! (index + j)%nat = Some out /\
          ro !! (index + j)%nat = Some offs /\
          isShapedType (getType result) = true /\
          length sizes = getRank (getType result).
Proof.
  induction rs as [|result rest IH]; intros index acc b res b' H; cbn in H.
  - injection H as <- <-. exists []. rewrite app_nil_r.
    repeat split. intros j x Hj. discriminate.
  - destruct (ro !! index) as [offs|] eqn:Hro; [|discriminate].
    destruct (isShapedType (getType result)) eqn:Hshaped; [|discriminate].
    cbn [negb] in H.
    pose proof (length_getDims result
                  (seq 0 (getRank (getType result))) b) as Hlen.
    destruct (getDims result _ b) as [sizes b1]. cbn [fst] in Hlen.
    rewrite length_seq in Hlen.
    destruct (outs !! index) as [out|] eqn:Hout; [|discriminate].
    unfold create in H.
    apply IH in H. destruct H as (new & -> & Hnew & Hall).
    eexists (_ :: new). rewrite <- app_assoc. split; [reflexivity|].
    split; [cbn; lia|].
    intros [|j] x Hj; cbn in Hj.
    + injection Hj as <-. rewrite Nat.add_0_r.
      do 4 eexists. split; [reflexivity|]. auto.
    + destruct (Hall j x Hj) as (id & out' & offs' & sizes' & H1 & H2 & H3
                                 & H4 & H5).
      exists id, out', offs', sizes'. cbn [lookup list_lookup].
      replace (index + S j)%nat with (S index + j)%nat by lia. auto.
Qed.

(** X6: a successful innermost step has called the interface with the
    outputs, offsets and tile sizes it was entered with; it returns the
    tiled operation, no loop, and one result per result of the tiled
    operation.  Result [i] of the tiled operation is of shaped type and is
    inserted into output [i] at the [i]-th result offsets, with one size
    per dimension of the result and unit strides; the value returned is the
    result of that insertion.  When the tiled operation has no results,
    nothing is built after it. *)
Theorem tileInnermost_results (op : TiledOpInterface) (outs : list Value)
  (st : TilingState) (r : TiledOp.t) (st' : TilingState) :
  tileInnermost op outs st = (Success r, st') ->
  exists tiled resultOffsets b1,
    getTiledImplementation op outs (offsets st) (tileSizes st) (stBuilder st)
      = (Some tiled, resultOffsets, b1) /\
    TiledOp.op r = Some tiled /\
    TiledOp.loops r = [] /\
    length (TiledOp.results r) = getNumResults tiled /\
    (getNumResults tiled = 0%nat -> stBuilder st' = b1) /\
    forall i,
      (i < getNumResults tiled)%nat ->
      exists id out offs sizes,
        TiledOp.results r !! i =
          Some (OpResult
                  (InsertSliceOp id (OpResult tiled i) out offs sizes
                     (replicate (getRank (getType (OpResult tiled i)))
                        (OfrAttribute (getI64IntegerAttr 1)))
                     (getType out)) 0) /\
        outs !! i = Some out /\
        resultOffsets !! i = Some offs /\
        isShapedType (getType (OpResult tiled i)) = true /\
        length sizes = getRank (getType (OpResult tiled i)).
Proof.
  unfold tileInnermost.
  destruct (getTiledImplementation op outs (offsets st) (tileSizes st)
              (stBuilder st)) as [[tiledOp resultOffsets] b1].
  destruct tiledOp as [tiled|]; [|discriminate].
  destruct (negb _); [discriminate|].
  destruct (Nat.eqb_spec (getNumResults tiled) 0) as [Hz|Hnz].
  - intros [= <- <-]. exists tiled, resultOffsets, b1. cbn.
    repeat split; auto. intros i Hi. lia.
  - destruct (insertResults _ _ _ _ _ _) as [[results| | |] b2] eqn:Hins;
      try discriminate.
    intros [= <- <-]. exists tiled, resultOffsets, b1.
    cbn [TiledOp.op TiledOp.loops TiledOp.results].
    destruct (insertResults_spec _ _ _ _ _ _ _ _ Hins)
      as (new & -> & Hlen & Hall).
    cbn [app].
    unfold getResults in Hlen, Hall. rewrite length_map, length_seq in Hlen.
    repeat split; auto; [lia|].
    intros i Hi.
    destruct (Hall i (OpResult tiled i)) as (id & out & offs & sizes & H).
    { change (map (OpResult tiled)) with (fmap (M:=list) (OpResult tiled)).
      rewrite list_lookup_fmap, lookup_seq_lt by lia. reflexivity. }
    exists id, out, offs, sizes. exact H.
Qed.

Lemma tileInnermost_results_witness :
  fst Scenario.scatter2Leaf =
    Success (Sample.resultOf (fst Scenario.scatter2Leaf)) /\
  length (TiledOp.results (Sample.resultOf (fst Scenario.scatter2Leaf)))
    = 1%nat.
Proof.
  assert (Hrun :
    tileInnermost Scenario.scatter2Interface [Sample.tensor2]
      (mkState Sample.emptyBuilder
         [OfrAttribute (getI64IntegerAttr 10);
          OfrAttribute (getI64IntegerAttr 20)]
         [OfrAttribute (getI64IntegerAttr 0);
          OfrAttribute (getI64IntegerAttr 0)]) =
    (Success (Sample.resultOf (fst Scenario.scatter2Leaf)),
     snd Scenario.scatter2Leaf))
    by (vm_compute; reflexivity).
  split; [vm_compute; reflexivity|].
  destruct (tileInnermost_results _ _ _ _ _ Hrun)
    as (tiled & ro & b1 & Hcall & _ & _ & Hlen & _).
  rewrite Hlen. vm_compute in Hcall. injection Hcall as <- _ _.
  reflexivity.
Defined.

(** ** What the interface is called with *)

(** A loop nest fills one size and one offset per declared tile size. *)
Lemma LoopNest_lengths (its : list string) (lbs : list Range.t)
  (d : nat) (declared : list OpFoldResult) (info : list ProcInfo)
  (loops : list Operation) (sizes offs : list OpFoldResult) :
  LoopNest its lbs d declared info loops sizes offs ->
  length sizes = length declared /\ length offs = length declared.
Proof.
  induction 1; cbn; lia.
Qed.

(** X7: when [tileLinalgExtOp] succeeds with some dimension tiled, the
    operation it returns comes from a call of the interface with one offset
    and one size per loop of the operation.  For an untiled dimension these
    are the constant zero and the size of the dimension's bound.  For the
    [k]-th tiled dimension they are the induction variable of the [k]-th
    loop returned and the result of an [affine.min] of
    [inBoundsTileSizeMap] on that induction variable, the materialised
    tile size of the dimension and the upper bound of that loop. *)
Theorem tileLinalgExtOp_interface_call (op : LinalgExtOp)
  (options : LinalgTilingOptions) (b : OpBuilder)
  (tilableOp : TiledOpInterface) (r : TiledOp.t) (b' : OpBuilder) :
  asTiledOpInterface op = Some tilableOp ->
  tileLinalgExtOp op options b = (Success r, b') ->
  forallb isUntiledLoop (actualTileSizes tilableOp options b) = false ->
  exists outs offs sizes bL tiled resultOffsets bL',
    getTiledImplementation tilableOp outs offs sizes bL
      = (Some tiled, resultOffsets, bL') /\
    TiledOp.op r = Some tiled /\
    length offs = length (getLoopIteratorTypes tilableOp) /\
    length sizes = length (getLoopIteratorTypes tilableOp) /\
    forall i,
      (i < length (getLoopIteratorTypes tilableOp))%nat ->
      exists offset size,
        offs !! i = Some offset /\ sizes !! i = Some size /\
        (isTiledAt (actualTileSizes tilableOp options b) i = false ->
         offset = OfrAttribute (getI64IntegerAttr 0) /\
         exists bound,
           fetchedLoopBounds tilableOp options b !! i = Some bound /\
           size = getOpFoldResult (Range.size bound)) /\
        (isTiledAt (actualTileSizes tilableOp options b) i = true ->
         exists k t forId lb ub step inits tys body minId tileSizeValue,
           tiledDims (actualTileSizes tilableOp options b) !! k = Some i /\
           actualTileSizes tilableOp options b !! i = Some t /\
           TiledOp.loops r !! k =
             Some (ForOp forId lb ub step inits tys body) /\
           materializes t tileSizeValue /\
           offset = OfrValue (BlockArgument forId 0 IndexType) /\
           size =
             OfrValue
               (OpResult
                  (AffineMinOp minId inBoundsTileSizeMap
                     [BlockArgument forId 0 IndexType; tileSizeValue; ub])
                  0)).
Proof.
  intros Hi Hrun Hsome.
  destruct (tileLinalgExtOp_success _ _ _ _ _ _ Hi Hrun)
    as [[Hall _]|(_ & info & b3 & st' & Himpl & _ & _)]; [congruence|].
  destruct (tileLinalgExtOpImpl_nest _ _ _ _ _ _ _ _ _ _ Himpl)
    as (sizes & offs & Hts & Hoffs & Hnest & _ & Hleaf); [cbn; lia|].
  cbn [tileSizes offsets take app] in Hts, Hoffs, Hnest.
  rewrite drop_0 in Hnest.
  destruct Hleaf as (outs' & bL & tiled & ro & bL' & Hcall & Hop).
  rewrite Hts, Hoffs in Hcall.
  destruct (LoopNest_lengths _ _ _ _ _ _ _ _ Hnest) as [Hls Hlo].
  rewrite length_actualTileSizes in Hls, Hlo.
  exists outs', offs, sizes, bL, tiled, ro, bL'.
  repeat split; try assumption.
  intros i Hlt.
  destruct (lookup_lt_is_Some_2 offs i ltac:(lia)) as [offset Hoff].
  destruct (lookup_lt_is_Some_2 sizes i ltac:(lia)) as [size Hsz].
  exists offset, size. split; [assumption|]. split; [assumption|].
  set (ts := actualTileSizes tilableOp options b) in *.
  destruct (lookup_lt_is_Some_2 ts i) as [t Ht].
  { unfold ts. rewrite length_actualTileSizes. lia. }
  unfold isTiledAt. rewrite Ht.
  destruct (isUntiledLoop t) eqn:Hu; cbn [negb]; split;
    try discriminate; intros _.
  - destruct (LoopNest_untiled_dim _ _ _ _ _ _ _ _ Hnest i t Ht Hu)
      as (bound & Hb & _ & Hs & Ho).
    split; [congruence|]. exists bound. split; [exact Hb|congruence].
  - assert (Hin : In i (tiledDimsFrom 0 ts)).
    { rewrite tiledDimsFrom_filter. apply filter_In. split.
      - apply in_seq. unfold ts. rewrite length_actualTileSizes. lia.
      - unfold isTiledAt. rewrite Nat.sub_0_r, Ht, Hu. reflexivity. }
    apply list_elem_of_In, list_elem_of_lookup in Hin.
    destruct Hin as [k Hk].
    destruct (LoopNest_tiled_dim _ _ _ _ _ _ _ _ Hnest k i Hk)
      as (t' & bound & sv & tv & fid & lb & ub & step & ins & tys & bd & mid
          & H1 & H2 & H3 & H4 & H5 & H6 & H7 & H8 & H9 & H10).
    rewrite Nat.sub_0_r in H1, H9, H10. unfold inBoundsTileSizeOf in H9.
    exists k, t', fid, lb, ub, step, ins, tys, bd, mid, tv.
    repeat match goal with |- _ /\ _ => split end;
      try assumption; congruence.
Qed.

Lemma tileLinalgExtOp_interface_call_witness :
  fst Scenario.scatter2Run =
    Success (Sample.resultOf (fst Scenario.scatter2Run)) /\
  exists outs offs sizes bL tiled resultOffsets bL',
    getTiledImplementation Scenario.scatter2Interface outs offs sizes bL
      = (Some tiled, resultOffsets, bL') /\
    TiledOp.op (Sample.resultOf (fst Scenario.scatter2Run)) = Some tiled /\
    length offs = 2%nat /\ length sizes = 2%nat.
Proof.
  assert (Hrun :
    tileLinalgExtOp Scenario.scatter2 (Sample.setTileSizes [10; 20])
      Sample.emptyBuilder =
    (Success (Sample.resultOf (fst Scenario.scatter2Run)),
     snd Scenario.scatter2Run))
    by (vm_compute; reflexivity).
  assert (Hsome :
    forallb isUntiledLoop
      (actualTileSizes Scenario.scatter2Interface
         (Sample.setTileSizes [10; 20]) Sample.emptyBuilder) = false)
    by (vm_compute; reflexivity).
  split; [vm_compute; reflexivity|].
  destruct (tileLinalgExtOp_interface_call Scenario.scatter2
              (Sample.setTileSizes [10; 20]) Sample.emptyBuilder
              Scenario.scatter2Interface _ _ eq_refl Hrun Hsome)
    as (outs & offs & sizes & bL & tiled & ro & bL' & Hcall & Hop & Hlo
        & Hls & _).
  exists outs, offs, sizes, bL, tiled, ro, bL'.
  repeat match goal with |- _ /\ _ => split end; assumption.
Defined.

(** X8: without distribution options, the [k]-th loop of a successful
    run of [tileLinalgExtOp] runs from the offset to the size of the bound
    of the [k]-th tiled dimension, whose stride is a constant one, in steps
    of that dimension's tile size. *)
Theorem tileLinalgExtOp_undistributed (op : LinalgExtOp)
  (options : LinalgTilingOptions) (b : OpBuilder)
  (tilableOp : TiledOpInterface) (r : TiledOp.t) (b' : OpBuilder) :
  asTiledOpInterface op = Some tilableOp ->
  distribution options = None ->
  tileLinalgExtOp op options b = (Success r, b') ->
  let ts := actualTileSizes tilableOp options b in
  let bounds := fetchedLoopBounds tilableOp options b in
  forall k dim,
    tiledDims ts !! k = Some dim ->
    exists t bound forId step inits tys body,
      ts !! dim = Some t /\
      bounds !! dim = Some bound /\
      m_One (Range.stride bound) = true /\
      TiledOp.loops r !! k =
        Some (ForOp forId (Range.offset bound) (Range.size bound) step
                inits tys body) /\
      materializes t step.
Proof.
  intros Hi Hd Hrun ts bounds k dim Hk.
  destruct (tileLinalgExtOp_success _ _ _ _ _ _ Hi Hrun)
    as [[Hall _]|(_ & info & b3 & st' & Himpl & _ & Hinfo)].
  { unfold tiledDims in Hk. fold ts in Hall.
    rewrite (tiledDimsFrom_all_untiled _ _ Hall) in Hk. discriminate. }
  rewrite Hd in Hinfo. destruct Hinfo as [-> _].
  destruct (tileLinalgExtOpImpl_nest _ _ _ _ _ _ _ _ _ _ Himpl)
    as (sizes & offs & _ & _ & Hnest & _ & _); [cbn; lia|].
  cbn [tileSizes] in Hnest. rewrite drop_0 in Hnest.
  destruct (LoopNest_tiled_dim _ _ _ _ _ _ _ _ Hnest k dim Hk)
    as (t & bound & sv & tv & fid & lb & ub & step & ins & tys & bd & mid
        & H1 & H2 & H3 & H4 & H5 & H6 & H7 & H8 & H9 & H10).
  rewrite Nat.sub_0_r in H1.
  assert (Hb : loopBoundsAre lb ub step bound sv None).
  { destruct (isParallel _ dim); [|exact H8].
    rewrite lookup_nil in H8. exact H8. }
  destruct Hb as (-> & -> & ->).
  exists t, bound, fid, sv, ins, tys, bd. repeat split; assumption.
Qed.

Lemma tileLinalgExtOp_undistributed_witness :
  fst Scenario.scatter2Run =
    Success (Sample.resultOf (fst Scenario.scatter2Run)) /\
  exists t bound forId step inits tys body,
    actualTileSizes Scenario.scatter2Interface
      (Sample.setTileSizes [10; 20]) Sample.emptyBuilder !! 1%nat = Some t /\
    fetchedLoopBounds Scenario.scatter2Interface
      (Sample.setTileSizes [10; 20]) Sample.emptyBuilder !! 1%nat
      = Some bound /\
    m_One (Range.stride bound) = true /\
    TiledOp.loops (Sample.resultOf (fst Scenario.scatter2Run)) !! 1%nat =
      Some (ForOp forId (Range.offset bound) (Range.size bound) step
              inits tys body) /\
    materializes t step.
Proof.
  assert (Hrun :
    tileLinalgExtOp Scenario.scatter2 (Sample.setTileSizes [10; 20])
      Sample.emptyBuilder =
    (Success (Sample.resultOf (fst Scenario.scatter2Run)),
     snd Scenario.scatter2Run))
    by (vm_compute; reflexivity).
  assert (Hdim :
    tiledDims
      (actualTileSizes Scenario.scatter2Interface
         (Sample.setTileSizes [10; 20]) Sample.emptyBuilder) !! 1%nat
    = Some 1%nat)
    by (vm_compute; reflexivity).
  split; [vm_compute; reflexivity|].
  exact (tileLinalgExtOp_undistributed Scenario.scatter2
           (Sample.setTileSizes [10; 20]) Sample.emptyBuilder
           Scenario.scatter2Interface _ _ eq_refl eq_refl Hrun
           1%nat 1%nat Hdim).
Defined.

(** ** Tiles cover the range *)

Lemma forIterations_length (lb ub step : Z) :
  length (forIterations lb ub step) = tripCount lb ub step.
Proof. unfold forIterations. rewrite length_map, length_seq. reflexivity. Qed.

Lemma forIterations_lookup_lt (lb ub step : Z) (k : nat) :
  (k < tripCount lb ub step)%nat ->
  forIterations lb ub step !! k = Some (lb + Z.of_nat k * step).
Proof.
  intros Hk. unfold forIterations.
  change (map ?f ?l) with (fmap (M:=list) f l).
  rewrite list_lookup_fmap, lookup_seq_lt by lia. reflexivity.
Qed.

(** Arithmetic of the clamp: stepping by [t > 0] with tiles of size
    [min(t, ub - iv)] covers [lb, ub) without gap or overlap. *)
Lemma clamped_tiles_cover (lb ub t : Z) (k : nat) (iv : Z) :
  0 < t ->
  forIterations lb ub t !! k = Some iv ->
  exists size,
    evalAffineMin inBoundsTileSizeMap [iv; t; ub] = Some size /\
    0 < size <= t /\
    forIterations lb ub t !! 0%nat = Some lb /\
    match forIterations lb ub t !! S k with
    | Some next => next = iv + size
    | None => ub = iv + size
    end.
Proof.
  intros Ht Hk.
  destruct (forIterations_lookup _ _ _ _ _ Hk) as (_ & -> & Hrange & Hnext).
  pose proof (lookup_lt_Some _ _ _ Hk) as Hlen.
  rewrite forIterations_length in Hlen, Hnext.
  exists (Z.min t (ub - (lb + Z.of_nat k * t))).
  split; [apply evalAffineMin_inBounds|]. split; [lia|].
  split; [rewrite forIterations_lookup_lt by lia; f_equal; lia|].
  destruct (Nat.lt_ge_cases (S k) (tripCount lb ub t)) as [Hlt|Hge].
  - rewrite forIterations_lookup_lt by lia. specialize (Hnext Hlt). lia.
  - rewrite (lookup_ge_None_2 _ (S k)) by (rewrite forIterations_length; lia).
    assert (Hcount : tripCount lb ub t = S k) by lia.
    unfold tripCount in Hcount.
    destruct (Z.ltb_spec 0 t); [|lia].
    destruct (Z.ltb_spec lb ub); cbn [andb] in Hcount; [|lia].
    set (q := (ub - lb + t - 1) / t) in *.
    assert (Hq : q = Z.of_nat (S k)) by lia.
    assert (Hlo : t * q <= ub - lb + t - 1) by (apply Z.mul_div_le; lia).
    assert (Hhi : ub - lb + t - 1 < t * Z.succ q)
      by (apply Z.mul_succ_div_gt; lia).
    nia.
Qed.

(** X9: the tiles of the loops [tileLinalgExtOp] generates without
    distribution cover the range of their dimension without gap or
    overlap.  For the [k]-th tiled dimension, the tiled implementation is
    requested at the induction variable of the [k]-th loop with a tile
    size that, whatever numbers the values stand for at run time and in
    whichever iteration, is positive and at most the step; the first
    iteration starts at the lower bound, the next iteration starts where
    the tile ends, and the tile of the last iteration ends at the upper
    bound. *)
Theorem tileLinalgExtOp_tiles_cover (op : LinalgExtOp)
  (options : LinalgTilingOptions) (b : OpBuilder)
  (tilableOp : TiledOpInterface) (r : TiledOp.t) (b' : OpBuilder) :
  asTiledOpInterface op = Some tilableOp ->
  distribution options = None ->
  tileLinalgExtOp op options b = (Success r, b') ->
  forall k dim,
    tiledDims (actualTileSizes tilableOp options b) !! k = Some dim ->
    exists forId lb ub step inits tys body size,
      let iv := BlockArgument forId 0 IndexType in
      TiledOp.loops r !! k = Some (ForOp forId lb ub step inits tys body) /\
      (exists outs offs sizes bL tiled resultOffsets bL',
          getTiledImplementation tilableOp outs offs sizes bL
            = (Some tiled, resultOffsets, bL') /\
          TiledOp.op r = Some tiled /\
          offs !! dim = Some (OfrValue iv) /\
          sizes !! dim = Some (OfrValue size)) /\
      forall rho j,
        let iterations :=
          forIterations (evalValue rho lb) (evalValue rho ub)
            (evalValue rho step) in
        iterations !! j = Some (rho iv) ->
        iterations !! 0%nat = Some (evalValue rho lb) /\
        0 < evalValue rho size <= evalValue rho step /\
        match iterations !! S j with
        | Some next => next = rho iv + evalValue rho size
        | None => evalValue rho ub = rho iv + evalValue rho size
        end.
Proof.
  intros Hi Hd Hrun k dim Hk.
  destruct (tileLinalgExtOp_success _ _ _ _ _ _ Hi Hrun)
    as [[Hall _]|(_ & info & b3 & st' & Himpl & _ & Hinfo)].
  { unfold tiledDims in Hk.
    rewrite (tiledDimsFrom_all_untiled _ _ Hall) in Hk. discriminate. }
  rewrite Hd in Hinfo. destruct Hinfo as [-> _].
  destruct (tileLinalgExtOpImpl_nest _ _ _ _ _ _ _ _ _ _ Himpl)
    as (sizes & offs & Hts & Hoffs & Hnest & _ & Hleaf); [cbn; lia|].
  cbn [tileSizes offsets take app] in Hts, Hoffs, Hnest.
  rewrite drop_0 in Hnest.
  destruct Hleaf as (outs' & bL & tiled & ro & bL' & Hcall & Hop).
  rewrite Hts, Hoffs in Hcall.
  destruct (LoopNest_tiled_dim _ _ _ _ _ _ _ _ Hnest k dim Hk)
    as (t & bound & sv & tv & fid & lb & ub & step & ins & tys & bd & mid
        & H1 & H2 & H3 & H4 & H5 & H6 & H7 & H8 & H9 & H10).
  rewrite Nat.sub_0_r in H9, H10. unfold inBoundsTileSizeOf in H9.
  assert (Hb : loopBoundsAre lb ub step bound sv None).
  { destruct (isParallel _ dim); [|exact H8].
    rewrite lookup_nil in H8. exact H8. }
  destruct Hb as (_ & _ & ->).
  exists fid, lb, ub, sv, ins, tys, bd,
    (OpResult
       (AffineMinOp mid inBoundsTileSizeMap
          [BlockArgument fid 0 IndexType; tv; ub]) 0).
  cbv zeta. split; [exact H7|]. split.
  { exists outs', offs, sizes, bL, tiled, ro, bL'.
    repeat match goal with |- _ /\ _ => split end; assumption. }
  intros rho j Hj.
  destruct (forIterations_lookup _ _ _ _ _ Hj) as (Hpos & _).
  destruct (clamped_tiles_cover _ _ _ _ _ Hpos Hj)
    as (size & Hmin & Hrange & Hfirst & Hnext).
  assert (Hsize :
    evalValue rho
      (OpResult
         (AffineMinOp mid inBoundsTileSizeMap
            [BlockArgument fid 0 IndexType; tv; ub]) 0) = size).
  { cbn [evalValue map].
    rewrite (evalValue_materializes rho t tv H6).
    rewrite <- (evalValue_materializes rho t sv H5).
    rewrite Hmin. reflexivity. }
  rewrite Hsize. split; [exact Hfirst|]. split; [exact Hrange|exact Hnext].
Qed.

Lemma tileLinalgExtOp_tiles_cover_witness :
  fst Scenario.scatter2Run =
    Success (Sample.resultOf (fst Scenario.scatter2Run)) /\
  exists forId lb ub step inits tys body size,
    TiledOp.loops (Sample.resultOf (fst Scenario.scatter2Run)) !! 1%nat =
      Some (ForOp forId lb ub step inits tys body) /\
    forIterations (evalValue (fun _ => 40) lb) (evalValue (fun _ => 40) ub)
      (evalValue (fun _ => 40) step) = [0; 20; 40] /\
    0 < evalValue (fun _ => 40) size <= 20 /\
    50 = 40 + evalValue (fun _ => 40) size.
Proof.
  assert (Hrun :
    tileLinalgExtOp Scenario.scatter2 (Sample.setTileSizes [10; 20])
      Sample.emptyBuilder =
    (Success (Sample.resultOf (fst Scenario.scatter2Run)),
     snd Scenario.scatter2Run))
    by (vm_compute; reflexivity).
  assert (Hdim :
    tiledDims
      (actualTileSizes Scenario.scatter2Interface
         (Sample.setTileSizes [10; 20]) Sample.emptyBuilder) !! 1%nat
    = Some 1%nat)
    by (vm_compute; reflexivity).
  split; [vm_compute; reflexivity|].
  destruct (tileLinalgExtOp_tiles_cover Scenario.scatter2
              (Sample.setTileSizes [10; 20]) Sample.emptyBuilder
              Scenario.scatter2Interface _ _ eq_refl eq_refl Hrun
              1%nat 1%nat Hdim)
    as (forId & lb & ub & step & inits & tys & body & size & Hloop & _
        & Hcover).
  exists forId, lb, ub, step, inits, tys, body, size.
  split; [exact Hloop|].
  vm_compute in Hloop. injection Hloop as <- <- <- <- <- <- <-.
  assert (Hiterations :
    forIterations
      (evalValue (fun _ => 40) (Range.offset (Sample.bound 50 1)))
      (evalValue (fun _ => 40) (Range.size (Sample.bound 50 1)))
      (evalValue (fun _ => 40) (Sample.constIndex 11 20)) = [0; 20; 40])
    by (vm_compute; reflexivity).
  split; [exact Hiterations|].
  specialize (Hcover (fun _ => 40) 2%nat).
  cbv zeta in Hcover.
  change (forIterations _ _ _) with
    (forIterations
       (evalValue (fun _ => 40) (Range.offset (Sample.bound 50 1)))
       (evalValue (fun _ => 40) (Range.size (Sample.bound 50 1)))
       (evalValue (fun _ => 40) (Sample.constIndex 11 20))) in Hcover.
  rewrite Hiterations in Hcover.
  destruct (Hcover eq_refl) as (_ & Hrange & Hlast).
  split; [exact Hrange | exact Hlast].
Defined.

(** ** The pattern *)

Lemma mkRewriter_eta (rw : PatternRewriter) :
  mkRewriter (builder rw) (actions rw) = rw.
Proof. destruct rw; reflexivity. Qed.

(** The check of the options is a match failure on unsupported options
    and a success otherwise, and leaves the rewriter alone. *)
Lemma verifySupportedTilingOptions_outcome (rewriter : PatternRewriter)
  (op : Operation) (options : LinalgTilingOptions) :
  (exists reason,
     verifySupportedTilingOptions rewriter op options =
       (Failure (MatchFailure reason), rewriter) /\
     unsupportedOptions options) \/
  (verifySupportedTilingOptions rewriter op options = (success, rewriter) /\
   ~ unsupportedOptions options).
Proof.
  destruct (verifySupportedTilingOptions_cases rewriter op options)
    as [[H E]|[[Hn [H E]]|[[Hn1 [Hn2 [H E]]]
       |[[Hn1 [Hn2 [Hn3 [H E]]]]|[H E]]]]];
    [left; eexists; split; [exact E|unfold unsupportedOptions; tauto]..
    |right; split; assumption].
Qed.

(** Options that set tile sizes and nothing else are supported. *)
Lemma setTileSizes_supported (ts : list Z) :
  ~ unsupportedOptions (Sample.setTileSizes ts).
Proof.
  unfold unsupportedOptions, hasInterchange, hasPadding, notExplicitLoops,
    hasNonCyclicDistribution.
  cbn. intros [H|[H|[H|(d & method & H & _)]]];
    solve [apply H; reflexivity | discriminate H].
Qed.

(** X10: a pattern application that fails has requested no rewrite: no
    operation is erased, replaced or given a new marker.  Unless the
    failure is that of [tileLinalgExtOp], whose diagnostic it then is, the
    rewriter is exactly as before, so that nothing has been built
    either. *)
Theorem matchAndRewrite_failure (pattern : LinalgExtBaseTilingPattern.t)
  (op : Operation) (rewriter : PatternRewriter) (d : Diagnostic) :
  fst (matchAndRewrite pattern op rewriter) = Failure d ->
  actions (snd (matchAndRewrite pattern op rewriter)) = actions rewriter /\
  (snd (matchAndRewrite pattern op rewriter) = rewriter \/
   exists linalgExtOp b',
     LinalgExtBaseTilingPattern.dyn_cast_LinalgExtOp pattern op
       = Some linalgExtOp /\
     tileLinalgExtOp linalgExtOp (LinalgExtBaseTilingPattern.options pattern)
       (builder rewriter) = (Failure d, b') /\
     builder (snd (matchAndRewrite pattern op rewriter)) = b').
Proof.
  unfold matchAndRewrite, matchAndRewriteBase.
  destruct (LinalgExtBaseTilingPattern.dyn_cast_LinalgExtOp pattern op)
    as [linalgExtOp|] eqn:Hcast; [|cbn; auto].
  unfold checkAndNotify, notifyMatchFailure.
  destruct (filterMismatch _ op); [cbn; auto|].
  destruct (verifySupportedTilingOptions_outcome rewriter op
              (LinalgExtBaseTilingPattern.options pattern))
    as [(reason & -> & _)|[-> _]]; [cbn; auto|].
  unfold success.
  destruct (tileLinalgExtOp linalgExtOp _ (builder rewriter))
    as [[r|e|w|] b'] eqn:Hrun; cbn; try discriminate.
  - pose proof (tileLinalgExtOp_success_op _ _ _ _ _ Hrun) as Hop.
    destruct (TiledOp.op r) as [tiled|] eqn:Htiled.
    + cbn. rewrite Htiled.
      destruct (negb _); [destruct (TiledOp.results r)|]; discriminate.
    + cbn. rewrite Htiled. cbn. intros _.
      destruct (asTiledOpInterface linalgExtOp).
      * destruct Hop as [tiled Hop]. discriminate.
      * destruct Hop as [_ ->]. split; [reflexivity|].
        left. apply mkRewriter_eta.
  - intros [= <-]. split; [reflexivity|]. right.
    exists linalgExtOp, b'.
    split; [reflexivity|]. split; [exact Hrun | reflexivity].
Qed.

Lemma matchAndRewrite_failure_witness :
  actions
    (snd (matchAndRewrite
            (Scenario.patternFor Sample.scatter2Strided
               (Sample.setTileSizes [10; 20]))
            Sample.tensorOperation Scenario.emptyRewriter)) = [] /\
  fst (tileLinalgExtOp Sample.scatter2Strided (Sample.setTileSizes [10; 20])
         Sample.emptyBuilder) =
    Failure (OpError 2 "expected stride to be 1").
Proof.
  assert (Hrun :
    fst (matchAndRewrite
           (Scenario.patternFor Sample.scatter2Strided
              (Sample.setTileSizes [10; 20]))
           Sample.tensorOperation Scenario.emptyRewriter) =
    Failure (OpError 2 "expected stride to be 1"))
    by (vm_compute; reflexivity).
  destruct (matchAndRewrite_failure _ _ _ _ Hrun) as [Hactions Hwhy].
  split; [exact Hactions|].
  destruct Hwhy as [Hsame|(l & b' & Hcast & Htile & _)].
  - vm_compute in Hsame. discriminate Hsame.
  - assert (Hc :
      LinalgExtBaseTilingPattern.dyn_cast_LinalgExtOp
        (Scenario.patternFor Sample.scatter2Strided
           (Sample.setTileSizes [10; 20])) Sample.tensorOperation =
      Some Sample.scatter2Strided)
      by (vm_compute; reflexivity).
    rewrite Hc in Hcast. injection Hcast as <-.
    exact (f_equal fst Htile).
Defined.

(** X11: a pattern application succeeds only on an operation that is a
    LinalgExt operation with the tiling interface, passes the filter and
    comes with supported options, and on which [tileLinalgExtOp], run on
    the rewriter's builder, succeeds with a tiled operation.  The rewrites
    requested are then, in this order, the marker update on the tiled
    operation and, unless the tiled operation is the operation itself, the
    erasure of the operation when there are no results or its replacement
    by the results. *)
Theorem matchAndRewrite_success (pattern : LinalgExtBaseTilingPattern.t)
  (op : Operation) (rewriter : PatternRewriter) (u : unit)
  (rewriter' : PatternRewriter) :
  matchAndRewrite pattern op rewriter = (Success u, rewriter') ->
  exists linalgExtOp tilableOp r tiled,
    LinalgExtBaseTilingPattern.dyn_cast_LinalgExtOp pattern op
      = Some linalgExtOp /\
    asTiledOpInterface linalgExtOp = Some tilableOp /\
    filterMismatch (LinalgExtBaseTilingPattern.filter pattern) op = None /\
    ~ unsupportedOptions (LinalgExtBaseTilingPattern.options pattern) /\
    tileLinalgExtOp linalgExtOp (LinalgExtBaseTilingPattern.options pattern)
      (builder rewriter) = (Success r, builder rewriter') /\
    TiledOp.op r = Some tiled /\
    actions rewriter' =
      actions rewriter ++
      ReplaceFilter (opId tiled) ::
      (if (opId tiled =? opId op)%nat then []
       else match TiledOp.results r with
            | [] => [EraseOp (opId op)]
            | _ => [ReplaceOp (opId op) (TiledOp.results r)]
            end).
Proof.
  unfold matchAndRewrite, matchAndRewriteBase.
  destruct (LinalgExtBaseTilingPattern.dyn_cast_LinalgExtOp pattern op)
    as [linalgExtOp|]; [|discriminate].
  unfold checkAndNotify, notifyMatchFailure.
  destruct (filterMismatch _ op) eqn:Hf; [discriminate|].
  destruct (verifySupportedTilingOptions_outcome rewriter op
              (LinalgExtBaseTilingPattern.options pattern))
    as [(reason & -> & _)|[-> Hs]]; [discriminate|].
  unfold success.
  destruct (tileLinalgExtOp linalgExtOp _ (builder rewriter))
    as [[r|e|w|] b'] eqn:Hrun; cbn; try discriminate.
  pose proof (tileLinalgExtOp_success_op _ _ _ _ _ Hrun) as Hop.
  destruct (TiledOp.op r) as [tiled|] eqn:Htiled; cbn; rewrite Htiled;
    [|discriminate].
  destruct (asTiledOpInterface linalgExtOp) as [tilableOp|] eqn:Hi.
  2: { destruct Hop as [-> _]. discriminate. }
  intros Hres.
  exists linalgExtOp, tilableOp, r, tiled.
  assert (Hb : builder rewriter' = b' /\
               actions rewriter' =
                 actions rewriter ++
                 ReplaceFilter (opId tiled) ::
                 (if (opId tiled =? opId op)%nat then []
                  else match TiledOp.results r with
                       | [] => [EraseOp (opId op)]
                       | _ => [ReplaceOp (opId op) (TiledOp.results r)]
                       end)).
  { destruct (opId tiled =? opId op)%nat; cbn in Hres.
    - injection Hres as _ <-. cbn. split; reflexivity.
    - destruct (TiledOp.results r); injection Hres as _ <-; cbn;
        rewrite <- app_assoc; split; reflexivity. }
  destruct Hb as [-> Ha].
  repeat match goal with |- _ /\ _ => split end; auto.
Qed.

Lemma matchAndRewrite_success_witness :
  exists linalgExtOp tilableOp r tiled,
    asTiledOpInterface linalgExtOp = Some tilableOp /\
    tileLinalgExtOp linalgExtOp (Sample.setTileSizes [10; 20])
      Sample.emptyBuilder =
      (Success r,
       builder
         (snd (matchAndRewrite
                 (Scenario.patternFor Scenario.scatter2
                    (Sample.setTileSizes [10; 20]))
                 Sample.tensorOperation Scenario.emptyRewriter))) /\
    TiledOp.op r = Some tiled.
Proof.
  assert (Hrun :
    matchAndRewrite
      (Scenario.patternFor Scenario.scatter2 (Sample.setTileSizes [10; 20]))
      Sample.tensorOperation Scenario.emptyRewriter =
    (Success tt,
     snd (matchAndRewrite
            (Scenario.patternFor Scenario.scatter2
               (Sample.setTileSizes [10; 20]))
            Sample.tensorOperation Scenario.emptyRewriter)))
    by (vm_compute; reflexivity).
  destruct (matchAndRewrite_success _ _ _ _ _ Hrun)
    as (l & t & r & tiled & _ & Hi & _ & _ & Htile & Hop & _).
  exists l, t, r, tiled.
  repeat match goal with |- _ /\ _ => split end; assumption.
Defined.

(** X12: on an operation whose tile sizes are all statically zero the
    pattern succeeds, and the one rewrite it requests is the marker update
    on the operation itself, which is neither erased nor replaced; the
    builder has run the size computation and nothing else. *)
Theorem matchAndRewrite_untiled (pattern : LinalgExtBaseTilingPattern.t)
  (op : Operation) (rewriter : PatternRewriter) (linalgExtOp : LinalgExtOp)
  (tilableOp : TiledOpInterface) :
  let options := LinalgExtBaseTilingPattern.options pattern in
  LinalgExtBaseTilingPattern.dyn_cast_LinalgExtOp pattern op
    = Some linalgExtOp ->
  getOperation linalgExtOp = op ->
  asTiledOpInterface linalgExtOp = Some tilableOp ->
  filterMismatch (LinalgExtBaseTilingPattern.filter pattern) op = None ->
  ~ unsupportedOptions options ->
  forallb isUntiledLoop (actualTileSizes tilableOp options (builder rewriter))
    = true ->
  matchAndRewrite pattern op rewriter =
    (success,
     mkRewriter (builderAfterTileSizes tilableOp options (builder rewriter))
       (actions rewriter ++ [ReplaceFilter (opId op)])).
Proof.
  intros options Hcast Hop Hi Hf Hs Hall.
  unfold matchAndRewrite, matchAndRewriteBase.
  rewrite Hcast. unfold checkAndNotify. rewrite Hf. unfold success.
  destruct (verifySupportedTilingOptions_outcome rewriter op options)
    as [(reason & _ & Hu)|[E _]]; [contradiction|].
  fold options. rewrite E. unfold success.
  rewrite (tileLinalgExtOp_tileable linalgExtOp options _ tilableOp Hi).
  cbv zeta.
  rewrite verifyNonParallelUntiled_all_untiled;
    [|exact Hall|rewrite length_actualTileSizes; lia].
  unfold success. rewrite Hall. cbn. rewrite Hop, Nat.eqb_refl. cbn.
  reflexivity.
Qed.

Lemma matchAndRewrite_untiled_witness :
  matchAndRewrite
    (Scenario.patternFor Sample.sort3 (Sample.setTileSizes [0; 0]))
    Sample.bufferOperation Scenario.emptyRewriter =
  (success,
   mkRewriter
     (builderAfterTileSizes Sample.sortInterface (Sample.setTileSizes [0; 0])
        Sample.emptyBuilder)
     [ReplaceFilter 1]).
Proof.
  exact (matchAndRewrite_untiled
           (Scenario.patternFor Sample.sort3 (Sample.setTileSizes [0; 0]))
           Sample.bufferOperation Scenario.emptyRewriter Sample.sort3
           Sample.sortInterface eq_refl eq_refl eq_refl eq_refl
           (setTileSizes_supported [0; 0]) eq_refl).
Defined.

(** ** The distribution of the test pass *)

(** The [n] iterations of the callback of the test pass from dimension
    [first] on: iteration [k] builds the workgroup id and then the
    workgroup count of dimension [first + k]; they end up [k] entries from
    the end. *)
Lemma workgroupInfo_spec (n : nat) :
  forall first b,
    length (fst (Sample.workgroupInfo first n b)) = n /\
    nextId (snd (Sample.workgroupInfo first n b)) = (nextId b + 2 * n)%nat /\
    forall k,
      (k < n)%nat ->
      fst (Sample.workgroupInfo first n b) !! (n - k - 1)%nat =
        Some (mkProcInfo
                (OpResult
                   (DispatchWorkgroupIDOp (nextId b + 2 * k) (first + k)) 0)
                (OpResult
                   (DispatchWorkgroupCountOp (nextId b + 2 * k + 1)
                      (first + k)) 0)).
Proof.
  induction n as [|n IH]; intros first b.
  - cbn. repeat split; [lia | intros k Hk; lia].
  - cbn [Sample.workgroupInfo]. unfold buildFlowWorkgroupInfoOp, create.
    cbn [nextId block].
    match goal with
    | |- context [Sample.workgroupInfo (S first) n ?bb] => set (b2 := bb)
    end.
    destruct (IH (S first) b2) as (Hlen & Hid & Hslots).
    destruct (Sample.workgroupInfo (S first) n b2) as [rest b3].
    cbn [fst snd] in *. subst b2. cbn [nextId] in *.
    split; [rewrite length_app; cbn; lia|]. split; [lia|].
    intros k Hk. destruct k as [|k].
    + rewrite lookup_app_r by lia.
      replace (S n - 0 - 1 - length rest)%nat with 0%nat by lia.
      cbn [lookup list_lookup].
      replace (nextId b + 2 * 0)%nat with (nextId b) by lia.
      replace (nextId b + 1)%nat with (S (nextId b)) by lia.
      replace (first + 0)%nat with first by lia.
      reflexivity.
    + rewrite lookup_app_l by lia.
      replace (S n - S k - 1)%nat with (n - k - 1)%nat by lia.
      rewrite Hslots by lia.
      replace (nextId b + 2 * S k)%nat with (S (S (nextId b)) + 2 * k)%nat
        by lia.
      replace (first + S k)%nat with (S first + k)%nat by lia.
      reflexivity.
Qed.

(** X14: the distribution of the test pass returns one entry per
    distributed range and builds two operations per entry, for the
    dimensions in increasing order; the workgroup id and the workgroup
    count of dimension [dim], each built with [dim] as its dimension, go
    to the entry [numParallelDims - dim - 1]. *)
Theorem workgroupDistributionOptions_procInfo (ranges : list Range.t)
  (b : OpBuilder) :
  let n := length ranges in
  let info := fst (procInfo Sample.workgroupDistributionOptions ranges b) in
  let b' := snd (procInfo Sample.workgroupDistributionOptions ranges b) in
  length info = n /\
  nextId b' = (nextId b + 2 * n)%nat /\
  forall dim,
    (dim < n)%nat ->
    info !! (n - dim - 1)%nat =
      Some (mkProcInfo
              (OpResult (DispatchWorkgroupIDOp (nextId b + 2 * dim) dim) 0)
              (OpResult
                 (DispatchWorkgroupCountOp (nextId b + 2 * dim + 1) dim) 0)).
Proof.
  cbv zeta. cbn [procInfo Sample.workgroupDistributionOptions].
  destruct (workgroupInfo_spec (length ranges) 0 b) as (Hlen & Hid & Hslots).
  split; [exact Hlen|]. split; [exact Hid|].
  intros dim Hdim. apply (Hslots dim Hdim).
Qed.

(** ** Termination *)

(** X15: [tileLinalgExtOp] and the pattern always return.  The generator
    moves one dimension further with every call, so the bound on its
    recursion, the number of tile sizes, is never met: the outcome is a
    success, a reported failure or a violated assertion. *)
Theorem matchAndRewrite_returns (pattern : LinalgExtBaseTilingPattern.t)
  (op : Operation) (rewriter : PatternRewriter) (linalgExtOp : LinalgExtOp)
  (options : LinalgTilingOptions) (b : OpBuilder) :
  let tiling := fst (tileLinalgExtOp linalgExtOp options b) in
  let outcome := fst (matchAndRewrite pattern op rewriter) in
  ((exists r, tiling = Success r) \/ (exists d, tiling = Failure d) \/
   (exists w, tiling = Violation w)) /\
  (outcome = success \/ (exists d, outcome = Failure d) \/
   (exists w, outcome = Violation w)).
Proof.
  cbv zeta. split.
  - pose proof (tileLinalgExtOp_fuel linalgExtOp options b) as H.
    destruct (fst (tileLinalgExtOp linalgExtOp options b)) as [r|d|w|];
      [eauto..|contradiction].
  - unfold matchAndRewrite, matchAndRewriteBase.
    destruct (LinalgExtBaseTilingPattern.dyn_cast_LinalgExtOp pattern op)
      as [l|]; [|cbn; eauto].
    unfold checkAndNotify, notifyMatchFailure.
    destruct (filterMismatch _ op); [cbn; eauto|].
    destruct (verifySupportedTilingOptions_outcome rewriter op
                (LinalgExtBaseTilingPattern.options pattern))
      as [(reason & -> & _)|[-> _]]; [cbn; eauto|].
    unfold success.
    pose proof (tileLinalgExtOp_fuel l
                  (LinalgExtBaseTilingPattern.options pattern)
                  (builder rewriter)) as H.
    destruct (tileLinalgExtOp l _ (builder rewriter)) as [[r|e|w|] b'];
      cbn in *; [|eauto..|contradiction].
    destruct (TiledOp.op r) as [tiled|] eqn:Htiled; cbn; rewrite Htiled;
      [|cbn; eauto].
    destruct (negb _); [destruct (TiledOp.results r)|]; cbn; auto.
Qed.
